(** * Flow-reactor control core

    A shallow embedding of the control core of the flow-reactor software:
    the temperature ramp model and setpoint scheduler ([temp_ramp.py],
    [temp_controller_manager.py]), the ProPar parameter codec
    ([mfc_controller.py]), the verified flow write of the Alicat family
    ([instruments.py]) and the safety supervisor of the control panel
    ([reactor_control_gui_v1.py]); then the status and the capacity of the
    Bronkhorst controller, the emergency stop, the temperature readings and
    the plot samples of the panel, the reader of a growing log file
    ([new_log_monitor.py]) and the packets of the node scan
    ([scan_bronkhorst_nodes.py]).

    Numbers that the Python code keeps in floating point (temperatures,
    times, flows) are exact rationals here: rounding is not part of the model.
    Python exceptions are results of an error type, or [None] where the only
    thing that matters is that no value comes back. *)

From Stdlib Require Import ZArith QArith Qround Qabs Lqa Lia List Bool Ascii String.
From Stdlib Require Import Strings.Byte Floats.SpecFloat.
From stdpp Require Import gmap.
Import ListNotations.

(** ** Python and numpy primitives shared by the modules *)

Module Py.
Local Open Scope Q_scope.

(** Strict comparison on rationals, as a boolean. *)
Definition Qltb (x y : Q) : bool := negb (Qle_bool y x).

(** [l[i]] for a Python list: a negative index counts from the end, an index
    out of range raises [IndexError] ([None]). *)
Definition getitem {A : Type} (l : list A) (i : Z) : option A :=
  let n := Z.of_nat (length l) in
  if ((0 <=? i) && (i <? n))%Z then l !! Z.to_nat i
  else if ((- n <=? i) && (i <? 0))%Z then l !! Z.to_nat (i + n)
  else None.

(** [zip(a, b, c, d)]: stops with the shortest argument. *)
Definition zip4 {A B C D : Type} (a : list A) (b : list B) (c : list C) (d : list D)
  : list (A * B * C * D) :=
  combine (combine (combine a b) c) d.

(** [numpy.argmax] of a boolean array: the index of the first [True], 0 when
    there is none; the empty array raises [ValueError] ([None]). *)
Fixpoint first_true (bs : list bool) : option nat :=
  match bs with
  | [] => None
  | true :: _ => Some O
  | false :: rest => option_map S (first_true rest)
  end.

Definition np_argmax (bs : list bool) : option nat :=
  match bs with
  | [] => None
  | _ => Some (match first_true bs with Some k => k | None => O end)
  end.

(** [numpy.arange(start, stop, step)] on reals: [ceil((stop - start) / step)]
    values [start + i * step]. *)
Definition np_arange (start stop step : Q) : list Q :=
  map (fun i : nat => start + inject_Z (Z.of_nat i) * step)
      (seq 0 (Z.to_nat (Qceiling ((stop - start) / step)))).

(** [numpy.interp(x, [xp0, xp1], [fp0, fp1])] at one abscissa, for
    [xp0 < xp1]: clamped outside the interval, the end value at [xp1], and
    [slope * (x - xp0) + fp0] inside. *)
Definition np_interp (x xp0 xp1 fp0 fp1 : Q) : Q :=
  if Qltb x xp0 then fp0
  else if Qle_bool xp1 x then fp1
  else ((fp1 - fp0) / (xp1 - xp0)) * (x - xp0) + fp0.

(** Exceptions, and results of code that can raise. *)
Inductive exn : Type :=
  | IndexError | KeyError | ValueError | TypeError | AttributeError
  | OverflowError | UnicodeError | StructError | SerialException.

Inductive result (A : Type) : Type :=
  | Ok (a : A)
  | Raise (e : exn).
Arguments Ok {A} a.
Arguments Raise {A} e.

Definition bind {A B : Type} (x : result A) (k : A -> result B) : result B :=
  match x with
  | Ok a => k a
  | Raise e => Raise e
  end.

(** [bytes.strip()], [bytes.split()] and [bytes.fromhex] skip the ASCII
    whitespace: tab, line feed, vertical tab, form feed, carriage return and
    space. *)
Definition is_space (b : byte) : bool :=
  let n := Byte.to_N b in ((9 <=? n) && (n <=? 13) || (n =? 32))%N.

(** [str.strip()] and [int(str, base)] also count the separators
    U+001C..U+001F as whitespace. *)
Definition is_space_str (b : byte) : bool :=
  let n := Byte.to_N b in (is_space b || (28 <=? n) && (n <=? 31))%N.

Fixpoint lstrip (space : byte -> bool) (s : list byte) : list byte :=
  match s with
  | c :: rest => if space c then lstrip space rest else s
  | [] => []
  end.

Definition strip (space : byte -> bool) (s : list byte) : list byte :=
  rev (lstrip space (rev (lstrip space s))).

(** [bytes.decode('ascii')] and [str.encode('ascii')]: the same bytes, or
    [UnicodeError] on a byte above 127. *)
Definition ascii_codec (s : list byte) : result (list byte) :=
  if forallb (fun b => (Byte.to_N b <? 128)%N) s then Ok s else Raise UnicodeError.

(** The value of a hexadecimal digit, in either case. *)
Definition hex_value (c : byte) : option Z :=
  let n := Z.of_N (Byte.to_N c) in
  if ((48 <=? n) && (n <=? 57))%Z then Some (n - 48)%Z
  else if ((65 <=? n) && (n <=? 70))%Z then Some (n - 55)%Z
  else if ((97 <=? n) && (n <=? 102))%Z then Some (n - 87)%Z
  else None.

(** The byte of a number, [ValueError] outside [range(256)] as
    [bytearray.append] has it. *)
Definition to_byte (z : Z) : result byte :=
  if (z <? 0)%Z then Raise ValueError
  else match Byte.of_N (Z.to_N z) with
       | Some b => Ok b
       | None => Raise ValueError
       end.

Definition byte_of (z : Z) : byte :=
  match Byte.of_N (Z.to_N z) with Some b => b | None => "000"%byte end.

(** The digits of [int(str, 16)] after a first digit: digits, with single
    underscores between them. *)
Fixpoint scan16 (acc : Z) (s : list byte) : option Z :=
  match s with
  | [] => Some acc
  | c :: rest =>
      match hex_value c with
      | Some d => scan16 (acc * 16 + d) rest
      | None =>
          if Byte.eqb c "_"%byte
          then match rest with
               | c' :: rest' =>
                   match hex_value c' with
                   | Some d => scan16 (acc * 16 + d) rest'
                   | None => None
                   end
               | [] => None
               end
          else None
      end
  end.

(** [int(str, 16)]: surrounding whitespace, a sign, the prefix [0x] with
    one underscore after it, then the digits. *)
Definition int16 (s : list byte) : result Z :=
  let s := strip is_space_str s in
  let '(negative, s) :=
    match s with
    | c :: rest =>
        if Byte.eqb c "-"%byte then (true, rest)
        else if Byte.eqb c "+"%byte then (false, rest)
        else (false, s)
    | [] => (false, s)
    end in
  let s :=
    match s with
    | c0 :: c1 :: rest =>
        if Byte.eqb c0 "0"%byte && (Byte.eqb c1 "x"%byte || Byte.eqb c1 "X"%byte)
        then match rest with
             | c2 :: rest' => if Byte.eqb c2 "_"%byte then rest' else rest
             | [] => rest
             end
        else s
    | _ => s
    end in
  match s with
  | c :: rest =>
      match hex_value c with
      | Some d =>
          match scan16 d rest with
          | Some n => Ok (if negative then - n else n)%Z
          | None => Raise ValueError
          end
      | None => Raise ValueError
      end
  | [] => Raise ValueError
  end.

(** [bytes.fromhex]: pairs of hexadecimal digits, whitespace allowed before
    a pair. *)
Fixpoint fromhex (s : list byte) : result (list byte) :=
  match s with
  | [] => Ok []
  | c :: rest =>
      if is_space c then fromhex rest
      else
        match hex_value c, rest with
        | Some high, c' :: rest' =>
            match hex_value c' with
            | Some low =>
                bind (fromhex rest') (fun bytes => Ok (byte_of (16 * high + low) :: bytes))
            | None => Raise ValueError
            end
        | _, _ => Raise ValueError
        end
  end.

(** An upper-case hexadecimal digit. *)
Definition hex_digit (n : Z) : byte :=
  if (n <? 10)%Z then byte_of (48 + n) else byte_of (55 + n).

(** [bytes.hex().upper()]. *)
Definition hex_upper (data : list byte) : list byte :=
  flat_map (fun b => let n := Z.of_N (Byte.to_N b) in
                     [hex_digit (n / 16); hex_digit (n mod 16)]%Z) data.

(** The format [{n:02X}] of a non-negative number: upper-case hexadecimal
    digits, padded with zeros to two. *)
Fixpoint hex_digits (fuel : nat) (n : Z) (acc : list byte) : list byte :=
  match fuel with
  | O => acc
  | S fuel' =>
      if (n <? 16)%Z then hex_digit n :: acc
      else hex_digits fuel' (n / 16)%Z (hex_digit (n mod 16)%Z :: acc)
  end.

Definition format_02X (n : Z) : list byte :=
  let digits := hex_digits (S (Z.to_nat (Z.log2 n))) n [] in
  match digits with
  | [d] => ["0"%byte; d]
  | _ => digits
  end.

(** [int.from_bytes(bytes, 'big')]. *)
Definition int_from_bytes (data : list byte) : Z :=
  fold_left (fun acc b => acc * 256 + Z.of_N (Byte.to_N b))%Z data 0%Z.

(** [int.to_bytes(2, 'big')]. *)
Definition int_to_bytes2 (n : Z) : result (list byte) :=
  if ((0 <=? n) && (n <? 65536))%Z
  then Ok [byte_of (n / 256); byte_of (n mod 256)]%Z
  else Raise OverflowError.

End Py.

(** ** The ramp model ([temp_ramp.py]) *)

Module TempRamp.
Import Py.
Local Open Scope Q_scope.

Definition DEG_C : Q := 1.
Definition SECOND : Q := 1 / 60.
Definition MINUTE : Q := 1.
Definition HOUR : Q := 60.

Definition MAX_ERROR_DURING_RAMP : Q := (1 # 10) * DEG_C.

(** The body of [flex_arange] once [start <= stop]: [xs[-1]] raises
    [IndexError] on an empty range. *)
Definition flex_arange_up (start stop step : Q) : option (list Q) :=
  let xs := np_arange start stop step in
  match last xs with
  | None => None
  | Some x => Some (if Qeq_bool x stop then xs else xs ++ [stop])
  end.

Definition flex_arange (start stop step : Q) : option (list Q) :=
  if Qltb stop start
  then option_map (@rev Q) (flex_arange_up stop start step)
  else flex_arange_up start stop step.

(** The attributes of class [TempRamp]. *)
Record t : Type := TempRamp {
  temps : list Q;       (* deg C *)
  hold_times : list Q;  (* minutes *)
  ramp_rates : list Q   (* deg C / minute *)
}.

(** The [for] loop of [ramp_points], from the clock value [curr_time] on:
    the times and temperatures it appends and the clock it leaves. *)
Fixpoint ramp_loop (curr_time : Q) (legs : list (Q * Q * Q * Q))
  : list Q * list Q * Q :=
  match legs with
  | [] => ([], [], curr_time)
  | (start_temp, hold_time, ramp_rate, end_temp) :: rest =>
      let held := if Qltb 0 hold_time then curr_time + hold_time else curr_time in
      let ramped :=
        if Qltb 0 ramp_rate
        then held + Qabs (end_temp - start_temp) / ramp_rate
        else held in
      let '(times, tmps, final) := ramp_loop ramped rest in
      if Qltb 0 hold_time
      then (curr_time :: held :: times, start_temp :: start_temp :: tmps, final)
      else (curr_time :: times, start_temp :: tmps, final)
  end.

Definition legs (r : t) : list (Q * Q * Q * Q) :=
  zip4 (temps r) (hold_times r) (ramp_rates r) (tl (temps r)).

(** [ramp_points]: [self.temps[-1]] raises on an empty temperature list. *)
Definition ramp_points (r : t) : option (list Q * list Q) :=
  let '(times, tmps, curr_time) := ramp_loop 0 (legs r) in
  match last (temps r) with
  | None => None
  | Some final_temp => Some (times ++ [curr_time], tmps ++ [final_temp])
  end.

(** One iteration of the loop of [control_points]: what it appends to
    [control_times] and [control_temps]. *)
Definition control_segment (time0 time1 temp0 temp1 : Q) : option (list Q * list Q) :=
  if Qeq_bool time0 time1 then Some ([time1], [temp1])
  else if Qeq_bool temp0 temp1 then Some ([], [])
  else
    match flex_arange temp0 temp1 MAX_ERROR_DURING_RAMP with
    | None => None
    | Some ramp_temps =>
        let ramp_times :=
          if Qltb temp0 temp1
          then map (fun x => np_interp x temp0 temp1 time0 time1) ramp_temps
          else rev (map (fun x => np_interp x temp1 temp0 time0 time1) ramp_temps) in
        Some (ramp_times, ramp_temps)
    end.

Fixpoint control_loop (pairs : list (Q * Q * Q * Q)) : option (list Q * list Q) :=
  match pairs with
  | [] => Some ([], [])
  | (time0, time1, temp0, temp1) :: rest =>
      match control_segment time0 time1 temp0 temp1 with
      | None => None
      | Some (seg_times, seg_temps) =>
          match control_loop rest with
          | None => None
          | Some (control_times, control_temps) =>
              Some (seg_times ++ control_times, seg_temps ++ control_temps)
          end
      end
  end.

Definition control_points (r : t) : option (list Q * list Q) :=
  match ramp_points r with
  | None => None
  | Some (times, tmps) => control_loop (zip4 times (tl times) tmps (tl tmps))
  end.

(** The setpoint selection of [update_set_point] and of the ramp branch of
    [run_temp_control_loop]:
    [ramp_control_temps[np.argmax(ramp_control_times > elapsed) - 1]]. *)
Definition desired_set_point (ramp_control_times ramp_control_temps : list Q)
  (elapsed : Q) : option Q :=
  match np_argmax (map (fun time => Qltb elapsed time) ramp_control_times) with
  | None => None
  | Some k => getitem ramp_control_temps (Z.of_nat k - 1)
  end.

(** The scheduler on a ramp, at [elapsed] minutes: the control points, then
    the selection. *)
Definition current_setpoint (r : t) (elapsed : Q) : option Q :=
  match control_points r with
  | None => None
  | Some (ramp_control_times, ramp_control_temps) =>
      desired_set_point ramp_control_times ramp_control_temps elapsed
  end.

(** [update_set_point], [seconds] being [time.time() - ramp_start_time]. *)
Definition update_set_point (r : t) (seconds : Q) : option Q :=
  current_setpoint r (seconds * SECOND / MINUTE).

(** The invariant of a ramp specification: one hold time and one rate per
    leg, rates non-negative. *)
Definition valid (r : t) : bool :=
  (1 <=? length (temps r))%nat &&
  (length (hold_times r) =? length (temps r) - 1)%nat &&
  (length (ramp_rates r) =? length (temps r) - 1)%nat &&
  forallb (fun rate => Qle_bool 0 rate) (ramp_rates r).

End TempRamp.

(** ** IEEE-754 single precision, as [struct] packs it *)

Module Binary32.
Import Py.
Local Open Scope Z_scope.

Definition prec : Z := 24.
Definition emax : Z := 128.

Definition sign_bit (s : bool) : Z := if s then 2 ^ 31 else 0.

(** The 32 bits of a single-precision number: sign, 8 bits of biased
    exponent, 23 bits of mantissa. A NaN packs as the quiet NaN. *)
Definition bits (f : spec_float) : Z :=
  match f with
  | S754_zero s => sign_bit s
  | S754_infinity s => sign_bit s + 255 * 2 ^ 23
  | S754_nan => 255 * 2 ^ 23 + 2 ^ 22
  | S754_finite s m e =>
      if Z.pos m <? 2 ^ 23 then sign_bit s + Z.pos m
      else sign_bit s + (e + 150) * 2 ^ 23 + (Z.pos m - 2 ^ 23)
  end.

Definition of_bits (x : Z) : spec_float :=
  let s := 2 ^ 31 <=? x in
  let e := (x / 2 ^ 23) mod 256 in
  let m := x mod 2 ^ 23 in
  if e =? 0 then
    if m =? 0 then S754_zero s else S754_finite s (Z.to_pos m) (-149)
  else if e =? 255 then
    if m =? 0 then S754_infinity s else S754_nan
  else S754_finite s (Z.to_pos (m + 2 ^ 23)) (e - 150).

(** The conversion of a Python float to single precision: round to nearest
    even; a finite number that rounds to an infinity raises
    [OverflowError]. *)
Definition of_float (x : spec_float) : result spec_float :=
  match x with
  | S754_finite s m e =>
      match binary_round prec emax s m e with
      | S754_infinity _ => Raise OverflowError
      | y => Ok y
      end
  | _ => Ok x
  end.

(** [struct.pack('>f', x)]. *)
Definition pack (x : spec_float) : result (list byte) :=
  bind (of_float x) (fun y =>
    let b := bits y in
    Ok [byte_of (b / 2 ^ 24); byte_of ((b / 2 ^ 16) mod 256);
        byte_of ((b / 2 ^ 8) mod 256); byte_of (b mod 256)]).

(** [struct.unpack('>f', data)[0]]: exactly four bytes. *)
Definition unpack (data : list byte) : result spec_float :=
  match data with
  | [b0; b1; b2; b3] => Ok (of_bits (int_from_bytes data))
  | _ => Raise StructError
  end.

End Binary32.

(** ** The ProPar codec and the Bronkhorst controller ([mfc_controller.py]) *)

Module Propar.
Import Py.
Local Open Scope Z_scope.

Inductive ptype : Type := TChar | TInt | TFloat | TStr | TStatus.

(** [PARAM_TYPE_MAP[param_type]]; ['status'], which [write_parameter] passes
    to the parser, is not a key. *)
Definition PARAM_TYPE_MAP (param_type : ptype) : result Z :=
  match param_type with
  | TChar => Ok 0
  | TInt => Ok 32
  | TFloat => Ok 64
  | TStr => Ok 96
  | TStatus => Raise KeyError
  end.

Record param_def : Type := ParamDef {
  process : Z;
  fbnr : Z;
  type : ptype;
  len : option Z
}.

Definition PARAM_DEFINITIONS (param_name : string) : option param_def :=
  if String.eqb param_name "measure" then Some (ParamDef 1 0 TInt None)
  else if String.eqb param_name "setpoint" then Some (ParamDef 1 1 TInt None)
  else if String.eqb param_name "fluid_name" then Some (ParamDef 1 17 TStr (Some 10))
  else if String.eqb param_name "capacity" then Some (ParamDef 1 13 TFloat None)
  else if String.eqb param_name "capacity_unit" then Some (ParamDef 1 31 TStr (Some 7))
  else None.

(** The Python values that go through the codec. *)
Inductive pyvalue : Type :=
  | VNone
  | VTrue
  | VInt (n : Z)
  | VFloat (f : spec_float)
  | VStr (s : list byte).

(** The end of [build_propar_message]: length, node and data in upper-case
    hexadecimal after the colon, then CR LF. *)
Definition frame (node_address : Z) (data_bytes : list byte) : list byte :=
  let length := 1 + Z.of_nat (length data_bytes) in
  ":"%byte :: format_02X length ++ format_02X node_address
    ++ hex_upper data_bytes ++ [x0d; x0a].

(** The value of a write, by parameter type. *)
Definition encode_value (param_type : ptype) (value : pyvalue) : result (list byte) :=
  match param_type with
  | TInt =>
      match value with
      | VInt n => int_to_bytes2 n
      | VTrue => int_to_bytes2 1
      | _ => Raise AttributeError
      end
  | TFloat =>
      match value with
      | VFloat f => Binary32.pack f
      | VInt n => Binary32.pack (binary_normalize 53 1024 n 0 false)
      | VTrue => Binary32.pack (binary_normalize 53 1024 1 0 false)
      | _ => Raise StructError
      end
  | TChar =>
      match value with
      | VInt n => Ok [byte_of (Z.land n 255)]
      | VTrue => Ok [byte_of 1]
      | _ => Raise TypeError
      end
  | _ =>
      match value with
      | VStr s =>
          bind (ascii_codec s) (fun encoded =>
            Ok (byte_of (Z.land (Z.of_nat (length s)) 255) :: encoded))
      | _ => Raise TypeError
      end
  end.

Definition build_propar_message (node_address command process fbnr : Z)
  (param_type : ptype) (value : pyvalue) (str_len : Z) : result (list byte) :=
  bind (to_byte command) (fun command_byte =>
  if command =? 4 then
    let index := 1 in
    bind (PARAM_TYPE_MAP param_type) (fun type_bits =>
    bind (match param_type with
          | TStr => bind (to_byte str_len) (fun b => Ok [b])
          | _ => Ok []
          end) (fun requested =>
    Ok (frame node_address
          ([command_byte;
            byte_of (Z.land process 127);
            byte_of (Z.lor type_bits (Z.land index 31));
            byte_of (Z.land process 127);
            byte_of (Z.lor type_bits (Z.land fbnr 31))] ++ requested))))
  else if command =? 1 then
    let process_byte := byte_of (Z.land process 127) in
    bind (PARAM_TYPE_MAP param_type) (fun type_bits =>
    let param_byte := byte_of (Z.lor type_bits (Z.land fbnr 31)) in
    bind (encode_value param_type value) (fun encoded =>
    Ok (frame node_address ([command_byte; process_byte; param_byte] ++ encoded))))
  else Ok (frame node_address [command_byte])).

(** The end of [parse_propar_response], once the length has been checked:
    the command byte decides. *)
Definition interpret (data_bytes : list byte) (expected_type : ptype) : result pyvalue :=
  match data_bytes with
  | [] => Raise IndexError
  | command :: _ =>
      if Byte.eqb command x00 then
        match data_bytes !! 1%nat with
        | None => Raise IndexError
        | Some status => if Byte.eqb status x00 then Ok VTrue else Ok VNone
        end
      else if Byte.eqb command x02 then
        let value_bytes := skipn 3 data_bytes in
        match expected_type with
        | TInt => Ok (VInt (int_from_bytes value_bytes))
        | TFloat => bind (Binary32.unpack value_bytes) (fun f => Ok (VFloat f))
        | TStr =>
            match value_bytes with
            | [] => Raise IndexError
            | str_len :: _ =>
                bind (ascii_codec
                        (firstn (N.to_nat (Byte.to_N str_len)) (skipn 1 value_bytes)))
                  (fun text => Ok (VStr (strip is_space_str text)))
            end
        | _ => Ok VNone
        end
      else Ok VNone
  end.

Definition parse_propar_response (response_bytes : list byte) (expected_type : ptype)
  : result pyvalue :=
  match response_bytes with
  | [] => Ok VNone
  | _ =>
      bind (ascii_codec response_bytes) (fun decoded =>
      match strip is_space_str decoded with
      | c :: response_str =>
          if negb (Byte.eqb c ":"%byte) then Ok VNone
          else
            bind (int16 (firstn 2 response_str)) (fun length =>
            bind (int16 (firstn 2 (skipn 2 response_str))) (fun node_id =>
            bind (fromhex (skipn 4 response_str)) (fun data_bytes =>
            if negb (1 + Z.of_nat (List.length data_bytes) =? length) then Ok VNone
            else interpret data_bytes expected_type)))
      | [] => Ok VNone
      end)
  end.

(** A response is decoded when the parser returns a value; [None] and an
    exception both report a failure. *)
Definition parsed (outcome : result pyvalue) : Prop :=
  exists value, outcome = Ok value /\ value <> VNone.

(** The synthetic DataReply frame of the round-trip property: command 0x02,
    the process and parameter bytes of the write, then the value as
    [build_propar_message] encodes it for a write. *)
Definition data_reply (node_address process fbnr : Z) (param_type : ptype)
  (value : pyvalue) : result (list byte) :=
  bind (PARAM_TYPE_MAP param_type) (fun type_bits =>
  bind (encode_value param_type value) (fun encoded =>
  Ok (frame node_address
        ([x02; byte_of (Z.land process 127);
          byte_of (Z.lor type_bits (Z.land fbnr 31))] ++ encoded)))).

(** Decoding the synthetic reply to a value. *)
Definition round_trip (node_address process fbnr : Z) (param_type : ptype)
  (value : pyvalue) : result pyvalue :=
  bind (data_reply node_address process fbnr param_type value) (fun response =>
  parse_propar_response response param_type).

(** The state of an [MFCController] that the operations below use. The
    serial link answers a request with a line, an empty line on a timeout,
    or raises. *)
Record controller : Type := Controller {
  ser : list byte -> result (list byte);
  node_address : Z;
  capacity : Q
}.

Definition read_parameter (self : controller) (param_name : string) : pyvalue :=
  match PARAM_DEFINITIONS param_name with
  | None => VNone
  | Some p =>
      match
        bind (build_propar_message (node_address self) 4 (process p) (fbnr p) (type p)
                VNone (match len p with Some n => n | None => 0 end))
          (fun message =>
        bind (ser self message) (fun response =>
        parse_propar_response response (type p)))
      with
      | Ok value => value
      | Raise _ => VNone
      end
  end.

Definition write_parameter (self : controller) (param_name : string) (value : pyvalue)
  : bool :=
  match PARAM_DEFINITIONS param_name with
  | None => false
  | Some p =>
      match
        bind (build_propar_message (node_address self) 1 (process p) (fbnr p) (type p)
                value 0)
          (fun message =>
        bind (ser self message) (fun response =>
        parse_propar_response response TStatus))
      with
      | Ok VTrue => true
      | _ => false
      end
  end.

(** The operand of [raw / 32000.0]: an integer, or [True] as 1; anything
    else (which a read of an integer parameter never returns) is a
    [TypeError]. *)
Definition number (raw : pyvalue) : result Q :=
  match raw with
  | VInt n => Ok (inject_Z n)
  | VTrue => Ok 1%Q
  | _ => Raise TypeError
  end.

Definition get_current_flow (self : controller) : result Q :=
  match read_parameter self "measure" with
  | VNone => Ok 0%Q
  | measure_int =>
      bind (number measure_int) (fun measure =>
      let percentage := ((measure / 32000) * 100)%Q in
      Ok ((percentage / 100) * capacity self)%Q)
  end.

Definition get_current_setpoint (self : controller) : result Q :=
  match read_parameter self "setpoint" with
  | VNone => Ok 0%Q
  | setpoint_int =>
      bind (number setpoint_int) (fun setpoint =>
      let percentage := ((setpoint / 32000) * 100)%Q in
      Ok ((percentage / 100) * capacity self)%Q)
  end.

(** [set_flow_rate]: the percentage of the capacity, clamped to 0..100, as
    an integer of 0..32000. *)
Definition set_flow_rate (self : controller) (flow_rate_sccm : Q) : bool :=
  if Qle_bool (capacity self) 0 then false
  else
    let percentage := (flow_rate_sccm / capacity self * 100)%Q in
    let percentage :=
      if Qltb percentage 0 then 0%Q
      else if Qltb 100 percentage then 100%Q
      else percentage in
    write_parameter self "setpoint" (VInt (Qfloor (percentage / 100 * 32000)%Q)).

End Propar.

(** ** The Alicat controller ([instruments.py]) *)

Module Alicat.
Import Py.
Local Open Scope Q_scope.

Record MFCStatus : Type := Status {
  channel : list byte;
  abs_pressure : Q;
  temperature : Q;
  volumetric_flow : Q;
  standard_mass_flow : Q;
  setpoint : Q;
  gas_type : list byte
}.

(** What an attempt of [set_flow] can raise, and the [RuntimeError] that
    [set_flow] raises in the end, which quotes the last of them. *)
Inductive error : Type :=
  | EmptyResponse (attempt max_retries : Z)
  | InvalidFormat (columns : nat)
  | BadText
  | BadNumber
  | SetpointMismatch (expected got : Q) (attempt max_retries : Z)
  | LinkError
  | SetFlowFailed (max_retries : Z) (last : error).

Inductive outcome (A : Type) : Type :=
  | Return (a : A)
  | Throw (e : error).
Arguments Return {A} a.
Arguments Throw {A} e.

(** [bytes.split()]: the words between runs of whitespace. [word] holds the
    current word, last byte first. *)
Fixpoint split_from (word : list byte) (s : list byte) : list (list byte) :=
  match s with
  | [] => match word with [] => [] | _ => [rev word] end
  | c :: rest =>
      if is_space c
      then match word with
           | [] => split_from [] rest
           | _ => rev word :: split_from [] rest
           end
      else split_from (c :: word) rest
  end.

Definition split (s : list byte) : list (list byte) := split_from [] s.

Fixpoint startswith (prefix s : list byte) : bool :=
  match prefix, s with
  | [], _ => true
  | p :: prefix', c :: s' => Byte.eqb p c && startswith prefix' s'
  | _ :: _, [] => false
  end.

(** [sub in s] on bytes. *)
Fixpoint contains (sub s : list byte) : bool :=
  startswith sub s || match s with [] => false | _ :: s' => contains sub s' end.

Definition endswith (s suffix : list byte) : bool := startswith (rev suffix) (rev s).

Definition MOV : list byte := ["M"; "O"; "V"]%byte.

(** The two characters backslash and r that [b'\\r'] denotes. *)
Definition backslash_r : list byte := [x5c; "r"%byte].

Section Library.

(** Python's [float(bytes)], [bytes.decode('utf-8')] and the format
    [%.2f]: the library's own, whatever they accept. *)
Variable float_of_bytes : list byte -> option Q.
Variable decode_utf8 : list byte -> option (list byte).
Variable format_2f : Q -> list byte.

Definition to_float (column : list byte) : outcome Q :=
  match float_of_bytes column with
  | Some x => Return x
  | None => Throw BadNumber
  end.

Definition parse_raw_response (response : list byte) : outcome MFCStatus :=
  let columns := split (strip is_space response) in
  let columns := filter (fun elem => negb (contains MOV elem)) columns in
  match columns with
  | [c0; c1; c2; c3; c4; c5; c6] =>
      let c6 :=
        if endswith c6 backslash_r then firstn (length c6 - 6) c6 else c6 in
      match decode_utf8 c0 with
      | None => Throw BadText
      | Some channel =>
          match to_float c1, to_float c2, to_float c3, to_float c4, to_float c5 with
          | Return abs_pressure, Return temperature, Return volumetric_flow,
            Return standard_mass_flow, Return setpoint =>
              match decode_utf8 c6 with
              | None => Throw BadText
              | Some gas_type =>
                  Return (Status channel abs_pressure temperature volumetric_flow
                            standard_mass_flow setpoint gas_type)
              end
          | _, _, _, _, _ => Throw BadNumber
          end
      end
  | _ => Throw (InvalidFormat (length columns))
  end.

(** The serial port: the lines the device will answer, a line being what
    [readline] returns or the exception it raises, and what went on so far. *)
Inductive event : Type :=
  | Wrote (data : list byte)
  | Read
  | Slept (seconds : Q).

Record port : Type := Port {
  incoming : list (outcome (list byte));
  trace : list event
}.

Definition write (data : list byte) (ser : port) : port :=
  Port (incoming ser) (trace ser ++ [Wrote data]).

(** [readline] returns the next line; with nothing left to read it times
    out and returns the empty line. *)
Definition readline (ser : port) : outcome (list byte) * port :=
  match incoming ser with
  | line :: rest => (line, Port rest (trace ser ++ [Read]))
  | [] => (Return [], Port [] (trace ser ++ [Read]))
  end.

Definition sleep (seconds : Q) (ser : port) : port :=
  Port (incoming ser) (trace ser ++ [Slept seconds]).

(** The command [b'\r%sS%.2f\r' % (address, flow_rate)]. *)
Definition set_flow_command (address : list byte) (flow_rate : Q) : list byte :=
  [x0d] ++ address ++ ["S"%byte] ++ format_2f flow_rate ++ [x0d].

(** What the line read in an attempt leads to: the [try] block of
    [set_flow] after [readline]. *)
Definition check_response (flow_rate : Q) (attempt max_retries : Z)
  (line : outcome (list byte)) : outcome MFCStatus :=
  match line with
  | Throw e => Throw e
  | Return raw =>
      let response := strip is_space raw in
      match response with
      | [] => Throw (EmptyResponse (attempt + 1) max_retries)
      | _ =>
          match parse_raw_response response with
          | Throw e => Throw e
          | Return status =>
              if Qle_bool (1 # 100) (Qabs (setpoint status - flow_rate))
              then Throw (SetpointMismatch flow_rate (setpoint status)
                            (attempt + 1) max_retries)
              else Return status
          end
      end
  end.

(** The iterations of the [for] loop of [set_flow] over the attempt numbers
    still to run. Falling off the loop returns [None]. *)
Fixpoint set_flow_loop (address : list byte) (flow_rate : Q) (max_retries : Z)
  (attempts : list nat) (ser : port) : outcome (option MFCStatus) * port :=
  match attempts with
  | [] => (Return None, ser)
  | attempt :: later =>
      let ser := write (set_flow_command address flow_rate) ser in
      let '(line, ser) := readline ser in
      match check_response flow_rate (Z.of_nat attempt) max_retries line with
      | Return status => (Return (Some status), ser)
      | Throw e =>
          if (Z.of_nat attempt =? max_retries - 1)%Z
          then (Throw (SetFlowFailed max_retries e), ser)
          else set_flow_loop address flow_rate max_retries later (sleep (1 # 10) ser)
      end
  end.

Definition set_flow (address : list byte) (flow_rate : Q) (max_retries : Z) (ser : port)
  : outcome (option MFCStatus) * port :=
  set_flow_loop address flow_rate max_retries (seq 0 (Z.to_nat max_retries)) ser.

End Library.

(** A reading of the library functions on the plain decimal numbers that the
    device prints, for the examples: [float] on a sign, digits, and digits
    after a point; [%.2f] on a non-negative number; UTF-8 on ASCII text. *)
Definition is_digit (c : byte) : bool :=
  let n := Byte.to_N c in ((48 <=? n) && (n <=? 57))%N.

Fixpoint natural (acc : Z) (s : list byte) : Z * list byte :=
  match s with
  | c :: rest =>
      if is_digit c then natural (acc * 10 + (Z.of_N (Byte.to_N c) - 48))%Z rest
      else (acc, s)
  | [] => (acc, [])
  end.

Definition decimal (s : list byte) : option Q :=
  let '(negative, s) :=
    match s with
    | c :: rest =>
        if Byte.eqb c "-"%byte then (true, rest)
        else if Byte.eqb c "+"%byte then (false, rest)
        else (false, s)
    | [] => (false, s)
    end in
  let signed (q : Q) := if negative then - q else q in
  match s with
  | c :: _ =>
      if is_digit c then
        let '(whole, rest) := natural 0 s in
        match rest with
        | [] => Some (signed (inject_Z whole))
        | point :: fraction =>
            if Byte.eqb point "."%byte then
              let '(part, rest') := natural 0 fraction in
              match rest' with
              | [] =>
                  Some (signed (inject_Z whole
                                + inject_Z part / inject_Z (10 ^ Z.of_nat (length fraction))))
              | _ => None
              end
            else None
        end
      else None
  | [] => None
  end.



Definition ascii_text (s : list byte) : option (list byte) :=
  match ascii_codec s with
  | Ok text => Some text
  | Raise _ => None
  end.

End Alicat.

(** ** The safety supervisor of the control panel ([reactor_control_gui_v1.py]) *)

Module Panel.
Import Py.
Local Open Scope Q_scope.

(** The reason of a shutdown, with the three values its text quotes. *)
Inductive reason : Type :=
  | TemperatureExceeded (internal_temp external_temp setpoint : Q).

(** What the supervisor does to the devices and to the operator. *)
Inductive action : Type :=
  | SetFlowRate (node : Z) (sccm : Q)
  | SetTempSetpoint (celsius : Q)
  | SafetyStatusTriggered
  | SafetyEmail (why : reason)
  | ShutdownDialog (why : reason)
  | TempControlStoppedDialog
  | FlowNotification (node : Z) (current_flow setpoint : Q).

(** The attributes of [MFCGUI] that the supervisor reads and writes. Times
    are microseconds, the resolution of [datetime]. *)
Record t : Type := Gui {
  mfc_controllers : gset Z;
  temp_controllers : list string;
  maintenance_mode : bool;
  safety_triggered : bool;
  temp_control_running : bool;
  flow_alerts : gmap Z bool;
  flow_alert_start_times : gmap Z Z
}.

Definition set_safety_triggered (value : bool) (self : t) : t :=
  Gui (mfc_controllers self) (temp_controllers self) (maintenance_mode self) value
      (temp_control_running self) (flow_alerts self) (flow_alert_start_times self).

Definition set_maintenance_mode (value : bool) (self : t) : t :=
  Gui (mfc_controllers self) (temp_controllers self) value (safety_triggered self)
      (temp_control_running self) (flow_alerts self) (flow_alert_start_times self).

Definition set_temp_control_running (value : bool) (self : t) : t :=
  Gui (mfc_controllers self) (temp_controllers self) (maintenance_mode self)
      (safety_triggered self) value (flow_alerts self) (flow_alert_start_times self).

Definition set_alerts (alerts : gmap Z bool) (start_times : gmap Z Z) (self : t) : t :=
  Gui (mfc_controllers self) (temp_controllers self) (maintenance_mode self)
      (safety_triggered self) (temp_control_running self) alerts start_times.

(** [if node in self.mfc_controllers: self.mfc_controllers[node].set_flow_rate(sccm)] *)
Definition set_if_connected (self : t) (node : Z) (sccm : Q) : list action :=
  if decide (node ∈ mfc_controllers self) then [SetFlowRate node sccm] else [].

Definition has_temp_controller_1 (self : t) : bool :=
  existsb (String.eqb "1") (temp_controllers self).

(** [trigger_safety_shutdown]: the flag first, then the actions in the order
    of the code: CO2 (node 3), H2 (node 6), N2 (node 1), the temperature
    setpoint, the status label, the e-mail and the dialog. *)
Definition shutdown_actions (self : t) (why : reason) : list action :=
  set_if_connected self 3 50 ++
  set_if_connected self 6 0 ++
  set_if_connected self 1 100 ++
  (if has_temp_controller_1 self then [SetTempSetpoint 20] else []) ++
  [SafetyStatusTriggered; SafetyEmail why; ShutdownDialog why].

Definition trigger_safety_shutdown (self : t) (why : reason) : t * list action :=
  (set_safety_triggered true self, shutdown_actions self why).

Definition check_safety_conditions (self : t) (internal_temp external_temp setpoint : Q)
  : t * list action :=
  if maintenance_mode self || safety_triggered self then (self, [])
  else if Qle_bool 750 internal_temp || Qle_bool 750 external_temp || Qle_bool 750 setpoint
  then trigger_safety_shutdown self
         (TemperatureExceeded internal_temp external_temp setpoint)
  else (self, []).

(** [toggle_maintenance_mode], [value] being what the check box holds. *)
Definition toggle_maintenance_mode (self : t) (value : bool) : t :=
  let self := set_maintenance_mode value self in
  if value then self else set_safety_triggered false self.

(** The reset at the start of [start_temp_control]. *)
Definition reset_before_start (self : t) : t :=
  if safety_triggered self then set_safety_triggered false self else self.

(** The branch [if self.safety_triggered:] of [run_temp_control_loop], with
    the setpoint the controller reports: the setpoint goes to 20 when it is
    not there yet, and the loop stops. *)
Definition temp_control_safety_branch (self : t) (current_setpoint : option Q)
  : t * list action :=
  (set_temp_control_running false self,
   match current_setpoint with
   | Some current =>
       if Qltb (1 # 10) (Qabs (current - 20)) && has_temp_controller_1 self
       then [SetTempSetpoint 20] else []
   | None => []
   end ++ [TempControlStoppedDialog]).

(** The state of the supervisor, as the specification names it. *)
Inductive SafetyState : Type := Active | Triggered | MaintenanceDisabled.

Definition safety_state (self : t) : SafetyState :=
  if maintenance_mode self then MaintenanceDisabled
  else if safety_triggered self then Triggered
  else Active.

(** *** The flow monitor *)

Definition sixty_seconds : Z := 60 * 1000000.

(** The body of the loop of [check_flow_conditions] for one controller.
    [reading] is the pair of [get_current_flow()] and
    [get_current_setpoint()], [None] when one of them raised. *)
Definition check_node (current_time : Z) (node_id : Z) (reading : option (Q * Q))
  (alerts : gmap Z bool) (start_times : gmap Z Z)
  : gmap Z bool * gmap Z Z * list action :=
  match reading with
  | None => (alerts, start_times, [])
  | Some (current_flow, setpoint) =>
      if Qltb 0 setpoint then
        if Qltb current_flow ((9 # 10) * setpoint) then
          match start_times !! node_id with
          | None => (alerts, <[node_id := current_time]> start_times, [])
          | Some started =>
              if (sixty_seconds <? current_time - started)%Z then
                match alerts !! node_id with
                | Some true => (alerts, start_times, [])
                | _ =>
                    (<[node_id := true]> alerts, start_times,
                     [FlowNotification node_id current_flow setpoint])
                end
              else (alerts, start_times, [])
          end
        else (delete node_id alerts, delete node_id start_times, [])
      else (alerts, start_times, [])
  end.

Fixpoint check_nodes (current_time : Z) (readings : list (Z * option (Q * Q)))
  (alerts : gmap Z bool) (start_times : gmap Z Z)
  : gmap Z bool * gmap Z Z * list action :=
  match readings with
  | [] => (alerts, start_times, [])
  | (node_id, reading) :: rest =>
      let '(alerts, start_times, sent) :=
        check_node current_time node_id reading alerts start_times in
      let '(alerts, start_times, sent') :=
        check_nodes current_time rest alerts start_times in
      (alerts, start_times, sent ++ sent')
  end.

(** [check_flow_conditions] at [current_time], [readings] being what the
    controllers report, in the order of [self.mfc_controllers.items()]. *)
Definition check_flow_conditions (self : t) (current_time : Z)
  (readings : list (Z * option (Q * Q))) : t * list action :=
  if maintenance_mode self then (self, [])
  else
    let '(alerts, start_times, sent) :=
      check_nodes current_time readings (flow_alerts self) (flow_alert_start_times self) in
    (set_alerts alerts start_times self, sent).

(** A series of polls, each with its time and its readings. *)
Fixpoint polls (self : t) (series : list (Z * list (Z * option (Q * Q))))
  : t * list action :=
  match series with
  | [] => (self, [])
  | (current_time, readings) :: later =>
      let '(self, sent) := check_flow_conditions self current_time readings in
      let '(self, sent') := polls self later in
      (self, sent ++ sent')
  end.

End Panel.

(** The ramp of the end-to-end scenario: 25 to 450 deg C at 8.5 deg C/min,
    a hold of 240 minutes, then back to 25. *)
Definition example_ramp : TempRamp.t :=
  TempRamp.TempRamp [25; 450; 25]%Q [0; 240]%Q [(85 # 10); 0]%Q.

(** ** The expected runtime of a ramp ([temp_controller_manager.py],
    [start_temp_control_thread]) *)

Module Runtime.
Import Py TempRamp.
Local Open Scope Q_scope.

(** [max(xs)] of a list: the first of the largest elements, [ValueError]
    ([None]) on an empty list. *)
Definition py_max (xs : list Q) : option Q :=
  match xs with
  | [] => None
  | x :: rest => Some (fold_left (fun best y => if Qltb best y then y else best) rest x)
  end.

(** [max(temp_ramp.ramp_points()[0]) / HOUR], the expected runtime that
    [start_temp_control_thread] and [temp_controller_manager.py] print. *)
Definition expected_runtime (r : t) : option Q :=
  match ramp_points r with
  | None => None
  | Some (times, _) => option_map (fun latest => latest / HOUR) (py_max times)
  end.

End Runtime.

(** ** The status and the capacity of the Bronkhorst controller ([mfc_controller.py]) *)

Module MFC.
Import Py Propar.
Local Open Scope Q_scope.




(** The numbers of the dictionary that [get_status] returns. *)
Record status : Type := Status {
  node : Z;
  status_capacity : Q;
  current_flow : Q;
  current_setpoint : Q;
  flow_percentage : Q;
  setpoint_percentage : Q
}.


End MFC.

(** ** The emergency stop and the monitoring loops ([reactor_control_gui_v1.py]) *)

Module Supervisor.
Import Py Panel.
Local Open Scope Q_scope.

(** The calls of [check_safety_conditions] that the monitoring loops make,
    one per set of readings: internal temperature, external temperature and
    setpoint. *)
Fixpoint evaluations (self : Panel.t) (readings : list (Q * Q * Q))
  : Panel.t * list action :=
  match readings with
  | [] => (self, [])
  | (internal_temp, external_temp, setpoint) :: later =>
      let '(self, done) := check_safety_conditions self internal_temp external_temp setpoint in
      let '(self, done') := evaluations self later in
      (self, done ++ done')
  end.

(** What the emergency stop does: the actions it shares with the safety
    shutdown, the flow of the sampling controller, and its own dialog. *)
Inductive step : Type :=
  | Supervised (a : action)
  | SetSamplingFlow (sccm : Q)
  | EmergencyStopDialog.



End Supervisor.

(** ** The temperature readings of the control panel ([reactor_control_gui_v1.py]) *)

Module Thermometry.
Import Py.
Local Open Scope Z_scope.

(** [self.last_temp_readings]; the time of the last update in microseconds. *)
Record cached : Type := Cached {
  internal_temp : option Q;
  external_temp : option Q;
  setpoint : option Q;
  last_update : option Z
}.

(** The dictionary that [__init__] sets up. *)
Definition no_readings : cached := Cached None None None None.

(** What [get_temp_readings_threadsafe] returns: internal temperature,
    external temperature and setpoint, or [None] three times. *)
Definition readings : Type := option Q * option Q * option Q.

Definition ten_seconds : Z := 10 * 1000000.

(** [get_temp_readings_threadsafe] at the time [now]; [get_temp_1],
    [get_temp_2] and [get_set_temp_1] are what the three reads of the
    controllers return or raise, in the order of the code. *)
Definition get_temp_readings_threadsafe (temp_controllers : list string) (last : cached)
  (now : Z) (get_temp_1 get_temp_2 get_set_temp_1 : result Q) : readings * cached :=
  if negb (existsb (String.eqb "1") temp_controllers)
     || negb (existsb (String.eqb "2") temp_controllers)
  then ((None, None, None), last)
  else
    match bind get_temp_1 (fun internal =>
          bind get_temp_2 (fun external =>
          bind get_set_temp_1 (fun set_temp => Ok (internal, external, set_temp)))) with
    | Ok (internal, external, set_temp) =>
        ((Some internal, Some external, Some set_temp),
         Cached (Some internal) (Some external) (Some set_temp) (Some now))
    | Raise _ =>
        match last_update last with
        | Some updated =>
            if now - updated <? ten_seconds
            then ((internal_temp last, external_temp last, setpoint last), last)
            else ((None, None, None), last)
        | None => ((None, None, None), last)
        end
    end.

(** The calls that the monitoring and control loops make one after the
    other, each with its time and the outcomes of its three reads. *)
Fixpoint polls (temp_controllers : list string) (last : cached)
  (calls : list (Z * result Q * result Q * result Q)) : list readings * cached :=
  match calls with
  | [] => ([], last)
  | (now, get_temp_1, get_temp_2, get_set_temp_1) :: later =>
      let '(values, last) :=
        get_temp_readings_threadsafe temp_controllers last now
          get_temp_1 get_temp_2 get_set_temp_1 in
      let '(rest, last) := polls temp_controllers last later in
      (values :: rest, last)
  end.

End Thermometry.

(** ** The samples of the temperature plot ([reactor_control_gui_v1.py]) *)

Module PlotData.
Import Py.
Local Open Scope Z_scope.

(** [self.temp_plot_data]: four lists that grow together; times in
    microseconds. *)
Record t : Type := Data {
  time : list Z;
  setpoint : list Q;
  internal_temp : list Q;
  external_temp : list Q
}.

(** The four [append] of a new sample. *)
Definition append (data : t) (current_time : Z) (set_temp internal external : Q) : t :=
  Data (time data ++ [current_time]) (setpoint data ++ [set_temp])
       (internal_temp data ++ [internal]) (external_temp data ++ [external]).

Definition one_hour : Z := 3600 * 1000000.

(** The loop [while time and time[0] < cutoff_time:] with its four
    [pop(0)]; a [pop] from an empty list raises [IndexError] ([None]). *)
Fixpoint remove_old (cutoff_time : Z) (time : list Z) (setpoint internal external : list Q)
  : option t :=
  match time with
  | [] => Some (Data [] setpoint internal external)
  | oldest :: time' =>
      if oldest <? cutoff_time then
        match setpoint, internal, external with
        | _ :: setpoint', _ :: internal', _ :: external' =>
            remove_old cutoff_time time' setpoint' internal' external'
        | _, _, _ => None
        end
      else Some (Data time setpoint internal external)
  end.

(** The sample that an iteration of [run_temp_control_loop] adds, and the
    removal of what is older than an hour. *)
Definition control_loop_sample (data : t) (current_time : Z) (set_temp internal external : Q)
  : option t :=
  let data := append data current_time set_temp internal external in
  remove_old (current_time - one_hour)
    (time data) (setpoint data) (internal_temp data) (external_temp data).

Definition max_data_points : Z := 2 * 60 * 30.

(** [xs[-max_data_points:]] when [len(xs) > max_data_points]. *)
Definition limit {A : Type} (xs : list A) : list A :=
  if max_data_points <? Z.of_nat (length xs)
  then skipn (Z.to_nat (Z.of_nat (length xs) - max_data_points)) xs
  else xs.

(** The sample that an iteration of [monitor_temperature_readings] adds,
    and the limit on the number of points. *)
Definition monitor_sample (data : t) (current_time : Z) (set_temp internal external : Q) : t :=
  let data := append data current_time set_temp internal external in
  Data (limit (time data)) (limit (setpoint data))
       (limit (internal_temp data)) (limit (external_temp data)).

End PlotData.

(** ** The reader of a growing log file ([new_log_monitor.py]) *)

Module LivingLog.
Import Py.

(** The attributes of [LivingLog] that change; the file is an argument of
    the operations, as a text of one byte per character with line feeds at
    the line ends. *)
Record t : Type := Log {
  cursor : nat
}.

(** [str.split('\n')]; [word] holds the current piece, last byte first. *)
Fixpoint split_from (word : list byte) (s : list byte) : list (list byte) :=
  match s with
  | [] => [rev word]
  | c :: rest =>
      if Byte.eqb c x0a then rev word :: split_from [] rest
      else split_from (c :: word) rest
  end.

Definition split (s : list byte) : list (list byte) := split_from [] s.

(** [new_entries] on the file as it is now. The assertion that the file did
    not shrink raises [AssertionError] ([None]); an unfinished last line
    keeps everything for a later call. *)
Definition new_entries (file : list byte) (self : t) : option (list (list byte)) * t :=
  let f_size := length file in
  if (f_size <? cursor self)%nat then (None, self)
  else if (f_size =? cursor self)%nat then (Some [], self)
  else
    let rest_of_file := skipn (cursor self) file in
    match last rest_of_file with
    | Some c =>
        if negb (Byte.eqb c x0a) then (Some [], self)
        else (Some (removelast (split rest_of_file)), Log f_size)
    | None => (None, self)
    end.

(** The calls of [new_entries] that the plot updates make, each on the file
    of its time, and all the entries they return. *)
Fixpoint updates (self : t) (files : list (list byte)) : option (list (list byte)) * t :=
  match files with
  | [] => (Some [], self)
  | file :: later =>
      match new_entries file self with
      | (Some lines, self) =>
          let '(more, self) := updates self later in
          (option_map (app lines) more, self)
      | (None, self) => (None, self)
      end
  end.

End LivingLog.

(** ** The binary packets of the node scan ([scan_bronkhorst_nodes.py]) *)

Module FlowBus.
Import Py.
Local Open Scope Z_scope.

(** The checksum loop: [checksum ^= byte] over the bytes given. *)
Definition xor_all (bytes : list Z) : Z := fold_left Z.lxor bytes 0.

(** The packet that [test_flow_bus_commands] builds for a command: STX, the
    length, the address, the command, the data, ETX, and the checksum of
    all of these but STX. *)
Definition packet (address command : Z) (data : list Z) : list Z :=
  let packet := [2; Z.of_nat (length data) + 3; address; command] ++ data ++ [3] in
  packet ++ [xor_all (tl packet)].

(** [bytes(packet)]: [ValueError] on a number that is no byte. *)
Fixpoint bytes (numbers : list Z) : result (list byte) :=
  match numbers with
  | [] => Ok []
  | n :: rest => bind (to_byte n) (fun b => bind (bytes rest) (fun bs => Ok (b :: bs)))
  end.

End FlowBus.

(* ===== THEORY ===== *)

(** ** Consecutive elements of a list *)

Section Adjacent.
Context {A : Type}.

(** [adjacent R l]: every element of [l] is related to the one after it. *)
Fixpoint adjacent (R : A -> A -> Prop) (l : list A) : Prop :=
  match l with
  | [] => True
  | a :: rest => match rest with [] => True | b :: _ => R a b end /\ adjacent R rest
  end.

Lemma adjacent_cons R a l :
  adjacent R (a :: l) <-> (forall b, head l = Some b -> R a b) /\ adjacent R l.
Proof.
  destruct l as [|b l]; simpl; split; intros [H1 H2]; split; auto.
  - intros ? [=].
  - intros ? [= <-]. exact H1.
Qed.

Lemma adjacent_app R l1 l2 :
  adjacent R (l1 ++ l2) <->
  adjacent R l1 /\ adjacent R l2 /\
  (forall a b, last l1 = Some a -> head l2 = Some b -> R a b).
Proof.
  induction l1 as [|a l1 IH].
  - simpl. split; [intros H; repeat split; auto; intros ? ? [=] | tauto].
  - change ((a :: l1) ++ l2) with (a :: (l1 ++ l2)).
    rewrite !adjacent_cons, IH. destruct l1 as [|a' l1].
    + simpl. split.
      * intros (H1 & _ & H2 & _). repeat split; auto.
        -- intros ? [=].
        -- intros ? ? [= <-] ?. auto.
      * intros ((_ & _) & H2 & H3). repeat split; auto. intros ? ? [=].
    + simpl head. rewrite last_cons_cons. tauto.
Qed.

Lemma adjacent_impl (R S : A -> A -> Prop) l :
  (forall a b, In a l -> In b l -> R a b -> S a b) -> adjacent R l -> adjacent S l.
Proof.
  induction l as [|a l IH]; [easy|]. intros H. rewrite !adjacent_cons.
  intros [H1 H2]. split.
  - intros b Hb. apply H; [left; easy | right | auto].
    destruct l; [easy|]. injection Hb as ->. left; easy.
  - apply IH; [|easy]. intros ? ? ? ?. apply H; right; easy.
Qed.

Lemma adjacent_rev R l : adjacent R (rev l) <-> adjacent (fun a b => R b a) l.
Proof.
  induction l as [|a l IH]; [easy|]. simpl rev.
  rewrite adjacent_app, (adjacent_cons _ a l), IH. simpl. split.
  - intros (H1 & _ & H2). split; [|easy]. intros b Hb. apply H2; [|easy].
    destruct l as [|b' l]; [easy|]. injection Hb as ->. simpl.
    now rewrite last_snoc.
  - intros (H1 & H2). repeat split; auto. intros x b Hx [= <-]. apply H1.
    destruct l as [|b' l]; [easy|]. simpl in Hx. rewrite last_snoc in Hx.
    now injection Hx as ->.
Qed.

Lemma adjacent_lookup R (l : list A) :
  adjacent R l <->
  (forall i a b, l !! i = Some a -> l !! S i = Some b -> R a b).
Proof.
  induction l as [|x l IH]; [easy|]. rewrite adjacent_cons, IH. split.
  - intros [H1 H2] [|i] a b Ha Hb; simpl in *.
    + injection Ha as <-. apply H1. now destruct l.
    + eauto.
  - intros H. split.
    + intros b Hb. apply (H O x b); [easy|]. now destruct l.
    + intros i a b Ha Hb. apply (H (S i)); easy.
Qed.

End Adjacent.

Lemma adjacent_map {A B : Type} (R : B -> B -> Prop) (f : A -> B) l :
  adjacent R (map f l) <-> adjacent (fun a b => R (f a) (f b)) l.
Proof.
  induction l as [|a l IH]; [easy|]. simpl map. rewrite !adjacent_cons, IH.
  destruct l; simpl; [|split; intros [H ?]; split; auto; intros ? [= <-]; apply H; easy].
  split; intros [_ ?]; split; auto; intros ? [=].
Qed.

Lemma adjacent_seq (R : nat -> nat -> Prop) a n :
  (forall i, (a <= i)%nat -> (S i < a + n)%nat -> R i (S i)) -> adjacent R (seq a n).
Proof.
  revert a. induction n as [|n IH]; intros a H; [easy|]. simpl seq.
  rewrite adjacent_cons. split.
  - destruct n; simpl; [easy|]. intros ? [= <-]. apply H; lia.
  - apply IH. intros i ? ?. apply H; lia.
Qed.

(** ** Facts on the ramp model *)

Module TempRampFacts.
Import Py TempRamp.
Local Open Scope Q_scope.

Lemma Qltb_lt x y : Qltb x y = true <-> x < y.
Proof.
  unfold Qltb. rewrite negb_true_iff, <- not_true_iff_false, Qle_bool_iff.
  split; [apply Qnot_le_lt | apply Qlt_not_le].
Qed.

Lemma Qltb_ge x y : Qltb x y = false <-> y <= x.
Proof. unfold Qltb. rewrite negb_false_iff. apply Qle_bool_iff. Qed.

Lemma Qeq_bool_false x y : Qeq_bool x y = false <-> ~ x == y.
Proof. rewrite <- not_true_iff_false, Qeq_bool_iff. tauto. Qed.

Lemma Qle_bool_false x y : Qle_bool x y = false <-> y < x.
Proof.
  rewrite <- not_true_iff_false, Qle_bool_iff.
  split; [apply Qnot_le_lt | apply Qlt_not_le].
Qed.

(** Case analysis on the comparisons of the code. *)
Ltac qcase :=
  match goal with
  | |- context [Qltb ?a ?b] =>
      let E := fresh "E" in
      destruct (Qltb a b) eqn:E; [apply Qltb_lt in E | apply Qltb_ge in E]
  | |- context [Qle_bool ?a ?b] =>
      let E := fresh "E" in
      destruct (Qle_bool a b) eqn:E; [apply Qle_bool_iff in E | apply Qle_bool_false in E]
  | |- context [Qeq_bool ?a ?b] =>
      let E := fresh "E" in
      destruct (Qeq_bool a b) eqn:E; [apply Qeq_bool_iff in E | apply Qeq_bool_false in E]
  end.

(** *** The grid of [numpy.arange] *)

Definition grid (start step : Q) (i : nat) : Q := start + inject_Z (Z.of_nat i) * step.

Definition count (start stop step : Q) : nat := Z.to_nat (Qceiling ((stop - start) / step)).

Lemma np_arange_grid start stop step :
  np_arange start stop step = map (grid start step) (seq 0 (count start stop step)).
Proof. reflexivity. Qed.

Lemma grid_0 start step : grid start step 0 == start.
Proof. unfold grid. simpl. ring. Qed.

Lemma grid_S start step i : grid start step (S i) == grid start step i + step.
Proof.
  unfold grid. rewrite Nat2Z.inj_succ. unfold Z.succ. rewrite inject_Z_plus. ring.
Qed.

Lemma grid_mono start step i j : 0 < step -> (i <= j)%nat -> grid start step i <= grid start step j.
Proof.
  intros Hs H. induction H; [apply Qle_refl|]. rewrite grid_S. lra.
Qed.

Section Range.
Variables start stop step : Q.
Hypothesis Hstep : 0 < step.
Hypothesis Hlt : start < stop.

Lemma quotient_pos : 0 < (stop - start) / step.
Proof. apply Qlt_shift_div_l; lra. Qed.

Lemma count_pos : (1 <= count start stop step)%nat.
Proof.
  unfold count. pose proof quotient_pos as Hq.
  pose proof (Qle_ceiling ((stop - start) / step)) as Hc.
  assert (0 < inject_Z (Qceiling ((stop - start) / step))) as H by lra.
  rewrite <- (Zlt_Qlt 0) in H. lia.
Qed.

Lemma count_ceiling :
  inject_Z (Z.of_nat (count start stop step)) = inject_Z (Qceiling ((stop - start) / step)).
Proof. pose proof count_pos. unfold count in *. f_equal. lia. Qed.

Lemma grid_below i : (i < count start stop step)%nat -> grid start step i < stop.
Proof.
  intros Hi. unfold grid.
  assert (inject_Z (Z.of_nat i) < (stop - start) / step) as H.
  { apply Qle_lt_trans with (inject_Z (Qceiling ((stop - start) / step) - 1)).
    - rewrite <- Zle_Qle. unfold count in Hi. lia.
    - apply Qceiling_lt. }
  apply (Qmult_lt_r _ _ step Hstep) in H.
  assert ((stop - start) / step * step == stop - start) as E by (field; lra).
  rewrite E in H. lra.
Qed.

Lemma grid_count_above : stop <= grid start step (count start stop step).
Proof.
  unfold grid. rewrite count_ceiling.
  pose proof (Qle_ceiling ((stop - start) / step)) as H.
  apply (Qmult_le_r _ _ step Hstep) in H.
  assert ((stop - start) / step * step == stop - start) as E by (field; lra).
  rewrite E in H. lra.
Qed.

End Range.

(** *** The temperatures of a ramp: [flex_arange] *)

Definition up_grid (lo hi : Q) : list Q := np_arange lo hi MAX_ERROR_DURING_RAMP ++ [hi].

Lemma step_pos : 0 < MAX_ERROR_DURING_RAMP.
Proof. reflexivity. Qed.

Lemma last_np_arange lo hi step :
  0 < step -> lo < hi ->
  last (np_arange lo hi step) = Some (grid lo step (count lo hi step - 1)).
Proof.
  intros Hs Hlt. rewrite np_arange_grid. pose proof (count_pos lo hi step Hs Hlt) as Hc.
  destruct (count lo hi step) as [|n]; [lia|].
  rewrite seq_S, map_app. simpl. rewrite last_snoc. do 2 f_equal. lia.
Qed.

Lemma flex_arange_up_lt lo hi :
  lo < hi -> flex_arange_up lo hi MAX_ERROR_DURING_RAMP = Some (up_grid lo hi).
Proof.
  intros Hlt. unfold flex_arange_up. rewrite last_np_arange by (auto using step_pos).
  qcase; [|reflexivity].
  pose proof (grid_below lo hi _ step_pos (count lo hi MAX_ERROR_DURING_RAMP - 1)) as H.
  pose proof (count_pos lo hi _ step_pos Hlt). lapply H; [lra | lia].
Qed.

Lemma flex_arange_lt lo hi :
  lo < hi -> flex_arange lo hi MAX_ERROR_DURING_RAMP = Some (up_grid lo hi).
Proof.
  intros Hlt. unfold flex_arange. qcase; [lra|]. now apply flex_arange_up_lt.
Qed.

Lemma flex_arange_gt lo hi :
  lo < hi -> flex_arange hi lo MAX_ERROR_DURING_RAMP = Some (rev (up_grid lo hi)).
Proof.
  intros Hlt. unfold flex_arange. qcase; [|lra]. now rewrite flex_arange_up_lt.
Qed.

Lemma up_grid_head lo hi :
  lo < hi -> exists x, head (up_grid lo hi) = Some x /\ x == lo.
Proof.
  intros Hlt. unfold up_grid. rewrite np_arange_grid.
  pose proof (count_pos lo hi _ step_pos Hlt) as Hc.
  destruct (count lo hi MAX_ERROR_DURING_RAMP) as [|n]; [lia|].
  simpl. eexists. split; [reflexivity | apply grid_0].
Qed.

Lemma up_grid_last lo hi : last (up_grid lo hi) = Some hi.
Proof. unfold up_grid. apply last_snoc. Qed.

Lemma up_grid_bounds lo hi x : lo < hi -> In x (up_grid lo hi) -> lo <= x <= hi.
Proof.
  intros Hlt Hx. unfold up_grid in Hx. apply in_app_or in Hx as [Hx|[<-|[]]]; [|lra].
  rewrite np_arange_grid in Hx. apply in_map_iff in Hx as (i & <- & Hi).
  apply in_seq in Hi. split.
  - rewrite <- (grid_0 lo MAX_ERROR_DURING_RAMP) at 1.
    apply grid_mono; [apply step_pos | lia].
  - apply Qlt_le_weak, grid_below; [apply step_pos | lia].
Qed.

Lemma up_grid_adjacent lo hi :
  lo < hi ->
  adjacent (fun a b => a < b /\ b - a <= MAX_ERROR_DURING_RAMP) (up_grid lo hi).
Proof.
  intros Hlt. unfold up_grid. apply adjacent_app. split; [|split; [simpl; tauto|]].
  - rewrite np_arange_grid. apply adjacent_map, adjacent_seq. intros i _ _.
    rewrite grid_S. pose proof step_pos. split; lra.
  - intros x y Hx [= <-]. rewrite last_np_arange in Hx by (auto using step_pos).
    injection Hx as <-. split.
    { apply grid_below; auto using step_pos.
      pose proof (count_pos lo hi _ step_pos Hlt). lia. }
    pose proof (grid_count_above lo hi _ step_pos Hlt) as H.
    pose proof (count_pos lo hi _ step_pos Hlt) as Hc.
    assert (count lo hi MAX_ERROR_DURING_RAMP
            = S (count lo hi MAX_ERROR_DURING_RAMP - 1)) as E by lia.
    rewrite E, grid_S in H. lra.
Qed.

(** *** The times of a ramp: [numpy.interp] *)

Section Interp.
Variables xp0 xp1 fp0 fp1 : Q.
Hypothesis Hxp : xp0 < xp1.
Hypothesis Hfp : fp0 < fp1.

Lemma slope_spec : (fp1 - fp0) / (xp1 - xp0) * (xp1 - xp0) == fp1 - fp0.
Proof. field. lra. Qed.

Lemma slope_pos : 0 < (fp1 - fp0) / (xp1 - xp0).
Proof. apply Qlt_shift_div_l; lra. Qed.

Lemma np_interp_lo x : x == xp0 -> np_interp x xp0 xp1 fp0 fp1 == fp0.
Proof.
  intros Hx. unfold np_interp. qcase; [reflexivity|]. qcase; [lra|].
  rewrite Hx. ring.
Qed.

Lemma np_interp_hi : np_interp xp1 xp0 xp1 fp0 fp1 = fp1.
Proof.
  unfold np_interp. qcase; [lra|]. qcase; [reflexivity | lra].
Qed.

Lemma np_interp_strict x y :
  xp0 <= x -> x < y -> y <= xp1 ->
  np_interp x xp0 xp1 fp0 fp1 < np_interp y xp0 xp1 fp0 fp1.
Proof.
  intros Hx Hxy Hy. unfold np_interp.
  pose proof slope_spec as Hs. pose proof slope_pos as Hp.
  set (s := (fp1 - fp0) / (xp1 - xp0)) in *.
  assert (forall z, z < xp1 -> s * (z - xp0) + fp0 < fp1) as Hin.
  { intros z Hz. assert (s * (z - xp0) < s * (xp1 - xp0)) as H.
    { apply Qmult_lt_l; lra. }
    rewrite (Qmult_comm s (xp1 - xp0)) in H. lra. }
  repeat qcase; try lra.
  - apply Hin. lra.
  - assert (s * (x - xp0) < s * (y - xp0)) as H by (apply Qmult_lt_l; lra). lra.
Qed.

End Interp.

Lemma np_interp_bounds xp0 xp1 fp0 fp1 x :
  xp0 < xp1 -> fp0 < fp1 -> fp0 <= np_interp x xp0 xp1 fp0 fp1 <= fp1.
Proof.
  intros Hxp Hfp. unfold np_interp. qcase; [lra|]. qcase; [lra|].
  pose proof (slope_spec xp0 xp1 fp0 fp1 Hxp) as Hs.
  pose proof (slope_pos xp0 xp1 fp0 fp1 Hxp Hfp) as Hp.
  set (s := (fp1 - fp0) / (xp1 - xp0)) in *.
  assert (s * (x - xp0) < s * (xp1 - xp0)) as H1 by (apply Qmult_lt_l; lra).
  assert (s * 0 <= s * (x - xp0)) as H2 by (apply Qmult_le_l; lra).
  rewrite (Qmult_comm s (xp1 - xp0)) in H1. lra.
Qed.

(** *** One iteration of [control_points] *)

Lemma head_In {A} (l : list A) a : head l = Some a -> In a l.
Proof. destruct l; [easy|]. intros [= ->]. now left. Qed.

Lemma last_In {A} (l : list A) a : last l = Some a -> In a l.
Proof.
  induction l as [|x [|y l] IH]; [easy| |].
  - intros [= ->]. now left.
  - rewrite last_cons_cons. intros H. right. auto.
Qed.

Lemma last_rev {A} (l : list A) : last (rev l) = head l.
Proof. destruct l; [easy|]. simpl. apply last_snoc. Qed.

Lemma head_rev {A} (l : list A) : head (rev l) = last l.
Proof. rewrite <- (rev_involutive l) at 2. now rewrite last_rev. Qed.

Lemma head_map {A B} (f : A -> B) l : head (map f l) = option_map f (head l).
Proof. now destruct l. Qed.

Lemma last_map {A B} (f : A -> B) l : last (map f l) = option_map f (last l).
Proof.
  induction l as [|x [|y l] IH]; [easy..|]. simpl map in *. now rewrite !last_cons_cons.
Qed.

(** A ramp from [(time0, temp0)] to [(time1, temp1)] as a run of control
    points: it starts and ends at the two raw points, time advances strictly
    and stays within the leg, and the temperature moves by at most the
    maximum tracking error from one point to the next. *)
Definition ramp_run (time0 time1 temp0 temp1 : Q) (sts sTs : list Q) : Prop :=
  length sts = length sTs /\
  (exists t T, head sts = Some t /\ t == time0 /\ head sTs = Some T /\ T == temp0) /\
  (exists t T, last sts = Some t /\ t == time1 /\ last sTs = Some T /\ T == temp1) /\
  adjacent Qlt sts /\
  Forall (fun t => time0 <= t <= time1) sts /\
  adjacent (fun a b => ~ a == b /\ Qabs (b - a) <= MAX_ERROR_DURING_RAMP) sTs.

Lemma ramp_times time0 time1 lo hi :
  time0 < time1 -> lo < hi ->
  let sts := map (fun x => np_interp x lo hi time0 time1) (up_grid lo hi) in
  (exists t, head sts = Some t /\ t == time0) /\
  last sts = Some time1 /\
  adjacent Qlt sts /\
  Forall (fun t => time0 <= t <= time1) sts.
Proof.
  intros Ht Hlt sts. subst sts. repeat split.
  - destruct (up_grid_head lo hi Hlt) as (x & Hx & Ex). rewrite head_map, Hx. simpl.
    eexists. split; [reflexivity|]. now apply np_interp_lo.
  - rewrite last_map, up_grid_last. simpl. f_equal. now apply np_interp_hi.
  - apply adjacent_map. eapply adjacent_impl; [|apply (up_grid_adjacent lo hi Hlt)].
    intros a b Ha Hb [Hab _]. cbv beta.
    apply (up_grid_bounds lo hi _ Hlt) in Ha. apply (up_grid_bounds lo hi _ Hlt) in Hb.
    apply np_interp_strict; lra.
  - apply List.Forall_forall. intros t Ht'. apply in_map_iff in Ht' as (x & <- & _).
    now apply np_interp_bounds.
Qed.

Lemma control_segment_ramp time0 time1 temp0 temp1 :
  time0 < time1 -> ~ temp0 == temp1 ->
  exists sts sTs,
    control_segment time0 time1 temp0 temp1 = Some (sts, sTs) /\
    ramp_run time0 time1 temp0 temp1 sts sTs.
Proof.
  intros Ht HT. unfold control_segment.
  assert (Qeq_bool time0 time1 = false) as -> by (apply Qeq_bool_false; lra).
  assert (Qeq_bool temp0 temp1 = false) as -> by now apply Qeq_bool_false.
  destruct (Qlt_le_dec temp0 temp1) as [Hlt|Hge].
  - rewrite (flex_arange_lt _ _ Hlt). apply Qltb_lt in Hlt as Eb. rewrite Eb.
    destruct (ramp_times time0 time1 temp0 temp1 Ht Hlt) as (Hh & Hl & Ha & Hf).
    do 2 eexists. split; [reflexivity|]. unfold ramp_run. repeat split; auto.
    + now rewrite length_map.
    + destruct Hh as (t & -> & Et). destruct (up_grid_head _ _ Hlt) as (T & -> & ET).
      now exists t, T.
    + rewrite Hl, up_grid_last. exists time1, temp1. repeat split; reflexivity.
    + eapply adjacent_impl; [|apply (up_grid_adjacent _ _ Hlt)].
      intros a b _ _ [Hab Hd]. cbv beta. split; [lra|]. rewrite Qabs_pos; lra.
  - assert (temp1 < temp0) as Hlt by lra.
    rewrite (flex_arange_gt _ _ Hlt). apply Qltb_ge in Hge as Eb. rewrite Eb.
    rewrite map_rev, rev_involutive.
    destruct (ramp_times time0 time1 temp1 temp0 Ht Hlt) as (Hh & Hl & Ha & Hf).
    do 2 eexists. split; [reflexivity|]. unfold ramp_run. repeat split; auto.
    + now rewrite length_map, length_rev.
    + destruct Hh as (t & -> & Et). rewrite head_rev, up_grid_last.
      exists t, temp0. repeat split; easy.
    + rewrite Hl, last_rev. destruct (up_grid_head _ _ Hlt) as (T & -> & ET).
      now exists time1, T.
    + apply adjacent_rev. eapply adjacent_impl; [|apply (up_grid_adjacent _ _ Hlt)].
      intros a b _ _ [Hab Hd]. cbv beta. split; [lra|].
      rewrite Qabs_neg by lra. lra.
Qed.

Lemma control_segment_instant time0 time1 temp0 temp1 :
  time0 == time1 -> control_segment time0 time1 temp0 temp1 = Some ([time1], [temp1]).
Proof.
  intros H. unfold control_segment. apply Qeq_bool_iff in H. now rewrite H.
Qed.

Lemma control_segment_hold time0 time1 temp0 temp1 :
  ~ time0 == time1 -> temp0 == temp1 ->
  control_segment time0 time1 temp0 temp1 = Some ([], []).
Proof.
  intros H1 H2. unfold control_segment.
  apply Qeq_bool_false in H1. apply Qeq_bool_iff in H2. now rewrite H1, H2.
Qed.

(** *** The control points, leg by leg *)

(** The clock after the hold and after the ramp of a leg, as [ramp_points]
    advances it. *)
Definition held_at (clock hold_time : Q) : Q :=
  if Qltb 0 hold_time then clock + hold_time else clock.

Definition ramped_at (held ramp_rate start_temp end_temp : Q) : Q :=
  if Qltb 0 ramp_rate then held + Qabs (end_temp - start_temp) / ramp_rate else held.

Definition opt_app (x y : option (list Q * list Q)) : option (list Q * list Q) :=
  match x, y with
  | Some (a, b), Some (c, d) => Some (a ++ c, b ++ d)
  | _, _ => None
  end.

(** The control points of a ramp whose lists have matching lengths: each leg
    contributes the segment between the end of its hold and the start of the
    next leg. *)
Fixpoint control_from (clock T0 : Q) (rest hs rs : list Q) : option (list Q * list Q) :=
  match rest, hs, rs with
  | T1 :: rest', h :: hs', r :: rs' =>
      let held := held_at clock h in
      let ramped := ramped_at held r T0 T1 in
      opt_app (control_segment held ramped T0 T1) (control_from ramped T1 rest' hs' rs')
  | _, _, _ => Some ([], [])
  end.

Definition final_temp (T0 : Q) (rest : list Q) : Q :=
  match last rest with Some T => T | None => T0 end.

(** The raw points of [ramp_points] with the clock starting at [clock]. *)
Definition raw_from (clock T0 : Q) (rest hs rs : list Q) : list Q * list Q :=
  let '(times, tmps, final) := ramp_loop clock (zip4 (T0 :: rest) hs rs rest) in
  (times ++ [final], tmps ++ [final_temp T0 rest]).

Definition control_of_raw (raw : list Q * list Q) : option (list Q * list Q) :=
  control_loop (zip4 (fst raw) (tl (fst raw)) (snd raw) (tl (snd raw))).

Lemma last_final_temp T0 rest : last (T0 :: rest) = Some (final_temp T0 rest).
Proof.
  unfold final_temp. destruct rest as [|T1 rest]; [easy|]. rewrite last_cons_cons.
  destruct (last (T1 :: rest)) eqn:E; [easy|]. now apply last_None in E.
Qed.

Lemma final_temp_cons T0 T1 rest : final_temp T0 (T1 :: rest) = final_temp T1 rest.
Proof.
  pose proof (last_final_temp T0 (T1 :: rest)) as H. rewrite last_cons_cons in H.
  rewrite last_final_temp in H. now injection H.
Qed.

Lemma raw_from_nil clock T0 : raw_from clock T0 [] [] [] = ([clock], [T0]).
Proof. reflexivity. Qed.

Lemma raw_from_cons clock T0 T1 rest h hs r rs :
  raw_from clock T0 (T1 :: rest) (h :: hs) (r :: rs) =
  let held := held_at clock h in
  let '(ts, Ts) := raw_from (ramped_at held r T0 T1) T1 rest hs rs in
  if Qltb 0 h then (clock :: held :: ts, T0 :: T0 :: Ts) else (clock :: ts, T0 :: Ts).
Proof.
  unfold raw_from. rewrite final_temp_cons. cbn [zip4 combine ramp_loop].
  fold (zip4 (T1 :: rest) hs rs rest). fold (held_at clock h).
  fold (ramped_at (held_at clock h) r T0 T1).
  destruct (ramp_loop _ _) as [[times tmps] final]. cbv zeta.
  now destruct (Qltb 0 h).
Qed.

Lemma raw_from_head clock T0 rest hs rs :
  length hs = length rest -> length rs = length rest ->
  exists ts Ts, raw_from clock T0 rest hs rs = (clock :: ts, T0 :: Ts).
Proof.
  destruct rest as [|T1 rest], hs as [|h hs], rs as [|r rs]; try easy; intros _ _.
  - rewrite raw_from_nil. now eexists _, _.
  - rewrite raw_from_cons. cbv zeta. destruct (raw_from _ _ _ _ _) as [ts Ts].
    destruct (Qltb 0 h); now eexists _, _.
Qed.

Lemma control_points_raw r T0 rest :
  temps r = T0 :: rest ->
  control_points r = control_of_raw (raw_from 0 T0 rest (hold_times r) (ramp_rates r)).
Proof.
  intros E. unfold control_points, ramp_points, legs, raw_from, control_of_raw.
  rewrite E, last_final_temp. simpl tl.
  now destruct (ramp_loop _ _) as [[times tmps] final].
Qed.

Lemma zip4_cons {A B C D} (a : A) (b : B) (c : C) (d : D) la lb lc ld :
  zip4 (a :: la) (b :: lb) (c :: lc) (d :: ld) = (a, b, c, d) :: zip4 la lb lc ld.
Proof. reflexivity. Qed.

Lemma control_loop_cons time0 time1 temp0 temp1 pairs :
  control_loop ((time0, time1, temp0, temp1) :: pairs) =
  opt_app (control_segment time0 time1 temp0 temp1) (control_loop pairs).
Proof.
  simpl. destruct (control_segment _ _ _ _) as [[a b]|]; [|easy].
  now destruct (control_loop pairs) as [[c d]|].
Qed.

Lemma held_at_ge clock h : clock <= held_at clock h.
Proof. unfold held_at. qcase; lra. Qed.

Lemma control_of_raw_from rest : forall clock T0 hs rs,
  length hs = length rest -> length rs = length rest ->
  control_of_raw (raw_from clock T0 rest hs rs) = control_from clock T0 rest hs rs.
Proof.
  induction rest as [|T1 rest IH]; intros clock T0 [|h hs] [|r rs]; try easy.
  intros [= Hh] [= Hr]. rewrite raw_from_cons. cbv zeta.
  specialize (IH (ramped_at (held_at clock h) r T0 T1) T1 hs rs Hh Hr).
  destruct (raw_from_head (ramped_at (held_at clock h) r T0 T1) T1 rest hs rs Hh Hr)
    as (ts & Ts & E).
  rewrite E in *. unfold control_of_raw in *. cbn [control_from].
  cbn [fst snd tl] in IH. rewrite <- IH. destruct (Qltb 0 h) eqn:Eh.
  - assert (~ clock == held_at clock h) as Hne.
    { unfold held_at. rewrite Eh. apply Qltb_lt in Eh. intros Hc. lra. }
    cbn [fst snd tl]. rewrite 2!zip4_cons.
    rewrite 2!control_loop_cons, (control_segment_hold _ _ _ _ Hne) by reflexivity.
    match goal with |- opt_app _ ?x = _ => now destruct x as [[a b]|] end.
  - assert (held_at clock h = clock) as Eheld by (unfold held_at; now rewrite Eh).
    cbn [fst snd tl]. rewrite zip4_cons, control_loop_cons. now rewrite !Eheld.
Qed.

Lemma opt_app_Some x y cts cTs :
  opt_app x y = Some (cts, cTs) <->
  exists a b c d, x = Some (a, b) /\ y = Some (c, d) /\ cts = a ++ c /\ cTs = b ++ d.
Proof.
  destruct x as [[a b]|], y as [[c d]|]; simpl; split;
    try (intros [= <- <-]; now eexists _, _, _, _);
    try easy; intros (? & ? & ? & ? & H1 & H2 & -> & ->); congruence.
Qed.

(** A leg either ramps for a positive time or leaves the clock where it is. *)
Lemma leg_cases held r T0 T1 :
  0 <= r ->
  (0 < r /\ ~ T0 == T1 /\ held < ramped_at held r T0 T1) \/
  ((r == 0 \/ T0 == T1) /\ ramped_at held r T0 T1 == held).
Proof.
  intros Hr. unfold ramped_at. qcase.
  - assert (forall d, 0 < d -> held < held + d / r) as Hpos.
    { intros d Hd. assert (0 < d / r) by (apply Qlt_shift_div_l; lra). lra. }
    destruct (Q_dec T0 T1) as [[Hlt|Hgt]|Heq].
    + left. repeat split; [easy | lra |]. rewrite Qabs_pos by lra. apply Hpos. lra.
    + left. repeat split; [easy | lra |]. rewrite Qabs_neg by lra. apply Hpos. lra.
    + right. split; [now right|]. rewrite Qabs_pos by lra.
      assert (T1 - T0 == 0) as -> by lra. field. lra.
  - right. split; [left; lra | reflexivity].
Qed.

Lemma leg_segment held r T0 T1 :
  0 <= r ->
  exists sts sTs,
    control_segment held (ramped_at held r T0 T1) T0 T1 = Some (sts, sTs) /\
    length sts = length sTs /\
    adjacent Qle sts /\
    Forall (fun t => held <= t <= ramped_at held r T0 T1) sts /\
    (exists T, last sTs = Some T /\ T == T1).
Proof.
  intros Hr. destruct (leg_cases held r T0 T1 Hr) as [(Hp & HT & Hlt)|(_ & Heq)].
  - destruct (control_segment_ramp _ _ _ _ Hlt HT) as (sts & sTs & E & Hrun).
    destruct Hrun as (Hlen & _ & (t & T & _ & _ & HlT & ET) & Hadj & Hb & _).
    exists sts, sTs. repeat split; auto.
    + eapply adjacent_impl; [|exact Hadj]. intros. now apply Qlt_le_weak.
    + now exists T.
  - rewrite control_segment_instant by now symmetry.
    eexists _, _. split; [reflexivity|]. repeat split; simpl; auto.
    + constructor; [|constructor]. lra.
    + now exists T1.
Qed.

Lemma ramped_at_ge held r T0 T1 : 0 <= r -> held <= ramped_at held r T0 T1.
Proof. intros Hr. destruct (leg_cases held r T0 T1 Hr) as [(_ & _ & H)|(_ & H)]; lra. Qed.

(** Totality and shape of the control points of a ramp with matching lists
    and non-negative rates. *)
Lemma control_from_spec rest : forall clock T0 hs rs,
  length hs = length rest -> length rs = length rest ->
  Forall (fun rate => 0 <= rate) rs ->
  exists cts cTs,
    control_from clock T0 rest hs rs = Some (cts, cTs) /\
    length cts = length cTs /\
    adjacent Qle cts /\
    Forall (fun t => clock <= t) cts /\
    (rest <> [] -> exists T, last cTs = Some T /\ T == final_temp T0 rest).
Proof.
  induction rest as [|T1 rest IH]; intros clock T0 [|h hs] [|r rs]; try easy.
  - intros _ _ _. exists [], []. repeat split; simpl; auto. easy.
  - intros [= Hh] [= Hr] Hrates. apply Forall_cons in Hrates as [Hr0 Hrates].
    cbn [control_from].
    pose proof (held_at_ge clock h) as Hheld.
    set (held := held_at clock h) in *.
    pose proof (ramped_at_ge held r T0 T1 Hr0) as Hramped.
    destruct (leg_segment held r T0 T1 Hr0) as (sts & sTs & Es & Hl & Ha & Hb & T & HT & ET).
    set (ramped := ramped_at held r T0 T1) in *.
    destruct (IH ramped T1 hs rs Hh Hr Hrates) as (c & d & Ec & Hl' & Ha' & Hb' & Hlast).
    rewrite Es, Ec. exists (sts ++ c), (sTs ++ d). split; [reflexivity|]. repeat split.
    + rewrite !length_app. lia.
    + apply adjacent_app. repeat split; auto. intros a b Ha1 Hb1.
      apply last_In in Ha1. apply head_In in Hb1.
      rewrite List.Forall_forall in Hb, Hb'. specialize (Hb _ Ha1). specialize (Hb' _ Hb1).
      lra.
    + apply Forall_app. split.
      * eapply Forall_impl; [exact Hb|]. intros t Ht. simpl in Ht. lra.
      * eapply Forall_impl; [exact Hb'|]. intros t Ht. simpl in Ht. lra.
    + intros _. rewrite final_temp_cons, last_app. destruct rest as [|T2 rest].
      * destruct hs, rs; try easy. simpl in Ec. injection Ec as <- <-. simpl.
        now exists T.
      * destruct Hlast as (T' & -> & ET'); [easy|]. now exists T'.
Qed.

Lemma ramp_run_shape time0 time1 temp0 temp1 sts sTs :
  ramp_run time0 time1 temp0 temp1 sts sTs -> ~ temp0 == temp1 ->
  exists t0 t1 ts' Tf Ts',
    sts = t0 :: t1 :: ts' /\ sTs = Tf :: Ts' /\ t0 == time0 /\ t0 < t1 /\ Tf == temp0.
Proof.
  intros (Hlen & (t & T & Ht & Et & HT & ET) & (t' & T' & _ & _ & HlT & ET') & Hadj & _) Hne.
  destruct sts as [|t0 [|t1 ts']], sTs as [|Tf [|Tf' Ts']]; try easy.
  - simpl in *. injection HT as ->. injection HlT as ->. destruct Hne. now rewrite <- ET.
  - simpl in Ht, HT. injection Ht as ->. injection HT as ->.
    exists t, t1, ts', T, (Tf' :: Ts'). repeat split; auto. apply Hadj.
Qed.


(** *** The setpoint selection *)

Lemma lookup_map {A B} (f : A -> B) (l : list A) i :
  map f l !! i = option_map f (l !! i).
Proof. revert i. induction l as [|a l IH]; intros [|i]; simpl; auto. Qed.

Lemma first_true_Some bs k :
  first_true bs = Some k ->
  bs !! k = Some true /\ forall i, (i < k)%nat -> bs !! i = Some false.
Proof.
  revert k. induction bs as [|[|] bs IH]; intros k; simpl; try easy.
  - intros [= <-]. split; [easy|]. lia.
  - destruct (first_true bs) as [k'|]; [|easy]. intros [= <-].
    destruct (IH k' eq_refl) as [H1 H2]. split; [easy|].
    intros [|i] Hi; [easy|]. apply H2. lia.
Qed.

Lemma first_true_None bs :
  first_true bs = None -> forall i b, bs !! i = Some b -> b = false.
Proof.
  induction bs as [|[|] bs IH]; simpl; try easy.
  destruct (first_true bs); [easy|]. intros _ [|i] b; simpl; [congruence|].
  now apply IH.
Qed.

Lemma adjacent_le_lookup (l : list Q) i j a b :
  adjacent Qle l -> (i <= j)%nat -> l !! i = Some a -> l !! j = Some b -> a <= b.
Proof.
  intros Hadj Hij Ha. revert b. induction Hij as [|j Hij IH]; intros b Hb.
  - rewrite Ha in Hb. injection Hb as ->. apply Qle_refl.
  - destruct (l !! j) as [c|] eqn:Ec.
    + apply Qle_trans with c; [now apply IH|].
      apply (proj1 (adjacent_lookup Qle l) Hadj j); easy.
    + apply lookup_ge_None_1 in Ec. apply lookup_lt_Some in Hb. lia.
Qed.

Lemma getitem_nonneg {A} (l : list A) (i : nat) x :
  l !! i = Some x -> getitem l (Z.of_nat i) = Some x.
Proof.
  intros H. unfold getitem. pose proof (lookup_lt_Some _ _ _ H).
  assert (((0 <=? Z.of_nat i) && (Z.of_nat i <? Z.of_nat (length l)))%Z = true) as ->.
  { apply andb_true_iff. split; [apply Z.leb_le | apply Z.ltb_lt]; lia. }
  now rewrite Nat2Z.id.
Qed.

Lemma getitem_minus_one {A} (l : list A) : getitem l (-1) = last l.
Proof.
  unfold getitem. rewrite last_lookup. destruct l as [|a l]; [easy|].
  change (0 <=? -1)%Z with false. cbn [andb].
  assert (((- Z.of_nat (length (a :: l)) <=? -1) && (-1 <? 0))%Z = true) as ->.
  { apply andb_true_iff. split; [apply Z.leb_le | apply Z.ltb_lt]; cbn [length]; lia. }
  f_equal. cbn [length]. lia.
Qed.

Lemma lookup_ltb_false (cts : list Q) elapsed i :
  map (fun time => Qltb elapsed time) cts !! i = Some false ->
  exists t, cts !! i = Some t /\ t <= elapsed.
Proof.
  rewrite lookup_map. destruct (cts !! i) as [t|]; [|easy]. simpl.
  intros [= H]. apply Qltb_ge in H. now exists t.
Qed.

Lemma lookup_ltb_true (cts : list Q) elapsed i :
  map (fun time => Qltb elapsed time) cts !! i = Some true ->
  exists t, cts !! i = Some t /\ elapsed < t.
Proof.
  rewrite lookup_map. destruct (cts !! i) as [t|]; [|easy]. simpl.
  intros [= H]. apply Qltb_lt in H. now exists t.
Qed.

Lemma desired_set_point_nonempty cts cTs elapsed :
  cts <> [] ->
  desired_set_point cts cTs elapsed =
  getitem cTs
    (Z.of_nat (match first_true (map (fun time => Qltb elapsed time) cts) with
               | Some k => k
               | None => 0%nat
               end) - 1).
Proof. now destruct cts. Qed.

(** On times in non-decreasing order, once the first control point has been
    reached the selection is the last control point that has been reached. *)
Lemma desired_latest cts cTs elapsed :
  length cts = length cTs -> adjacent Qle cts ->
  (exists t0, head cts = Some t0 /\ t0 <= elapsed) ->
  exists j tj Tj,
    cts !! j = Some tj /\ cTs !! j = Some Tj /\ tj <= elapsed /\
    (forall k tk, (j < k)%nat -> cts !! k = Some tk -> elapsed < tk) /\
    desired_set_point cts cTs elapsed = Some Tj.
Proof.
  intros Hlen Hadj (t0 & Hh & Ht0). destruct cts as [|t0' cts']; [easy|].
  injection Hh as ->. rewrite desired_set_point_nonempty by easy.
  set (cts := t0 :: cts') in *.
  destruct (first_true _) as [k|] eqn:E.
  - apply first_true_Some in E as [Hk Hbefore].
    destruct k as [|j].
    { simpl in Hk. injection Hk as Hk. apply Qltb_lt in Hk. lra. }
    destruct (lookup_ltb_false cts elapsed j (Hbefore j (Nat.lt_succ_diag_r j)))
      as (tj & Htj & Hle).
    destruct (lookup_ltb_true cts elapsed (S j) Hk) as (tk & Htk & Hlt).
    destruct (lookup_lt_is_Some_2 cTs j) as [Tj HTj].
    { rewrite <- Hlen. now apply lookup_lt_Some in Htj. }
    exists j, tj, Tj. repeat split; auto.
    + intros k' tk' Hjk Hk'. apply Qlt_le_trans with tk; [easy|].
      apply (adjacent_le_lookup cts (S j) k'); auto.
    + replace (Z.of_nat (S j) - 1)%Z with (Z.of_nat j) by lia. now apply getitem_nonneg.
  - pose proof (first_true_None _ E) as Hall.
    change (Z.of_nat 0 - 1)%Z with (-1)%Z. rewrite getitem_minus_one, last_lookup.
    destruct (lookup_lt_is_Some_2 cts (pred (length cts))) as [tj Htj]; [simpl; lia|].
    destruct (lookup_lt_is_Some_2 cTs (pred (length cTs))) as [Tj HTj].
    { rewrite <- Hlen. simpl. lia. }
    exists (pred (length cts)), tj, Tj. rewrite Hlen at 2. repeat split; auto.
    + specialize (Hall (pred (length cts)) (Qltb elapsed tj)).
      rewrite lookup_map, Htj in Hall. now apply Qltb_ge, Hall.
    + intros k tk Hk Htk. apply lookup_lt_Some in Htk. lia.
Qed.

(** Past every control point the selection wraps around to the last one. *)
Lemma desired_after_end cts cTs elapsed :
  cts <> [] -> Forall (fun t => t <= elapsed) cts ->
  desired_set_point cts cTs elapsed = last cTs.
Proof.
  intros Hne Hall. rewrite desired_set_point_nonempty by easy.
  destruct (first_true _) as [k|] eqn:E.
  - apply first_true_Some in E as [Hk _].
    destruct (lookup_ltb_true cts elapsed k Hk) as (tk & Htk & Hlt).
    rewrite List.Forall_forall in Hall.
    assert (tk <= elapsed); [|lra]. apply Hall. apply list_elem_of_In.
    now apply list_elem_of_lookup_2 in Htk.
  - apply getitem_minus_one.
Qed.

(** Before the first control point the same wrap-around selects the last
    control point as well. *)
Lemma desired_before_start cts cTs elapsed t0 :
  head cts = Some t0 -> elapsed < t0 ->
  desired_set_point cts cTs elapsed = last cTs.
Proof.
  intros Hh Hlt. destruct cts as [|t0' cts']; [easy|]. injection Hh as ->.
  unfold desired_set_point, np_argmax. simpl map. simpl first_true.
  apply Qltb_lt in Hlt. rewrite Hlt. apply getitem_minus_one.
Qed.

(** *** Valid ramp specifications *)

Lemma valid_inv r :
  valid r = true ->
  exists T0 rest,
    temps r = T0 :: rest /\ length (hold_times r) = length rest /\
    length (ramp_rates r) = length rest /\
    Forall (fun rate => 0 <= rate) (ramp_rates r).
Proof.
  unfold valid. rewrite !andb_true_iff. intros [[[H1 H2] H3] H4].
  destruct (temps r) as [|T0 rest]; [easy|]. exists T0, rest.
  apply Nat.eqb_eq in H2, H3. simpl in H2, H3. rewrite Nat.sub_0_r in H2, H3.
  repeat split; auto. apply List.Forall_forall. intros rate Hin.
  rewrite forallb_forall in H4. now apply Qle_bool_iff, H4.
Qed.

Lemma control_points_from r T0 rest :
  temps r = T0 :: rest -> length (hold_times r) = length rest ->
  length (ramp_rates r) = length rest ->
  control_points r = control_from 0 T0 rest (hold_times r) (ramp_rates r).
Proof.
  intros E Hh Hr. rewrite (control_points_raw r T0 rest E).
  now apply control_of_raw_from.
Qed.


(** *** The ramp model and the scheduler on valid specifications *)



(** The first leg, when it is a ramp: the control points start with the end
    of the hold at the first temperature, and time then advances. *)
Lemma control_from_first_ramp clock T0 T1 rest h hs rate rs cts cTs :
  0 <= rate -> ~ rate == 0 -> ~ T0 == T1 ->
  control_from clock T0 (T1 :: rest) (h :: hs) (rate :: rs) = Some (cts, cTs) ->
  exists t0 t1 ts' Tf Ts',
    cts = t0 :: t1 :: ts' /\ cTs = Tf :: Ts' /\
    t0 == held_at clock h /\ t0 < t1 /\ Tf == T0.
Proof.
  intros Hr Hnz Hne E. cbn [control_from] in E.
  apply opt_app_Some in E as (a & b & c & d & Ea & _ & -> & ->).
  destruct (leg_cases (held_at clock h) rate T0 T1 Hr) as [(_ & _ & Hlt)|([Hz|HT] & _)];
    try easy.
  destruct (control_segment_ramp _ _ _ _ Hlt Hne) as (sts & sTs & Es & Hrun).
  rewrite Es in Ea. injection Ea as <- <-.
  destruct (ramp_run_shape _ _ _ _ _ _ Hrun Hne) as (t0 & t1 & ts' & Tf & Ts' & -> & -> & H).
  now exists t0, t1, (ts' ++ c), Tf, (Ts' ++ d).
Qed.

(** C3, as the code has it. For every valid ramp specification with at least
    two temperatures the control points exist and, for every elapsed time:
    once the first control point has been reached, the scheduler returns the
    temperature of the latest control point whose time is at most the elapsed
    time; once every control point has been reached it returns the last
    programmed temperature; and at elapsed time 0 it returns the first
    programmed temperature when the first leg has no hold and is a ramp
    (non-zero rate, different temperatures). *)
Theorem current_setpoint_latest (r : TempRamp.t) :
  valid r = true -> (2 <= length (temps r))%nat ->
  exists control_times control_temps,
    control_points r = Some (control_times, control_temps) /\
    (forall elapsed,
        (exists t0, head control_times = Some t0 /\ t0 <= elapsed) ->
        exists j tj Tj,
          control_times !! j = Some tj /\ control_temps !! j = Some Tj /\
          tj <= elapsed /\
          (forall k tk, (j < k)%nat -> control_times !! k = Some tk -> elapsed < tk) /\
          current_setpoint r elapsed = Some Tj) /\
    (forall elapsed,
        (forall t, In t control_times -> t <= elapsed) ->
        exists T Tlast,
          current_setpoint r elapsed = Some T /\
          last (temps r) = Some Tlast /\ T == Tlast) /\
    (forall T0 T1 hold rate,
        temps r !! 0%nat = Some T0 -> temps r !! 1%nat = Some T1 ->
        hold_times r !! 0%nat = Some hold -> ramp_rates r !! 0%nat = Some rate ->
        hold <= 0 -> ~ rate == 0 -> ~ T0 == T1 ->
        exists T, current_setpoint r 0 = Some T /\ T == T0).
Proof.
  intros Hv H2. destruct (valid_inv r Hv) as (T0 & rest & E & Hh & Hr & Hrates).
  pose proof (control_points_from r T0 rest E Hh Hr) as Ecp.
  destruct (control_from_spec rest 0 T0 _ _ Hh Hr Hrates)
    as (cts & cTs & Ec & Hlen & Hadj & _ & Hlast).
  rewrite Ec in Ecp. unfold current_setpoint. rewrite Ecp.
  assert (rest <> []) as Hne by (rewrite E in H2; destruct rest; simpl in H2; [lia|easy]).
  destruct (Hlast Hne) as (Tl & HTl & ETl).
  exists cts, cTs. split; [reflexivity|]. split; [|split].
  - intros elapsed Hstart. now apply desired_latest.
  - intros elapsed Hall. exists Tl, (final_temp T0 rest).
    rewrite E, last_final_temp. repeat split; auto.
    rewrite desired_after_end; auto.
    + intros ->. destruct cTs; [easy|]. easy.
    + now apply List.Forall_forall.
  - intros T0' T1 hold rate HT0 HT1 Hhold Hrate Hle Hnz HneT.
    rewrite E in HT0, HT1. simpl in HT0. injection HT0 as <-.
    destruct rest as [|T1' rest']; [easy|]. simpl in HT1. injection HT1 as ->.
    destruct (hold_times r) as [|h hs]; [easy|]. simpl in Hhold. injection Hhold as ->.
    destruct (ramp_rates r) as [|rt rs]; [easy|]. simpl in Hrate. injection Hrate as ->.
    apply Forall_cons in Hrates as [Hr0 _].
    destruct (control_from_first_ramp _ _ _ _ _ _ _ _ _ _ Hr0 Hnz HneT Ec)
      as (t0 & t1 & ts' & Tf & Ts' & -> & -> & Et0 & Hlt & ETf).
    assert (held_at 0 hold = 0) as Eheld.
    { unfold held_at. apply Qltb_ge in Hle. now rewrite Hle. }
    rewrite Eheld in Et0. exists Tf. split; [|exact ETf].
    rewrite desired_set_point_nonempty by easy. simpl map. simpl first_true.
    assert (Qltb 0 t0 = false) as -> by (apply Qltb_ge; lra).
    assert (Qltb 0 t1 = true) as -> by (apply Qltb_lt; lra).
    reflexivity.
Qed.

Lemma current_setpoint_latest_witness :
  valid example_ramp = true /\ (2 <= length (temps example_ramp))%nat /\
  exists T, current_setpoint example_ramp 0 = Some T /\ T == 25.
Proof.
  split; [reflexivity|]. split; [simpl; lia|].
  destruct (current_setpoint_latest example_ramp) as (cts & cTs & _ & _ & _ & H0);
    [reflexivity | simpl; lia |].
  apply (H0 25 450 0 (85 # 10)); try reflexivity.
  - lra.
  - intros H; lra.
  - intros H; lra.
Defined.

(** C3 as stated fails at elapsed time 0 on a valid specification whose
    first leg is instantaneous (rate 0): the schedule starts at the second
    temperature. *)
Lemma current_setpoint_start_counterexample :
  valid (TempRamp [25; 450] [0] [0]) = true /\
  head (temps (TempRamp [25; 450] [0] [0])) = Some 25 /\
  current_setpoint (TempRamp [25; 450] [0] [0]) 0 = Some 450 /\
  ~ 450 == 25.
Proof. repeat split. intros H. lra. Qed.

(** With a hold on the first leg no control point has been reached before
    the hold ends: the index wraps around and the scheduler returns the last
    programmed temperature. *)
Lemma initial_hold_wraps :
  valid (TempRamp [25; 450] [10] [5]) = true /\
  match control_points (TempRamp [25; 450] [10] [5]) with
  | Some (t0 :: _, T0 :: _) => t0 == 10 /\ T0 == 25
  | _ => False
  end /\
  current_setpoint (TempRamp [25; 450] [10] [5]) 0 = Some 450.
Proof.
  split; [reflexivity|]. split.
  - assert (match control_points (TempRamp [25; 450] [10] [5]) with
            | Some (t0 :: _, T0 :: _) => Qeq_bool t0 10 && Qeq_bool T0 25
            | _ => false
            end = true) as H by (vm_compute; reflexivity).
    destruct (control_points _) as [[[|t0 cts] [|T0 cTs]]|]; try discriminate H.
    apply andb_true_iff in H as [H1 H2]. now apply Qeq_bool_iff in H1, H2.
  - vm_compute. reflexivity.
Qed.

(** *** The end-to-end scenario *)

(** The last two control points of the scenario, checked by evaluation. *)
Definition holds_at (l : list Q) (i : Z) (v : Q) : bool :=
  match l !! Z.to_nat i with
  | Some x => Qeq_bool x v
  | None => false
  end.

Definition has_length (l : list Q) (n : Z) : bool := (Z.of_nat (length l) =? n)%Z.

Lemma holds_at_spec l i v :
  holds_at l i v = true -> exists x, l !! Z.to_nat i = Some x /\ x == v.
Proof.
  unfold holds_at. destruct (l !! Z.to_nat i) as [x|]; [|easy].
  intros H. apply Qeq_bool_iff in H. now exists x.
Qed.

Lemma example_points_facts :
  match control_points example_ramp with
  | Some (cts, cTs) =>
      has_length cts 4252 && has_length cTs 4252 &&
      holds_at cts 4250 50 && holds_at cts 4251 290 &&
      holds_at cTs 4250 450 && holds_at cTs 4251 25
  | None => false
  end = true.
Proof. vm_compute. reflexivity. Qed.

Lemma example_points :
  exists cts cTs a b A B,
    control_points example_ramp = Some (cts, cTs) /\
    Z.of_nat (length cts) = 4252%Z /\ Z.of_nat (length cTs) = 4252%Z /\
    adjacent Qle cts /\
    cts !! Z.to_nat 4250 = Some a /\ a == 50 /\
    cts !! Z.to_nat 4251 = Some b /\ b == 290 /\
    cTs !! Z.to_nat 4250 = Some A /\ A == 450 /\
    cTs !! Z.to_nat 4251 = Some B /\ B == 25.
Proof.
  pose proof example_points_facts as F.
  destruct (valid_inv example_ramp eq_refl) as (T0 & rest & E & Hh & Hr & Hrates).
  pose proof (control_points_from _ T0 rest E Hh Hr) as Ecp.
  destruct (control_from_spec rest 0 T0 _ _ Hh Hr Hrates) as (cts & cTs & Ec & _ & Hadj & _).
  rewrite Ec in Ecp. rewrite Ecp in F.
  apply andb_true_iff in F as [F F6]. apply andb_true_iff in F as [F F5].
  apply andb_true_iff in F as [F F4]. apply andb_true_iff in F as [F F3].
  apply andb_true_iff in F as [F1 F2].
  apply Z.eqb_eq in F1, F2.
  apply holds_at_spec in F3 as (a & Ha & Ea). apply holds_at_spec in F4 as (b & Hb & Eb).
  apply holds_at_spec in F5 as (A & HA & EA). apply holds_at_spec in F6 as (B & HB & EB).
  exists cts, cTs, a, b, A, B. repeat split; assumption.
Qed.

(** C4, as the code has it. On temperatures [25, 450, 25], hold times
    [0, 240] minutes and rates [8.5, 0] the scheduler returns 25 at elapsed
    time 0 and 450 from elapsed time 50 until the hold ends at 290 minutes;
    from then on (so at 300) it returns the final temperature 25. *)
Theorem example_scenario :
  (exists T, current_setpoint example_ramp 0 = Some T /\ T == 25) /\
  (forall elapsed, 50 <= elapsed -> elapsed < 290 ->
     exists T, current_setpoint example_ramp elapsed = Some T /\ T == 450) /\
  (forall elapsed, 290 <= elapsed ->
     exists T, current_setpoint example_ramp elapsed = Some T /\ T == 25).
Proof.
  split; [eexists; split; [vm_compute; reflexivity | reflexivity]|].
  destruct example_points
    as (cts & cTs & a & b & A & B & E & Hl & HL & Hadj & Ha & Ea & Hb & Eb & HA & EA & HB & EB).
  unfold current_setpoint. rewrite E. split.
  - intros elapsed Hlo Hhi.
    destruct (lookup_lt_is_Some_2 cts 0) as [t0 Ht0]; [lia|].
    assert (t0 <= a) as H0a.
    { apply (adjacent_le_lookup cts 0 (Z.to_nat 4250)); auto. lia. }
    destruct (desired_latest cts cTs elapsed) as (j & tj & Tj & Hj & HTj & Hle & Hafter & ->).
    { lia. } { exact Hadj. } { exists t0. rewrite head_lookup. split; [easy | lra]. }
    exists Tj. split; [reflexivity|].
    assert (j = Z.to_nat 4250) as ->.
    { destruct (Nat.lt_trichotomy j (Z.to_nat 4250)) as [Hlt | [-> | Hgt]]; [| easy |].
      - specialize (Hafter _ a Hlt Ha). lra.
      - apply lookup_lt_Some in Hj as Hjl.
        assert (j = Z.to_nat 4251) as -> by lia. rewrite Hb in Hj. injection Hj as <-. lra. }
    rewrite HA in HTj. now injection HTj as <-.
  - intros elapsed Hlo. exists B. split; [|exact EB].
    rewrite desired_after_end.
    + rewrite last_lookup. replace (pred (length cTs)) with (Z.to_nat 4251) by lia. exact HB.
    + intros ->. discriminate Hl.
    + apply List.Forall_forall. intros t Ht.
      apply list_elem_of_In, list_elem_of_lookup in Ht as [i Hi].
      apply lookup_lt_Some in Hi as Hil.
      assert (t <= b); [|lra].
      apply (adjacent_le_lookup cts i (Z.to_nat 4251)); auto. lia.
Qed.

Lemma example_scenario_witness :
  (50 <= 50 /\ 50 < 290 /\
   exists T, current_setpoint example_ramp 50 = Some T /\ T == 450) /\
  (290 <= 300 /\ exists T, current_setpoint example_ramp 300 = Some T /\ T == 25).
Proof.
  destruct example_scenario as (_ & Hhold & Hend). split.
  - split; [lra|]. split; [lra|]. apply Hhold; lra.
  - split; [lra|]. apply Hend. lra.
Defined.

(** C4 as stated fails at elapsed time 300: the ramp takes 50 minutes and the
    hold 240, so the program is over at 290 and the scheduler is back at 25. *)
Lemma example_scenario_counterexample :
  current_setpoint example_ramp 300 = Some 25 /\ ~ 25 == 450.
Proof. split; [vm_compute; reflexivity | intros H; lra]. Qed.

End TempRampFacts.


(** ** Facts on the single-precision encoding *)

Module Binary32Facts.
Import Py Binary32.
Local Open Scope Z_scope.

Definition val (b : byte) : Z := Z.of_N (Byte.to_N b).

Lemma val_byte_of z : 0 <= z < 256 -> val (byte_of z) = z.
Proof.
  intros Hz. unfold val, byte_of. destruct (Byte.of_N (Z.to_N z)) as [b|] eqn:E.
  - apply Byte.to_of_N in E. lia.
  - apply Byte.of_N_None_iff in E. lia.
Qed.

(** The fields of a word put together from a sign, an exponent field and a
    mantissa field. *)
Definition compose (s : bool) (E M : Z) : Z := sign_bit s + E * 2 ^ 23 + M.

Lemma compose_fields s E M :
  0 <= E < 256 -> 0 <= M < 2 ^ 23 ->
  (2 ^ 31 <=? compose s E M) = s /\
  (compose s E M / 2 ^ 23) mod 256 = E /\
  compose s E M mod 2 ^ 23 = M /\
  0 <= compose s E M < 2 ^ 32.
Proof.
  unfold compose, sign_bit.
  change (2 ^ 23) with 8388608. change (2 ^ 31) with 2147483648.
  change (2 ^ 32) with 4294967296. intros HE HM.
  destruct s; repeat split; try (apply Z.leb_le; lia); try (apply Z.leb_gt; lia);
    try lia; Z.div_mod_to_equations; lia.
Qed.

Lemma of_bits_compose s E M :
  0 <= E < 256 -> 0 <= M < 2 ^ 23 ->
  of_bits (compose s E M) =
  if E =? 0 then
    if M =? 0 then S754_zero s else S754_finite s (Z.to_pos M) (-149)
  else if E =? 255 then
    if M =? 0 then S754_infinity s else S754_nan
  else S754_finite s (Z.to_pos (M + 2 ^ 23)) (E - 150).
Proof.
  intros HE HM. destruct (compose_fields s E M HE HM) as (Hs & He & Hm & _).
  unfold of_bits. cbv zeta. now rewrite Hs, He, Hm.
Qed.

Lemma digits2_size p : digits2_pos p = Pos.size p.
Proof. induction p; simpl; congruence. Qed.

Lemma size_bounds p : 2 ^ (Z.pos (Pos.size p) - 1) <= Z.pos p < 2 ^ Z.pos (Pos.size p).
Proof.
  pose proof (Pos.size_gt p) as Hgt. pose proof (Pos.size_le p) as Hle.
  apply Pos2Z.pos_lt_pos in Hgt. apply Pos2Z.pos_le_pos in Hle.
  rewrite Pos2Z.inj_pow in Hgt, Hle. change (Z.pos p~0) with (2 * Z.pos p) in Hle.
  split; [|exact Hgt].
  assert (2 ^ Z.pos (Pos.size p) = 2 * 2 ^ (Z.pos (Pos.size p) - 1)) as E.
  { rewrite <- Z.pow_succ_r by lia. f_equal. lia. }
  lia.
Qed.

(** A valid finite single-precision number is subnormal, with the least
    exponent, or normal, with a mantissa of exactly 24 bits. *)
Lemma valid_finite_cases s m e :
  valid_binary prec emax (S754_finite s m e) = true ->
  (Z.pos m < 2 ^ 23 /\ e = -149) \/
  (2 ^ 23 <= Z.pos m < 2 ^ 24 /\ -149 <= e <= 104).
Proof.
  unfold valid_binary, bounded, canonical_mantissa, fexp, emin, prec, emax.
  rewrite andb_true_iff, Z.eqb_eq, Z.leb_le, digits2_size.
  intros [Hc Hb]. pose proof (size_bounds m) as [Hlo Hhi].
  set (d := Z.pos (Pos.size m)) in *.
  destruct (Z.lt_trichotomy d 24) as [Hd | [Hd | Hd]].
  - left. assert (2 ^ d <= 2 ^ 23) by (apply Z.pow_le_mono_r; lia). lia.
  - right. rewrite Hd in *. change (24 - 1) with 23 in Hlo. lia.
  - assert (2 ^ 24 <= 2 ^ (d - 1)) by (apply Z.pow_le_mono_r; lia). lia.
Qed.

Lemma bits_compose y :
  valid_binary prec emax y = true ->
  exists s E M, bits y = compose s E M /\ 0 <= E < 256 /\ 0 <= M < 2 ^ 23 /\
    y = (if E =? 0 then
           if M =? 0 then S754_zero s else S754_finite s (Z.to_pos M) (-149)
         else if E =? 255 then
           if M =? 0 then S754_infinity s else S754_nan
         else S754_finite s (Z.to_pos (M + 2 ^ 23)) (E - 150)).
Proof.
  intros Hv. destruct y as [s | s | | s m e].
  - exists s, 0, 0. unfold bits, compose. repeat split; try lia.
  - exists s, 255, 0. unfold bits, compose. repeat split; try lia.
  - exists false, 255, (2 ^ 22). unfold bits, compose, sign_bit. repeat split; try lia.
  - destruct (valid_finite_cases s m e Hv) as [[Hm ->] | [Hm He]]; unfold bits.
    + apply Z.ltb_lt in Hm as Hb. rewrite Hb.
      exists s, 0, (Z.pos m). unfold compose. repeat split; lia.
    + assert ((Z.pos m <? 2 ^ 23) = false) as -> by (apply Z.ltb_ge; lia).
      exists s, (e + 150), (Z.pos m - 2 ^ 23). unfold compose.
      change (2 ^ 24) with (2 * 2 ^ 23) in Hm.
      repeat split; try lia.
      assert ((e + 150 =? 0) = false) as -> by (apply Z.eqb_neq; lia).
      assert ((e + 150 =? 255) = false) as -> by (apply Z.eqb_neq; lia).
      f_equal; [|lia]. replace (Z.pos m - 2 ^ 23 + 2 ^ 23) with (Z.pos m) by lia.
      now rewrite Pos2Z.id.
Qed.

(** Decoding the bits of a valid single-precision number gives it back. *)
Lemma of_bits_bits y :
  valid_binary prec emax y = true ->
  of_bits (bits y) = y /\ 0 <= bits y < 2 ^ 32.
Proof.
  intros Hv. destruct (bits_compose y Hv) as (s & E & M & -> & HE & HM & Ey).
  split; [|apply compose_fields; assumption].
  now rewrite of_bits_compose, <- Ey.
Qed.

Lemma int_from_bytes4 b :
  0 <= b < 2 ^ 32 ->
  int_from_bytes [byte_of (b / 2 ^ 24); byte_of ((b / 2 ^ 16) mod 256);
                  byte_of ((b / 2 ^ 8) mod 256); byte_of (b mod 256)] = b.
Proof.
  change (2 ^ 32) with 4294967296. change (2 ^ 24) with 16777216.
  change (2 ^ 16) with 65536. change (2 ^ 8) with 256. intros Hb.
  unfold int_from_bytes. cbn [fold_left]. fold (val (byte_of (b / 16777216))).
  fold (val (byte_of ((b / 65536) mod 256))). fold (val (byte_of ((b / 256) mod 256))).
  fold (val (byte_of (b mod 256))).
  rewrite !val_byte_of by (Z.div_mod_to_equations; lia).
  Z.div_mod_to_equations. lia.
Qed.

(** Rounding to single precision leaves a single-precision number alone. *)
Lemma of_float_valid y : valid_binary prec emax y = true -> of_float y = Ok y.
Proof.
  destruct y as [s | s | | s m e]; try reflexivity. intros Hv.
  unfold of_float, binary_round.
  unfold valid_binary, bounded, canonical_mantissa in Hv.
  apply andb_true_iff in Hv as [Hc Hb]. apply Z.eqb_eq in Hc.
  rewrite Hc. unfold shl_align. rewrite Z.sub_diag.
  unfold binary_round_aux, shr_fexp, Zdigits2. rewrite Hc, Z.sub_diag.
  cbn [shr shr_record_of_loc shr_m loc_of_shr_record shr_r shr_s round_nearest_even].
  unfold Zdigits2. rewrite Hc, Z.sub_diag. cbn [shr shr_record_of_loc shr_m].
  now rewrite Hb.
Qed.

(** Packing then unpacking a valid single-precision number gives it back. *)
Lemma unpack_pack y :
  valid_binary prec emax y = true -> bind (pack y) unpack = Ok y.
Proof.
  intros Hv. unfold pack. rewrite (of_float_valid y Hv). cbn [bind].
  destruct (of_bits_bits y Hv) as [E Hb]. unfold unpack.
  now rewrite int_from_bytes4, E.
Qed.

End Binary32Facts.

(** ** Facts on the ProPar codec *)

Module ProparFacts.
Import Py Propar Binary32Facts.
Local Open Scope Z_scope.

(** *** Bytes and hexadecimal digits *)

(** A character of a frame body: ASCII, and not whitespace. *)
Definition plain (c : byte) : bool :=
  negb (is_space_str c) && (Byte.to_N c <? 128)%N.

Lemma byte_of_val b : byte_of (val b) = b.
Proof. destruct b; reflexivity. Qed.

Lemma val_range b : 0 <= val b < 256.
Proof. unfold val. pose proof (Byte.to_N_bounded b). lia. Qed.

Lemma hex_pair_spec b :
  plain (hex_digit (val b / 16)) = true /\
  plain (hex_digit (val b mod 16)) = true /\
  is_space (hex_digit (val b / 16)) = false /\
  hex_value (hex_digit (val b / 16)) = Some (val b / 16) /\
  hex_value (hex_digit (val b mod 16)) = Some (val b mod 16) /\
  byte_of (16 * (val b / 16) + val b mod 16) = b.
Proof. destruct b; vm_compute; repeat split. Qed.

Lemma format_02X_val b :
  format_02X (val b) = [hex_digit (val b / 16); hex_digit (val b mod 16)] /\
  int16 (format_02X (val b)) = Ok (val b).
Proof. destruct b; vm_compute; split; reflexivity. Qed.

Lemma format_02X_spec z :
  0 <= z <= 255 ->
  exists d1 d2,
    format_02X z = [d1; d2] /\ int16 [d1; d2] = Ok z /\
    plain d1 = true /\ plain d2 = true.
Proof.
  intros Hz. rewrite <- (val_byte_of z) by lia.
  destruct (format_02X_val (byte_of z)) as [E1 E2].
  destruct (hex_pair_spec (byte_of z)) as (P1 & P2 & _).
  rewrite E1 in E2. rewrite E1. now eexists _, _.
Qed.

Lemma hex_upper_plain data : forallb plain (hex_upper data) = true.
Proof.
  induction data as [|b data IH]; [reflexivity|]. cbn [hex_upper flat_map app forallb].
  destruct (hex_pair_spec b) as (P1 & P2 & _). fold (val b). rewrite P1, P2.
  exact IH.
Qed.

Lemma fromhex_hex_upper data : fromhex (hex_upper data) = Ok data.
Proof.
  induction data as [|b data IH]; [reflexivity|]. cbn [hex_upper flat_map app fromhex].
  destruct (hex_pair_spec b) as (_ & _ & S1 & H1 & H2 & E). fold (val b).
  rewrite S1, H1, H2. fold (hex_upper data). rewrite IH. cbn [bind]. now rewrite E.
Qed.

(** *** Stripping a frame *)

Lemma lstrip_plain space l :
  Forall (fun c => space c = false) l -> lstrip space l = l.
Proof. intros H. destruct H as [|c l Hc _]; [reflexivity|]. simpl. now rewrite Hc. Qed.

Lemma strip_line space body :
  Forall (fun c => space c = false) body ->
  space x0d = true -> space x0a = true ->
  strip space (body ++ [x0d; x0a]) = body.
Proof.
  intros Hb Hcr Hlf. unfold strip. destruct body as [|c body].
  { simpl. now rewrite Hcr, Hlf. }
  assert (lstrip space ((c :: body) ++ [x0d; x0a]) = (c :: body) ++ [x0d; x0a]) as ->.
  { apply Forall_cons in Hb as [Hc _]. simpl. now rewrite Hc. }
  rewrite rev_app_distr. change (rev [x0d; x0a]) with [x0a; x0d].
  cbn [app lstrip]. rewrite Hlf, Hcr.
  rewrite lstrip_plain by now apply List.Forall_rev. apply rev_involutive.
Qed.

Lemma plain_forall l :
  forallb plain l = true ->
  Forall (fun c => is_space_str c = false) l /\ ascii_codec l = Ok l.
Proof.
  intros H. split.
  - apply List.Forall_forall. intros c Hc. rewrite forallb_forall in H.
    specialize (H c Hc). unfold plain in H. apply andb_true_iff in H as [H _].
    now apply negb_true_iff in H.
  - unfold ascii_codec.
    assert (forallb (fun b => (Byte.to_N b <? 128)%N) l = true) as ->; [|reflexivity].
    apply forallb_forall. intros c Hc. rewrite forallb_forall in H.
    specialize (H c Hc). unfold plain in H. now apply andb_true_iff in H as [_ H].
Qed.

Lemma ascii_codec_Ok s s' : ascii_codec s = Ok s' -> s' = s.
Proof. unfold ascii_codec. destruct (forallb _ s); [now intros [= <-] | easy]. Qed.

Lemma ascii_codec_app a b :
  ascii_codec a = Ok a -> ascii_codec b = Ok b -> ascii_codec (a ++ b) = Ok (a ++ b).
Proof.
  unfold ascii_codec. rewrite forallb_app.
  destruct (forallb _ a); [|easy]. now destruct (forallb _ b).
Qed.

(** *** Parsing a frame that [frame] built *)

Lemma parse_frame node data expected_type :
  0 <= node <= 255 -> (length data <= 254)%nat ->
  parse_propar_response (frame node data) expected_type = interpret data expected_type.
Proof.
  intros Hnode Hlen. unfold frame.
  destruct (format_02X_spec (1 + Z.of_nat (length data))) as (l1 & l2 & El & Il & Pl1 & Pl2);
    [lia|].
  destruct (format_02X_spec node Hnode) as (n1 & n2 & En & In & Pn1 & Pn2).
  rewrite El, En.
  set (body := ":"%byte :: [l1; l2] ++ [n1; n2] ++ hex_upper data).
  assert (forallb plain body = true) as Hplain.
  { subst body. cbn [forallb app]. rewrite Pl1, Pl2, Pn1, Pn2. apply hex_upper_plain. }
  destruct (plain_forall body Hplain) as [Hns Hascii].
  change (":"%byte :: [l1; l2] ++ [n1; n2] ++ hex_upper data ++ [x0d; x0a])
    with (body ++ [x0d; x0a]).
  unfold parse_propar_response.
  assert (ascii_codec (body ++ [x0d; x0a]) = Ok (body ++ [x0d; x0a])) as Ea.
  { now apply ascii_codec_app. }
  destruct (body ++ [x0d; x0a]) eqn:Eb; [now destruct body|]. rewrite <- Eb in *. clear Eb.
  rewrite Ea. cbn [bind]. rewrite strip_line by (auto; reflexivity).
  subst body. cbn [app]. change (Byte.eqb ":" ":") with true. cbn [negb firstn skipn].
  rewrite Il. cbn [bind]. rewrite take_0, drop_0, In. cbn [bind].
  rewrite fromhex_hex_upper. cbn [bind].
  now rewrite Z.eqb_refl.
Qed.

(** *** Interpreting a data reply *)

Lemma interpret_reply process_byte param_byte encoded expected_type :
  interpret (x02 :: process_byte :: param_byte :: encoded) expected_type =
  match expected_type with
  | TInt => Ok (VInt (int_from_bytes encoded))
  | TFloat => bind (Binary32.unpack encoded) (fun f => Ok (VFloat f))
  | TStr =>
      match encoded with
      | [] => Raise IndexError
      | str_len :: text =>
          bind (ascii_codec (firstn (N.to_nat (Byte.to_N str_len)) text))
            (fun text => Ok (VStr (strip is_space_str text)))
      end
  | _ => Ok VNone
  end.
Proof. destruct expected_type; try reflexivity. now destruct encoded. Qed.

Lemma int_from_bytes2 n :
  0 <= n < 65536 -> int_from_bytes [byte_of (n / 256); byte_of (n mod 256)] = n.
Proof.
  intros Hn. unfold int_from_bytes. cbn [fold_left].
  fold (val (byte_of (n / 256))). fold (val (byte_of (n mod 256))).
  rewrite !val_byte_of by (Z.div_mod_to_equations; lia).
  Z.div_mod_to_equations. lia.
Qed.

Lemma round_trip_frame node process fbnr param_type value type_bits encoded :
  0 <= node <= 255 ->
  PARAM_TYPE_MAP param_type = Ok type_bits ->
  encode_value param_type value = Ok encoded ->
  (length encoded <= 251)%nat ->
  round_trip node process fbnr param_type value =
  interpret (x02 :: byte_of (Z.land process 127)
               :: byte_of (Z.lor type_bits (Z.land fbnr 31)) :: encoded) param_type.
Proof.
  intros Hnode Ht Hv Hlen. unfold round_trip, data_reply. rewrite Ht, Hv. cbn [bind app].
  apply parse_frame; [exact Hnode|]. cbn [length]. lia.
Qed.

Lemma length_byte n :
  (n <= 255)%nat ->
  N.to_nat (Byte.to_N (byte_of (Z.land (Z.of_nat n) 255))) = n.
Proof.
  intros Hn. change 255 with (Z.ones 8). rewrite Z.land_ones by lia.
  rewrite Z.mod_small by (change (2 ^ 8) with 256; lia).
  pose proof (val_byte_of (Z.of_nat n)) as H. unfold val in H. lia.
Qed.

Lemma pack_rounded x y :
  Binary32.of_float x = Ok y -> valid_binary Binary32.prec Binary32.emax y = true ->
  exists encoded,
    Binary32.pack x = Ok encoded /\ length encoded = 4%nat /\
    Binary32.unpack encoded = Ok y.
Proof.
  intros Hx Hv. unfold Binary32.pack. rewrite Hx. cbn [bind].
  eexists. split; [reflexivity|]. split; [reflexivity|].
  destruct (of_bits_bits y Hv) as [E Hb]. unfold Binary32.unpack.
  now rewrite int_from_bytes4, E.
Qed.

(** C6, as the code has it. Decoding the synthetic DataReply frame that
    carries the write encoding of a value recovers: an int16 value of
    0..65535 exactly; an ASCII string of at most 250 characters without
    surrounding whitespace exactly; a float32 value exactly, and for any
    other float the float32 it rounds to. A byte value is not decoded under
    its own type: the parser returns [None]. *)
Theorem codec_round_trip (node_address process fbnr : Z) :
  0 <= node_address <= 255 ->
  (forall n, 0 <= n < 65536 ->
     round_trip node_address process fbnr TInt (VInt n) = Ok (VInt n)) /\
  (forall s, (length s <= 250)%nat -> ascii_codec s = Ok s ->
     strip is_space_str s = s ->
     round_trip node_address process fbnr TStr (VStr s) = Ok (VStr s)) /\
  (forall y, valid_binary Binary32.prec Binary32.emax y = true ->
     round_trip node_address process fbnr TFloat (VFloat y) = Ok (VFloat y)) /\
  (forall x y, Binary32.of_float x = Ok y ->
     valid_binary Binary32.prec Binary32.emax y = true ->
     round_trip node_address process fbnr TFloat (VFloat x) = Ok (VFloat y)) /\
  (forall n, round_trip node_address process fbnr TChar (VInt n) = Ok VNone).
Proof.
  intros Hnode.
  assert (forall x y, Binary32.of_float x = Ok y ->
            valid_binary Binary32.prec Binary32.emax y = true ->
            round_trip node_address process fbnr TFloat (VFloat x) = Ok (VFloat y))
    as Hfloat.
  { intros x y Hx Hv. destruct (pack_rounded x y Hx Hv) as (encoded & Hp & Hl & Hu).
    rewrite (round_trip_frame _ _ _ TFloat (VFloat x) 64 encoded Hnode eq_refl Hp) by lia.
    rewrite interpret_reply, Hu. reflexivity. }
  split; [|split; [|split; [|split]]].
  - intros n Hn.
    assert (encode_value TInt (VInt n) = Ok [byte_of (n / 256); byte_of (n mod 256)]) as He.
    { unfold encode_value, int_to_bytes2.
      assert (((0 <=? n) && (n <? 65536)) = true) as ->; [|reflexivity].
      apply andb_true_iff. split; [apply Z.leb_le | apply Z.ltb_lt]; lia. }
    rewrite (round_trip_frame _ _ _ TInt _ 32 _ Hnode eq_refl He) by (simpl; lia).
    rewrite interpret_reply. now rewrite int_from_bytes2.
  - intros s Hlen Hascii Hstrip.
    assert (encode_value TStr (VStr s)
            = Ok (byte_of (Z.land (Z.of_nat (length s)) 255) :: s)) as He.
    { unfold encode_value. now rewrite Hascii. }
    rewrite (round_trip_frame _ _ _ TStr _ 96 _ Hnode eq_refl He) by (simpl; lia).
    rewrite interpret_reply, length_byte by lia.
    rewrite firstn_all, Hascii. cbn [bind]. now rewrite Hstrip.
  - intros y Hv. apply Hfloat; [|exact Hv]. now apply of_float_valid.
  - exact Hfloat.
  - intros n.
    rewrite (round_trip_frame _ _ _ TChar (VInt n) 0 [byte_of (Z.land n 255)]
               Hnode eq_refl eq_refl) by (simpl; lia).
    now rewrite interpret_reply.
Qed.

(** The float 0.1 of Python, [3602879701896397 * 2^-55], and the float32 it
    rounds to. *)
Definition tenth : spec_float := S754_finite false 3602879701896397 (-55).
Definition tenth32 : spec_float := S754_finite false 13421773 (-27).

Lemma codec_round_trip_witness :
  (0 <= 3 <= 255) /\
  round_trip 3 1 1 TInt (VInt 16000) = Ok (VInt 16000) /\
  round_trip 3 1 17 TStr (VStr ["N"%byte; "2"%byte]) = Ok (VStr ["N"%byte; "2"%byte]) /\
  round_trip 3 1 13 TFloat (VFloat tenth32) = Ok (VFloat tenth32) /\
  round_trip 3 1 13 TFloat (VFloat tenth) = Ok (VFloat tenth32) /\
  round_trip 3 1 0 TChar (VInt 5) = Ok VNone.
Proof.
  split; [lia|].
  destruct (codec_round_trip 3 1 1) as (Hint & _); [lia|].
  destruct (codec_round_trip 3 1 17) as (_ & Hstr & _); [lia|].
  destruct (codec_round_trip 3 1 13) as (_ & _ & Hexact & Hround & _); [lia|].
  destruct (codec_round_trip 3 1 0) as (_ & _ & _ & _ & Hchar); [lia|].
  split; [apply Hint; lia|].
  split; [apply Hstr; [simpl; lia | reflexivity | reflexivity]|].
  split; [apply Hexact; reflexivity|].
  split; [apply Hround; reflexivity|].
  apply Hchar.
Defined.

(** C6 as stated fails for the byte type: the reply that carries the byte 5
    decodes to [None], not to 5. *)
Lemma codec_round_trip_counterexample :
  round_trip 3 1 0 TChar (VInt 5) = Ok VNone /\ Ok VNone <> Ok (VInt 5).
Proof. split; [vm_compute; reflexivity | discriminate]. Qed.

(** The parser strips what it decodes: a string is recovered without its
    surrounding whitespace. *)
Lemma string_round_trip_strips :
  round_trip 3 1 17 TStr (VStr [" "%byte; "N"%byte; "2"%byte])
  = Ok (VStr ["N"%byte; "2"%byte]).
Proof. vm_compute. reflexivity. Qed.

(** A string of 251 characters makes a frame of 256 bytes, whose length no
    longer fits the two digits the parser reads. *)
Lemma long_string_not_recovered :
  round_trip 3 1 17 TStr (VStr (repeat "A"%byte 251)) = Raise ValueError.
Proof. vm_compute. reflexivity. Qed.

(** *** What the parser accepts *)

Lemma not_parsed_None : ~ parsed (Ok VNone).
Proof. intros (v & [= <-] & Hv). now apply Hv. Qed.

Lemma not_parsed_Raise e : ~ parsed (Raise e).
Proof. now intros (v & H & _). Qed.

(** A response that decodes to a value is, once stripped, a colon, a length
    field, a node field and hexadecimal data of the declared length. *)
Lemma parsed_inv response_bytes expected_type :
  parsed (parse_propar_response response_bytes expected_type) ->
  exists body declared node_id data_bytes,
    strip is_space_str response_bytes = ":"%byte :: body /\
    int16 (firstn 2 body) = Ok declared /\
    int16 (firstn 2 (skipn 2 body)) = Ok node_id /\
    fromhex (skipn 4 body) = Ok data_bytes /\
    declared = 1 + Z.of_nat (length data_bytes) /\
    parsed (interpret data_bytes expected_type).
Proof.
  unfold parse_propar_response. intros H.
  destruct response_bytes as [|b0 rest]; [now apply not_parsed_None in H|].
  destruct (ascii_codec (b0 :: rest)) as [decoded|e] eqn:Ea;
    [|now apply not_parsed_Raise in H].
  apply ascii_codec_Ok in Ea as ->. cbn [bind] in H.
  destruct (strip is_space_str (b0 :: rest)) as [|c body];
    [now apply not_parsed_None in H|].
  destruct (Byte.eqb c ":") eqn:Ec; cbn [negb] in H;
    [|now apply not_parsed_None in H].
  apply Byte.byte_dec_bl in Ec as ->.
  destruct (int16 (firstn 2 body)) as [declared|e] eqn:Ed;
    [|now apply not_parsed_Raise in H].
  cbn [bind] in H.
  destruct (int16 (firstn 2 (skipn 2 body))) as [node_id|e] eqn:En;
    [|now apply not_parsed_Raise in H].
  cbn [bind] in H.
  destruct (fromhex (skipn 4 body)) as [data_bytes|e] eqn:Ex;
    [|now apply not_parsed_Raise in H].
  cbn [bind] in H.
  destruct (1 + Z.of_nat (length data_bytes) =? declared) eqn:El; cbn [negb] in H;
    [|now apply not_parsed_None in H].
  apply Z.eqb_eq in El. exists body, declared, node_id, data_bytes.
  split; [reflexivity|]. split; [exact Ed|]. split; [exact En|]. split; [exact Ex|].
  split; [now symmetry | exact H].
Qed.

(** C7, as the code has it. The parser strips surrounding whitespace first.
    It returns no value for a response that then does not start with the
    colon, and none for a response whose length field, as a hexadecimal
    number, differs from 1 plus the number of data bytes. *)
Theorem frame_rejection (response_bytes : list byte) (expected_type : ptype) :
  (head (strip is_space_str response_bytes) <> Some ":"%byte ->
     ~ parsed (parse_propar_response response_bytes expected_type)) /\
  (forall body declared data_bytes,
     strip is_space_str response_bytes = ":"%byte :: body ->
     int16 (firstn 2 body) = Ok declared ->
     fromhex (skipn 4 body) = Ok data_bytes ->
     declared <> 1 + Z.of_nat (length data_bytes) ->
     ~ parsed (parse_propar_response response_bytes expected_type)).
Proof.
  split.
  - intros Hh H. apply parsed_inv in H as (body & ? & ? & ? & E & _).
    rewrite E in Hh. now apply Hh.
  - intros body declared data_bytes E Hd Hx Hne H.
    apply parsed_inv in H as (body' & declared' & ? & data' & E' & Hd' & _ & Hx' & El & _).
    rewrite E in E'. injection E' as <-. rewrite Hd in Hd'. injection Hd' as <-.
    rewrite Hx in Hx'. injection Hx' as <-. now apply Hne.
Qed.

Lemma frame_rejection_witness :
  ~ parsed (parse_propar_response (list_byte_of_string "0603020121") TInt) /\
  ~ parsed (parse_propar_response (list_byte_of_string ":0503000005") TInt).
Proof.
  split.
  - apply (frame_rejection (list_byte_of_string "0603020121") TInt). discriminate.
  - apply (proj2 (frame_rejection (list_byte_of_string ":0503000005") TInt)
             (list_byte_of_string "0503000005") 5 [x00; x00; x05]);
      [reflexivity | reflexivity | reflexivity | discriminate].
Defined.

(** C7 as stated fails on a response that starts with a space: the parser
    strips it and accepts the status frame behind it. *)
Lemma frame_rejection_counterexample :
  head (list_byte_of_string " :03030000") <> Some ":"%byte /\
  parse_propar_response (list_byte_of_string " :03030000") TInt = Ok VTrue /\
  parsed (Ok VTrue).
Proof.
  split; [discriminate|]. split; [vm_compute; reflexivity|].
  exists VTrue. split; [reflexivity | discriminate].
Qed.

(** *** Reads that fail *)

(** A link that times out, one that raises, and a device that reports the
    raw integer [raw] for every read. *)
Definition silent_link (request : list byte) : result (list byte) := Ok [].

Definition broken_link (request : list byte) : result (list byte) := Raise SerialException.

Definition reporting_link (node raw : Z) (request : list byte) : result (list byte) :=
  bind (data_reply node 1 0 TInt (VInt raw)) Ok.

Lemma read_parameter_silent node cap param_name :
  read_parameter (Controller silent_link node cap) param_name = VNone.
Proof.
  unfold read_parameter. destruct (PARAM_DEFINITIONS param_name) as [p|]; [|reflexivity].
  cbn [ser]. destruct (build_propar_message _ _ _ _ _ _ _); reflexivity.
Qed.

Lemma read_parameter_broken node cap param_name :
  read_parameter (Controller broken_link node cap) param_name = VNone.
Proof.
  unfold read_parameter. destruct (PARAM_DEFINITIONS param_name) as [p|]; [|reflexivity].
  cbn [ser]. destruct (build_propar_message _ _ _ _ _ _ _); reflexivity.
Qed.

(** C10. When the read of the parameter returns [None], [get_current_flow]
    and [get_current_setpoint] return 0.0, which is also what they return
    when the device reports the integer 0: a failure and a reading of zero
    look the same to the caller. *)
Theorem failed_read_is_zero (self : controller) :
  (read_parameter self "measure" = VNone -> get_current_flow self = Ok 0%Q) /\
  (read_parameter self "setpoint" = VNone -> get_current_setpoint self = Ok 0%Q) /\
  (read_parameter self "measure" = VInt 0 ->
     exists flow, get_current_flow self = Ok flow /\ (flow == 0)%Q) /\
  (read_parameter self "setpoint" = VInt 0 ->
     exists setpoint, get_current_setpoint self = Ok setpoint /\ (setpoint == 0)%Q).
Proof.
  unfold get_current_flow, get_current_setpoint.
  split; [|split; [|split]]; intros ->; try reflexivity;
    cbn [number bind]; eexists; (split; [reflexivity|]);
    unfold Qdiv; rewrite !Qmult_0_l; reflexivity.
Qed.

Lemma failed_read_is_zero_witness :
  read_parameter (Controller silent_link 3 200) "measure" = VNone /\
  get_current_flow (Controller silent_link 3 200) = Ok 0%Q /\
  read_parameter (Controller broken_link 3 200) "setpoint" = VNone /\
  get_current_setpoint (Controller broken_link 3 200) = Ok 0%Q /\
  read_parameter (Controller (reporting_link 3 0) 3 200) "measure" = VInt 0 /\
  exists flow,
    get_current_flow (Controller (reporting_link 3 0) 3 200) = Ok flow /\ (flow == 0)%Q.
Proof.
  split; [reflexivity|].
  split; [apply (failed_read_is_zero (Controller silent_link 3 200)); reflexivity|].
  split; [reflexivity|].
  split; [apply (failed_read_is_zero (Controller broken_link 3 200)); reflexivity|].
  split; [vm_compute; reflexivity|].
  apply (failed_read_is_zero (Controller (reporting_link 3 0) 3 200)).
  vm_compute. reflexivity.
Defined.

End ProparFacts.

(** ** Facts on the verified flow write *)

Module AlicatFacts.
Import Py Alicat.
Local Open Scope Q_scope.

Section Library.
Variable float_of_bytes : list byte -> option Q.
Variable decode_utf8 : list byte -> option (list byte).
Variable format_2f : Q -> list byte.

Local Abbreviation parse := (parse_raw_response float_of_bytes decode_utf8).
Local Abbreviation check := (check_response float_of_bytes decode_utf8).
Local Abbreviation command := (set_flow_command format_2f).
Local Abbreviation loop := (set_flow_loop float_of_bytes decode_utf8 format_2f).

(** An attempt is accepted or rejected by the line alone: the attempt number
    only shows in the error. *)
Definition accepted (flow_rate : Q) (line : outcome (list byte)) (status : MFCStatus) : Prop :=
  forall attempt max_retries, check flow_rate attempt max_retries line = Return status.

Definition rejected (flow_rate : Q) (line : outcome (list byte)) : Prop :=
  forall attempt max_retries, exists e, check flow_rate attempt max_retries line = Throw e.



Lemma check_cases flow_rate line :
  (exists status, accepted flow_rate line status) \/ rejected flow_rate line.
Proof.
  unfold accepted, rejected, check_response. destruct line as [raw|e].
  - destruct (strip is_space raw) as [|c response] eqn:Es.
    + right. intros. now eexists.
    + destruct (parse (c :: response)) as [status|e].
      * destruct (Qle_bool _ _); [right; intros; now eexists | left; now exists status].
      * right. intros. now eexists.
  - right. intros. now eexists.
Qed.









(** Without an attempt allowed the loop does not run: [set_flow] writes
    nothing and returns [None]. *)
Lemma set_flow_no_attempt address flow_rate max_retries ser :
  (max_retries <= 0)%Z ->
  set_flow float_of_bytes decode_utf8 format_2f address flow_rate max_retries ser
  = (Return None, ser).
Proof.
  intros H. unfold set_flow. now replace (Z.to_nat max_retries) with O by lia.
Qed.

End Library.

(** Two lines of the device, the one echoing the setpoint 5.00 and the other
    3.00, and a device that answers nothing, then 3.00, then 5.00. *)
Definition line_5 : list byte :=
  list_byte_of_string "A +014.70 +025.00 +005.00 +005.00 005.00     N2".





End AlicatFacts.


(** ** Facts on the safety supervisor *)

Lemma Qltb_lt_iff x y : (x < y)%Q <-> Py.Qltb x y = true.
Proof.
  unfold Py.Qltb. rewrite negb_true_iff, <- not_true_iff_false, Qle_bool_iff.
  split; [apply Qlt_not_le | apply Qnot_le_lt].
Qed.

Module PanelFacts.
Import Py Panel.
Local Open Scope Q_scope.

(** A panel with the three Bronkhorst controllers and both temperature
    controllers connected, in normal operation with the ramp running. *)
Definition bench : Panel.t :=
  Gui {[1%Z; 3%Z; 6%Z]} ["1"%string; "2"%string] false false true ∅ ∅.

Lemma safety_state_cases self :
  (safety_state self = Active /\ maintenance_mode self = false /\ safety_triggered self = false) \/
  (safety_state self = Triggered /\ maintenance_mode self = false /\ safety_triggered self = true) \/
  (safety_state self = MaintenanceDisabled /\ maintenance_mode self = true).
Proof.
  unfold safety_state. destruct (maintenance_mode self), (safety_triggered self); auto.
Qed.

Lemma exceeds_iff internal_temp external_temp setpoint :
  Qle_bool 750 internal_temp || Qle_bool 750 external_temp || Qle_bool 750 setpoint = true <->
  750 <= internal_temp \/ 750 <= external_temp \/ 750 <= setpoint.
Proof. rewrite !orb_true_iff, !Qle_bool_iff. tauto. Qed.

(** C1. In [MaintenanceDisabled] or [Triggered] the evaluation changes
    nothing and does nothing. From [Active], a reading or a setpoint of
    750 deg C or more takes the supervisor to [Triggered] and emits the
    shutdown actions; so does [evaluate(760, 400, 500)], and evaluating the
    same readings again does nothing more. *)
Theorem safety_evaluate (self : Panel.t) (internal_temp external_temp setpoint : Q) :
  (safety_state self <> Active ->
     check_safety_conditions self internal_temp external_temp setpoint = (self, [])) /\
  (safety_state self = Active ->
     750 <= internal_temp \/ 750 <= external_temp \/ 750 <= setpoint ->
     exists self',
       check_safety_conditions self internal_temp external_temp setpoint
       = (self', shutdown_actions self
                   (TemperatureExceeded internal_temp external_temp setpoint)) /\
       safety_state self' = Triggered /\
       In (SafetyEmail (TemperatureExceeded internal_temp external_temp setpoint))
          (shutdown_actions self
             (TemperatureExceeded internal_temp external_temp setpoint))) /\
  (safety_state self = Active ->
     exists self',
       check_safety_conditions self 760 400 500
       = (self', shutdown_actions self (TemperatureExceeded 760 400 500)) /\
       safety_state self' = Triggered /\
       shutdown_actions self (TemperatureExceeded 760 400 500) <> [] /\
       check_safety_conditions self' 760 400 500 = (self', [])).
Proof.
  assert (forall i e s, safety_state self = Active ->
            (750 <= i \/ 750 <= e \/ 750 <= s) ->
            check_safety_conditions self i e s
            = (set_safety_triggered true self,
               shutdown_actions self (TemperatureExceeded i e s)) /\
            safety_state (set_safety_triggered true self) = Triggered) as Htrig.
  { intros i e s Hs Hex. destruct (safety_state_cases self) as [(_ & Hm & Ht)|[(H & _)|(H & _)]];
      try congruence.
    unfold check_safety_conditions. rewrite Hm, Ht. cbn [orb].
    apply exceeds_iff in Hex. rewrite Hex. split; [reflexivity|].
    unfold safety_state. cbn. now rewrite Hm. }
  assert (forall why, In (SafetyEmail why) (shutdown_actions self why)) as Hmail.
  { intros why. unfold shutdown_actions. rewrite !in_app_iff. do 4 right.
    right. now left. }
  split; [|split].
  - intros Hs. unfold check_safety_conditions.
    destruct (safety_state_cases self) as [(H & _)|[(_ & Hm & Ht)|(_ & Hm)]];
      [congruence | rewrite Hm, Ht | rewrite Hm]; reflexivity.
  - intros Hs Hex. destruct (Htrig _ _ _ Hs Hex) as [E Hst].
    exists (set_safety_triggered true self). auto.
  - intros Hs. destruct (Htrig 760 400 500 Hs) as [E Hst]; [left; lra|].
    exists (set_safety_triggered true self). repeat split; auto.
    + intros Hnil. specialize (Hmail (TemperatureExceeded 760 400 500)).
      now rewrite Hnil in Hmail.
    + unfold check_safety_conditions. cbn [safety_triggered set_safety_triggered].
      now rewrite orb_true_r.
Qed.

Lemma safety_evaluate_witness :
  safety_state bench = Active /\
  exists self',
    check_safety_conditions bench 760 400 500
    = (self', shutdown_actions bench (TemperatureExceeded 760 400 500)) /\
    safety_state self' = Triggered /\
    shutdown_actions bench (TemperatureExceeded 760 400 500) <> [] /\
    check_safety_conditions self' 760 400 500 = (self', []).
Proof.
  split; [reflexivity|]. apply (safety_evaluate bench 760 400 500). reflexivity.
Defined.

(** *** The shutdown profile *)

(** C2, evaluated on the code: with the three controllers connected, the
    shutdown sends CO2 (node 3) to 50 sccm, not to zero; H2 goes to 0, N2 to
    100 and the temperature setpoint to 20 deg C. *)
Lemma shutdown_profile :
  snd (check_safety_conditions bench 760 400 500)
  = [SetFlowRate 3 50; SetFlowRate 6 0; SetFlowRate 1 100; SetTempSetpoint 20;
     SafetyStatusTriggered;
     SafetyEmail (TemperatureExceeded 760 400 500);
     ShutdownDialog (TemperatureExceeded 760 400 500)].
Proof. vm_compute. reflexivity. Qed.

(** Whenever the CO2 controller is connected the shutdown commands it to
    50 sccm, and never to zero. *)
Lemma shutdown_co2_flow self why :
  (3%Z ∈ mfc_controllers self) ->
  In (SetFlowRate 3 50) (shutdown_actions self why) /\
  ~ In (SetFlowRate 3 0) (shutdown_actions self why).
Proof.
  intros H3. unfold shutdown_actions, set_if_connected.
  destruct (decide (3%Z ∈ mfc_controllers self)); [|easy]. split; [now left|].
  rewrite !in_app_iff. intros [H|[H|[H|[H|H]]]].
  - destruct H as [[= ]|[]].
  - destruct (decide (6%Z ∈ mfc_controllers self)); [destruct H as [[= ]|[]] | easy].
  - destruct (decide (1%Z ∈ mfc_controllers self)); [destruct H as [[= ]|[]] | easy].
  - destruct (has_temp_controller_1 self); [destruct H as [[= ]|[]] | easy].
  - destruct H as [[= ]|[[= ]|[[= ]|[]]]].
Qed.

(** The shutdown leaves the control loop running, but the loop stops itself
    at its next iteration, once it sees the flag. *)
Lemma control_loop_stops_after_trigger self why current_setpoint :
  temp_control_running (fst (trigger_safety_shutdown self why)) = temp_control_running self /\
  temp_control_running
    (fst (temp_control_safety_branch (fst (trigger_safety_shutdown self why))
            current_setpoint)) = false.
Proof. split; reflexivity. Qed.

(** *** The flow monitor, one controller at a time *)

Definition is_notification (node : Z) (a : action) : bool :=
  match a with
  | FlowNotification n _ _ => (n =? node)%Z
  | _ => false
  end.

(** The number of notifications sent for a controller. *)
Definition notifications (node : Z) (sent : list action) : nat :=
  length (filter (is_notification node) sent).

(** The flow is low when the setpoint is positive and the flow is under
    nine tenths of it, normal when it is positive and the flow is not. *)
Definition low (reading : option (Q * Q)) : Prop :=
  exists current_flow setpoint,
    reading = Some (current_flow, setpoint) /\
    0 < setpoint /\ current_flow < (9 # 10) * setpoint.

Definition normal (reading : option (Q * Q)) : Prop :=
  exists current_flow setpoint,
    reading = Some (current_flow, setpoint) /\
    0 < setpoint /\ (9 # 10) * setpoint <= current_flow.

(** What [check_node] does to the entries of its own controller: the alert
    flag, the start time, and the number of notifications. *)
Definition node_step (current_time : Z) (reading : option (Q * Q))
  (alerted : option bool) (started : option Z) : option bool * option Z * nat :=
  match reading with
  | None => (alerted, started, O)
  | Some (current_flow, setpoint) =>
      if Qltb 0 setpoint then
        if Qltb current_flow ((9 # 10) * setpoint) then
          match started with
          | None => (alerted, Some current_time, O)
          | Some t0 =>
              if (sixty_seconds <? current_time - t0)%Z then
                match alerted with
                | Some true => (alerted, started, O)
                | _ => (Some true, started, 1%nat)
                end
              else (alerted, started, O)
          end
        else (None, None, O)
      else (alerted, started, O)
  end.

Fixpoint node_run (samples : list (Z * option (Q * Q)))
  (alerted : option bool) (started : option Z) : option bool * option Z * nat :=
  match samples with
  | [] => (alerted, started, O)
  | (current_time, reading) :: later =>
      let '(alerted, started, k) := node_step current_time reading alerted started in
      let '(alerted, started, k') := node_run later alerted started in
      (alerted, started, (k + k')%nat)
  end.

(** The entries of a controller and its notifications, out of a result. *)
Definition view (node : Z) (r : gmap Z bool * gmap Z Z * list action)
  : option bool * option Z * nat :=
  (r.1.1 !! node, r.1.2 !! node, notifications node r.2).

Lemma notifications_app node a b :
  notifications node (a ++ b) = (notifications node a + notifications node b)%nat.
Proof. unfold notifications. now rewrite filter_app, length_app. Qed.

Lemma check_node_own current_time node reading (alerts : gmap Z bool) (start_times : gmap Z Z) :
  view node (check_node current_time node reading alerts start_times)
  = node_step current_time reading (alerts !! node) (start_times !! node).
Proof.
  unfold view, check_node, node_step. destruct reading as [[current_flow setpoint]|]; [|easy].
  destruct (Qltb 0 setpoint); [|easy].
  destruct (Qltb current_flow _).
  - destruct (start_times !! node) as [t0|] eqn:Es; cbn [fst snd].
    + destruct (sixty_seconds <? current_time - t0)%Z; [|cbn; now rewrite Es].
      destruct (alerts !! node) as [[|]|] eqn:Ea; cbn [fst snd];
        rewrite ?lookup_insert_eq, ?Es, ?Ea; try reflexivity;
        cbn; now rewrite Z.eqb_refl.
    + now rewrite lookup_insert_eq.
  - cbn [fst snd]. now rewrite !lookup_delete_eq.
Qed.

Lemma check_node_other current_time node other reading
  (alerts : gmap Z bool) (start_times : gmap Z Z) :
  node <> other ->
  view node (check_node current_time other reading alerts start_times)
  = (alerts !! node, start_times !! node, O).
Proof.
  intros Hne. assert ((other =? node)%Z = false) as Eb by (apply Z.eqb_neq; congruence).
  unfold view, check_node. destruct reading as [[current_flow setpoint]|]; [|easy].
  destruct (Qltb 0 setpoint); [|easy].
  destruct (Qltb current_flow _).
  - destruct (start_times !! other) as [t0|]; cbn [fst snd].
    + destruct (sixty_seconds <? current_time - t0)%Z; [|easy].
      destruct (alerts !! other) as [[|]|]; cbn [fst snd]; try easy;
        rewrite lookup_insert_ne by congruence; cbn; now rewrite Eb.
    + now rewrite lookup_insert_ne by congruence.
  - cbn [fst snd]. now rewrite !lookup_delete_ne by congruence.
Qed.

Lemma check_nodes_cons current_time node reading rest alerts start_times :
  check_nodes current_time ((node, reading) :: rest) alerts start_times
  = let r := check_node current_time node reading alerts start_times in
    let r' := check_nodes current_time rest r.1.1 r.1.2 in
    (r'.1.1, r'.1.2, r.2 ++ r'.2).
Proof.
  cbn [check_nodes]. destruct (check_node _ _ _ _ _) as [[a s] sent]. cbn [fst snd].
  now destruct (check_nodes _ _ _ _) as [[a' s'] sent'].
Qed.

(** A controller that is not polled keeps its entries. *)
Lemma check_nodes_absent current_time node readings : forall alerts start_times,
  ~ In node (map fst readings) ->
  view node (check_nodes current_time readings alerts start_times)
  = (alerts !! node, start_times !! node, O).
Proof.
  induction readings as [|[other reading] rest IH]; intros alerts start_times Hn; [easy|].
  rewrite check_nodes_cons. cbv zeta.
  assert (node <> other) as Hne by (intros ->; apply Hn; now left).
  pose proof (check_node_other current_time node other reading alerts start_times Hne) as H1.
  specialize (IH (check_node current_time other reading alerts start_times).1.1
                 (check_node current_time other reading alerts start_times).1.2).
  assert (~ In node (map fst rest)) as Hrest by (intros Hin; apply Hn; now right).
  specialize (IH Hrest).
  unfold view in *. cbn [fst snd] in *. rewrite notifications_app.
  injection H1 as Ha Hs Hk. injection IH as Ha' Hs' Hk'.
  now rewrite Ha', Hs', Hk', Hk, Ha, Hs.
Qed.

(** A controller that is polled once in a cycle takes one step. *)
Lemma check_nodes_present current_time node reading readings : forall alerts start_times,
  NoDup (map fst readings) -> In (node, reading) readings ->
  view node (check_nodes current_time readings alerts start_times)
  = node_step current_time reading (alerts !! node) (start_times !! node).
Proof.
  induction readings as [|[other reading'] rest IH]; intros alerts start_times Hnd Hin;
    [easy|].
  rewrite check_nodes_cons. cbv zeta. cbn [map fst] in Hnd.
  apply NoDup_cons in Hnd as [Hfresh Hnd]. rewrite list_elem_of_In in Hfresh.
  destruct Hin as [[= -> ->]|Hin].
  - pose proof (check_node_own current_time node reading alerts start_times) as H1.
    pose proof (check_nodes_absent current_time node rest
                  (check_node current_time node reading alerts start_times).1.1
                  (check_node current_time node reading alerts start_times).1.2 Hfresh) as H2.
    unfold view in *. cbn [fst snd] in *. rewrite notifications_app.
    injection H2 as Ha Hs Hk. rewrite Ha, Hs, Hk, Nat.add_0_r. exact H1.
  - assert (node <> other) as Hne.
    { intros ->. apply Hfresh. apply in_map_iff. now exists (other, reading). }
    pose proof (check_node_other current_time node other reading' alerts start_times Hne)
      as H1.
    specialize (IH (check_node current_time other reading' alerts start_times).1.1
                   (check_node current_time other reading' alerts start_times).1.2 Hnd Hin).
    unfold view in *. cbn [fst snd] in *. rewrite notifications_app.
    injection H1 as Ha Hs Hk. rewrite Hk, Nat.add_0_l. rewrite IH. now rewrite Ha, Hs.
Qed.

(** *** Episodes of low flow *)

(** A poll of the panel as the controller [node] sees it: the same time, and
    its reading once among those of the controllers. *)
Definition polled (node : Z) (poll : Z * list (Z * option (Q * Q)))
  (sample : Z * option (Q * Q)) : Prop :=
  fst poll = fst sample /\ NoDup (map fst (snd poll)) /\ In (node, snd sample) (snd poll).

(** The entries of a controller in the panel, and its notifications. *)
Definition panel_view (node : Z) (r : Panel.t * list action) : option bool * option Z * nat :=
  (flow_alerts r.1 !! node, flow_alert_start_times r.1 !! node, notifications node r.2).

Lemma check_flow_conditions_view self node poll sample :
  maintenance_mode self = false -> polled node poll sample ->
  panel_view node (check_flow_conditions self (fst poll) (snd poll))
  = node_step (fst sample) (snd sample)
      (flow_alerts self !! node) (flow_alert_start_times self !! node) /\
  maintenance_mode (check_flow_conditions self (fst poll) (snd poll)).1 = false.
Proof.
  intros Hm (Et & Hnd & Hin). unfold check_flow_conditions. rewrite Hm.
  pose proof (check_nodes_present (fst poll) node (snd sample) (snd poll)
                (flow_alerts self) (flow_alert_start_times self) Hnd Hin) as H.
  destruct (check_nodes _ _ _ _) as [[alerts start_times] sent].
  unfold panel_view, view in *. cbn [fst snd set_alerts flow_alerts flow_alert_start_times
                                     maintenance_mode] in *.
  rewrite <- Et. auto.
Qed.

Lemma polls_cons self poll later :
  polls self (poll :: later)
  = let r := check_flow_conditions self (fst poll) (snd poll) in
    let r' := polls r.1 later in
    (r'.1, r.2 ++ r'.2).
Proof.
  destruct poll as [current_time readings]. cbn [polls fst snd].
  destruct (check_flow_conditions _ _ _) as [self1 sent]. cbn [fst snd].
  now destruct (polls self1 later) as [self2 sent'].
Qed.

Lemma node_run_cons sample later alerted started :
  node_run (sample :: later) alerted started
  = let r := node_step (fst sample) (snd sample) alerted started in
    let r' := node_run later r.1.1 r.1.2 in
    (r'.1.1, r'.1.2, (r.2 + r'.2)%nat).
Proof.
  destruct sample as [current_time reading]. cbn [node_run fst snd].
  destruct (node_step _ _ _ _) as [[a s] k]. cbn [fst snd].
  now destruct (node_run later a s) as [[a' s'] k'].
Qed.

(** Over a series of polls the panel does to a controller what [node_run]
    does over its samples. *)
Lemma polls_view node series : forall self samples,
  maintenance_mode self = false -> Forall2 (polled node) series samples ->
  panel_view node (polls self series)
  = node_run samples (flow_alerts self !! node) (flow_alert_start_times self !! node) /\
  maintenance_mode (polls self series).1 = false.
Proof.
  induction series as [|poll later IH]; intros self samples Hm HF.
  - apply Forall2_nil_inv_l in HF as ->. now split.
  - apply Forall2_cons_inv_l in HF as (sample & more & Hp & HF & ->).
    destruct (check_flow_conditions_view self node poll sample Hm Hp) as [H1 Hm1].
    destruct (IH _ more Hm1 HF) as [H2 Hm2].
    rewrite polls_cons, node_run_cons. cbv zeta. rewrite <- H1.
    unfold panel_view in *. cbn [fst snd] in *. rewrite <- H2. cbn [fst snd].
    rewrite notifications_app. now split.
Qed.

(** Once an episode has started at [t0], low readings lead to one
    notification, at the first of them later than 60 s after [t0], unless
    the episode was notified already. *)
Lemma node_run_started t0 samples : forall alerted,
  Forall (fun sample => low (snd sample)) samples ->
  node_run samples alerted (Some t0)
  = match alerted with
    | Some true => (Some true, Some t0, O)
    | _ =>
        if existsb (fun sample => (sixty_seconds <? fst sample - t0)%Z) samples
        then (Some true, Some t0, 1%nat)
        else (alerted, Some t0, O)
    end.
Proof.
  induction samples as [|[current_time reading] later IH]; intros alerted Hlow.
  - now destruct alerted as [[|]|].
  - apply Forall_cons in Hlow as [(flow & sp & E & Hsp & Hfl) Hlow].
    cbn [snd] in E. subst reading.
    cbn [node_run node_step existsb fst snd].
    apply Qltb_lt_iff in Hsp. apply Qltb_lt_iff in Hfl. rewrite Hsp, Hfl.
    destruct (sixty_seconds <? current_time - t0)%Z.
    + destruct alerted as [[|]|]; rewrite (IH _ Hlow); reflexivity.
    + rewrite (IH _ Hlow). cbn [orb]. destruct alerted as [[|]|]; try reflexivity;
        now destruct (existsb _ later).
Qed.

(** C9, as the code has it. Outside maintenance mode, an episode of a
    controller -- polls from a cleared alert on, each with a positive
    setpoint and a flow under nine tenths of it -- sends exactly one
    notification if some poll comes more than 60 s after the first, and none
    otherwise; and a poll that then finds the flow at nine tenths of the
    setpoint or more clears the alert, so that the next episode starts
    anew. *)
Theorem flow_starvation (self : Panel.t) (node : Z)
  (series : list (Z * list (Z * option (Q * Q))))
  (t0 : Z) (first : option (Q * Q)) (more : list (Z * option (Q * Q))) :
  maintenance_mode self = false ->
  flow_alerts self !! node = None -> flow_alert_start_times self !! node = None ->
  Forall2 (polled node) series ((t0, first) :: more) ->
  Forall (fun sample => low (snd sample)) ((t0, first) :: more) ->
  notifications node (polls self series).2
  = (if existsb (fun sample => (sixty_seconds <? fst sample - t0)%Z) more
     then 1%nat else O) /\
  (forall poll sample,
      polled node poll sample -> normal (snd sample) ->
      panel_view node (check_flow_conditions (polls self series).1 (fst poll) (snd poll))
      = (None, None, O)).
Proof.
  intros Hm Ha Hs HF Hlow. destruct (polls_view node series self _ Hm HF) as [Hv Hm'].
  split.
  - rewrite Ha, Hs in Hv. apply Forall_cons in Hlow as [(flow & sp & E & Hsp & Hfl) Hlow].
    cbn [snd] in E. subst first. cbn [node_run node_step] in Hv.
    apply Qltb_lt_iff in Hsp. apply Qltb_lt_iff in Hfl. rewrite Hsp, Hfl in Hv.
    rewrite (node_run_started t0 more None Hlow) in Hv. unfold panel_view in Hv.
    destruct (existsb _ more); now injection Hv as _ _ ->.
  - intros poll sample Hp (flow & sp & E & Hsp & Hfl).
    destruct (check_flow_conditions_view _ node poll sample Hm' Hp) as [H _].
    rewrite H, E. cbn [node_step]. apply Qltb_lt_iff in Hsp. rewrite Hsp.
    assert (Qltb flow ((9 # 10) * sp) = false) as ->; [|reflexivity].
    unfold Qltb. apply negb_false_iff. now apply Qle_bool_iff.
Qed.

(** A reading of 10 sccm against a setpoint of 50, and four polls of the
    three controllers over 90 seconds in which the CO2 controller (node 3)
    stays at it. *)
Definition starved : option (Q * Q) := Some (10, 50).

Definition cycle (reading : option (Q * Q)) : list (Z * option (Q * Q)) :=
  [(1%Z, Some (100, 100)); (3%Z, reading); (6%Z, None)].

Definition starving_series : list (Z * list (Z * option (Q * Q))) :=
  [(0%Z, cycle starved); (30000000%Z, cycle starved);
   (61000000%Z, cycle starved); (90000000%Z, cycle starved)].

Lemma starved_low : low starved.
Proof. exists 10, 50. repeat split; reflexivity. Qed.

Lemma cycle_polled current_time reading :
  polled 3 (current_time, cycle reading) (current_time, reading).
Proof.
  split; [reflexivity|]. split; [|right; now left].
  cbn [cycle map fst snd]. apply (bool_decide_unpack _). reflexivity.
Qed.

Lemma flow_starvation_witness :
  maintenance_mode bench = false /\
  notifications 3 (polls bench starving_series).2 = 1%nat /\
  panel_view 3 (check_flow_conditions (polls bench starving_series).1
                  120000000%Z (cycle (Some (50, 50))))
  = (None, None, O).
Proof.
  split; [reflexivity|].
  destruct (flow_starvation bench 3 starving_series 0 starved
              [(30000000%Z, starved); (61000000%Z, starved); (90000000%Z, starved)])
    as [Hone Hclear].
  - reflexivity.
  - reflexivity.
  - reflexivity.
  - repeat (constructor; [apply cycle_polled|]). constructor.
  - repeat (constructor; [apply starved_low|]). constructor.
  - split; [exact Hone|].
    apply (Hclear (120000000%Z, cycle (Some (50, 50))) (120000000%Z, Some (50, 50)));
      [apply cycle_polled|].
    exists 50, 50. repeat split; try reflexivity; discriminate.
Defined.

(** C9 as stated fails in maintenance mode: the monitor returns at once, and
    a flow that stays low for 61 seconds sends no notification. *)
Lemma flow_starvation_counterexample :
  low starved /\
  notifications 3
    (polls (set_maintenance_mode true bench)
       [(0%Z, cycle starved); (61000000%Z, cycle starved)]).2 = O.
Proof. split; [apply starved_low | reflexivity]. Qed.

End PanelFacts.

(** ** Facts on the schedule of a ramp *)

Module ScheduleFacts.
Import Py TempRamp TempRampFacts Runtime.
Local Open Scope Q_scope.

(** *** The expected runtime *)

(** The minutes one leg takes: its hold when positive, then the ramp when
    the rate is positive. *)
Definition leg_minutes (leg : Q * Q * Q * Q) : Q :=
  let '(start_temp, hold_time, ramp_rate, end_temp) := leg in
  (if Qltb 0 hold_time then hold_time else 0)
  + (if Qltb 0 ramp_rate then Qabs (end_temp - start_temp) / ramp_rate else 0).

Definition total_minutes (legs : list (Q * Q * Q * Q)) : Q :=
  fold_right (fun leg rest => leg_minutes leg + rest) 0 legs.

Lemma leg_minutes_nonneg leg : 0 <= leg_minutes leg.
Proof.
  destruct leg as [[[T0 h] rate] T1]. unfold leg_minutes.
  assert (0 <= (if Qltb 0 h then h else 0)) by (qcase; lra).
  assert (0 <= (if Qltb 0 rate then Qabs (T1 - T0) / rate else 0)).
  { qcase; [|lra]. apply Qle_shift_div_l; [easy|]. pose proof (Qabs_nonneg (T1 - T0)). lra. }
  lra.
Qed.

Lemma ramp_loop_spec legs : forall clock times tmps final,
  ramp_loop clock legs = (times, tmps, final) ->
  final == clock + total_minutes legs /\
  Forall (fun t => clock <= t <= final) times /\
  length times = length tmps.
Proof.
  induction legs as [|[[[T0 h] rate] T1] legs IH]; intros clock times tmps final.
  - simpl. intros [= <- <- <-]. split; [lra|]. split; constructor.
  - cbn [ramp_loop total_minutes fold_right].
    destruct (ramp_loop _ legs) as [[ts Ts] fin] eqn:E.
    apply IH in E as (E1 & E2 & E3).
    pose proof (leg_minutes_nonneg (T0, h, rate, T1)) as Hn.
    fold (total_minutes legs).
    assert (0 <= total_minutes legs) as Ht.
    { clear. induction legs as [|l legs IH]; simpl; [lra|].
      pose proof (leg_minutes_nonneg l). lra. }
    unfold leg_minutes in *.
    destruct (Qltb 0 h) eqn:Eh; intros [= <- <- <-].
    + apply Qltb_lt in Eh.
      assert (0 <= (if Qltb 0 rate then Qabs (T1 - T0) / rate else 0)) as Hr.
      { destruct (Qltb 0 rate) eqn:Er; [|lra]. apply Qltb_lt in Er.
        apply Qle_shift_div_l; [easy|]. pose proof (Qabs_nonneg (T1 - T0)). lra. }
      split; [|split].
      * rewrite E1. destruct (Qltb 0 rate); lra.
      * constructor; [destruct (Qltb 0 rate); lra|].
        constructor; [destruct (Qltb 0 rate); lra|].
        eapply List.Forall_impl; [|exact E2]. cbv beta. intros t Hrange.
        destruct (Qltb 0 rate); lra.
      * simpl. now rewrite E3.
    + apply Qltb_ge in Eh.
      assert (0 <= (if Qltb 0 rate then Qabs (T1 - T0) / rate else 0)) as Hr.
      { destruct (Qltb 0 rate) eqn:Er; [|lra]. apply Qltb_lt in Er.
        apply Qle_shift_div_l; [easy|]. pose proof (Qabs_nonneg (T1 - T0)). lra. }
      split; [|split].
      * rewrite E1. destruct (Qltb 0 rate); lra.
      * constructor; [destruct (Qltb 0 rate); lra|].
        eapply List.Forall_impl; [|exact E2]. cbv beta. intros t Hrange.
        destruct (Qltb 0 rate); lra.
      * simpl. now rewrite E3.
Qed.

Lemma fold_max_spec xs : forall best,
  let m := fold_left (fun best y => if Qltb best y then y else best) xs best in
  best <= m /\ Forall (fun x => x <= m) xs /\ (m = best \/ In m xs).
Proof.
  induction xs as [|x xs IH]; intros best; cbn [fold_left].
  - cbv zeta. split; [lra|]. split; [constructor | now left].
  - specialize (IH (if Qltb best x then x else best)). cbv zeta in *.
    destruct IH as (H1 & H2 & H3).
    destruct (Qltb best x) eqn:E; [apply Qltb_lt in E | apply Qltb_ge in E].
    + split; [lra|]. split; [constructor; [lra | easy]|].
      destruct H3 as [-> | H3]; right; [now left | now right].
    + split; [lra|]. split; [constructor; [lra | easy]|].
      destruct H3 as [-> | H3]; [now left | right; now right].
Qed.

(** X2. The expected runtime that is printed when a ramp starts is the sum, over
    the legs, of the hold when it is positive and of the ramp when the rate
    is positive, in hours. *)
Theorem expected_runtime_total (r : TempRamp.t) :
  temps r <> [] ->
  exists hours,
    expected_runtime r = Some hours /\
    hours == total_minutes (legs r) / 60.
Proof.
  intros Hne. unfold expected_runtime, ramp_points.
  destruct (ramp_loop 0 (legs r)) as [[times tmps] final] eqn:E.
  apply ramp_loop_spec in E as (E1 & E2 & _).
  destruct (last (temps r)) eqn:El.
  2:{ destruct (temps r) as [|x l] using rev_ind; [easy|]. now rewrite last_snoc in El. }
  assert (exists m, py_max (times ++ [final]) = Some m /\ m == final) as (m & -> & Hm).
  { unfold py_max. destruct times as [|t0 times]; cbn [app].
    - eexists. split; [reflexivity|]. simpl. lra.
    - eexists. split; [reflexivity|].
      pose proof (fold_max_spec (times ++ [final]) t0) as (H1 & H2 & H3). cbv zeta in *.
      apply List.Forall_app in H2 as [_ H2]. inversion H2 as [|? ? H4 _]; subst.
      inversion E2 as [|? ? H5 H6]; subst.
      destruct H3 as [H3 | H3]; [rewrite H3 in *; lra|].
      apply in_app_or in H3 as [H3 | [<- | []]]; [|lra].
      rewrite List.Forall_forall in H6. apply H6 in H3. lra. }
  eexists. split; [reflexivity|]. cbn [option_map]. unfold HOUR.
  rewrite Hm, E1. field.
Qed.

Lemma expected_runtime_total_witness :
  temps example_ramp <> [] /\
  exists hours,
    expected_runtime example_ramp = Some hours /\
    hours == total_minutes (legs example_ramp) / 60.
Proof.
  split; [discriminate|]. apply (expected_runtime_total example_ramp). discriminate.
Defined.

(** *** [flex_arange] *)

Lemma flex_arange_up_steps lo hi step :
  0 < step -> lo < hi ->
  flex_arange_up lo hi step = Some (np_arange lo hi step ++ [hi]).
Proof.
  intros Hs Hlt. unfold flex_arange_up. rewrite last_np_arange by easy.
  qcase; [|reflexivity].
  pose proof (grid_below lo hi step Hs (count lo hi step - 1)) as H.
  pose proof (count_pos lo hi step Hs Hlt). lapply H; [lra | lia].
Qed.

Lemma np_arange_head lo hi step :
  0 < step -> lo < hi -> exists x, head (np_arange lo hi step) = Some x /\ x == lo.
Proof.
  intros Hs Hlt. rewrite np_arange_grid.
  pose proof (count_pos lo hi step Hs Hlt) as Hc.
  destruct (count lo hi step) as [|n]; [lia|].
  simpl. eexists. split; [reflexivity | apply grid_0].
Qed.

(** X1. The range between two temperatures runs from the first to the second,
    both included, in either direction; between equal temperatures
    [xs[-1]] raises [IndexError]. *)
Theorem flex_arange_endpoints (start stop step : Q) :
  0 < step ->
  (start == stop -> flex_arange start stop step = None) /\
  (~ start == stop ->
   exists xs first final,
     flex_arange start stop step = Some xs /\
     head xs = Some first /\ first == start /\
     last xs = Some final /\ final == stop).
Proof.
  intros Hs. split.
  - intros E. unfold flex_arange. qcase; [lra|]. unfold flex_arange_up, np_arange.
    assert ((stop - start) / step == 0) as ->; [|reflexivity].
    rewrite E. field. lra.
  - intros Hne. unfold flex_arange. qcase.
    + rewrite flex_arange_up_steps by easy. cbn [option_map].
      destruct (np_arange_head stop start step Hs E) as (x & Hx & Ex).
      exists (rev (np_arange stop start step ++ [start])), start, x.
      split; [reflexivity|]. rewrite head_rev, last_snoc, last_rev.
      destruct (np_arange stop start step); [easy|]. simpl in Hx |- *.
      repeat split; auto; lra.
    + assert (start < stop) as Hlt by lra.
      rewrite flex_arange_up_steps by easy.
      destruct (np_arange_head start stop step Hs Hlt) as (x & Hx & Ex).
      exists (np_arange start stop step ++ [stop]), x, stop.
      split; [reflexivity|]. rewrite last_snoc.
      destruct (np_arange start stop step); [easy|]. simpl in Hx |- *.
      repeat split; auto; lra.
Qed.

Lemma flex_arange_endpoints_witness :
  0 < 1 # 10 /\ ~ 450 == 25 /\
  exists xs first final,
    flex_arange 450 25 (1 # 10) = Some xs /\
    head xs = Some first /\ first == 450 /\
    last xs = Some final /\ final == 25.
Proof.
  split; [reflexivity|]. split; [easy|].
  apply (flex_arange_endpoints 450 25 (1 # 10)); easy.
Defined.

(** *** The setpoint stays within the programmed temperatures *)









(** *** Before the first control point *)

(** X4. While the first leg holds, no control point is due yet: the index
    [argmax - 1] is -1 and the scheduler commands the last temperature of
    the program. *)
Theorem first_hold_commands_final (r : TempRamp.t) (hold elapsed : Q) :
  valid r = true ->
  hold_times r !! 0%nat = Some hold -> 0 < hold -> elapsed < hold ->
  exists T final,
    current_setpoint r elapsed = Some T /\
    last (temps r) = Some final /\ T == final.
Proof.
  intros Hv Hh Hpos Hlt.
  destruct (valid_inv r Hv) as (T0 & rest & Ht & Hlh & Hlr & Hrates).
  unfold current_setpoint. rewrite (control_points_from r T0 rest) by easy.
  destruct (hold_times r) as [|h hs] eqn:Ehs; [easy|]. injection Hh as ->.
  destruct rest as [|T1 rest]; [easy|].
  destruct (ramp_rates r) as [|rate rs] eqn:Ers; [easy|].
  destruct (control_from_spec (T1 :: rest) 0 T0 (hold :: hs) (rate :: rs))
    as (cts & cTs & E & Hlen & _ & _ & Hlast); auto.
  destruct Hlast as (T & HT & ET); [easy|].
  rewrite E. cbn [control_from] in E. apply opt_app_Some in E.
  destruct E as (a & b & c & d & Hseg & Hrest & -> & ->).
  inversion Hrates as [|? ? Hrate Hrates']; subst.
  destruct (leg_segment (held_at 0 hold) rate T0 T1 Hrate)
    as (sts & sTs & Hseg' & Hl & _ & Hb & (Tl & HTl & _)).
  rewrite Hseg in Hseg'. injection Hseg' as <- <-.
  destruct a as [|t0 a]; [destruct b; [easy | easy]|].
  inversion Hb as [|? ? Ht0 _]; subst.
  assert (held_at 0 hold == hold) as Eh.
  { unfold held_at. assert (Qltb 0 hold = true) as -> by now apply Qltb_lt. lra. }
  exists T, (final_temp T0 (T1 :: rest)). split; [|split].
  - rewrite (desired_before_start _ _ elapsed t0); [easy | reflexivity | lra].
  - rewrite Ht. apply last_final_temp.
  - exact ET.
Qed.

Lemma first_hold_commands_final_witness :
  valid (TempRamp [25; 450; 100] [10; 0] [5; 5]) = true /\
  0 < 10 /\ 3 < 10 /\
  exists T final,
    current_setpoint (TempRamp [25; 450; 100] [10; 0] [5; 5]) 3 = Some T /\
    last (temps (TempRamp [25; 450; 100] [10; 0] [5; 5])) = Some final /\ T == final.
Proof.
  split; [reflexivity|]. split; [reflexivity|]. split; [reflexivity|].
  apply (first_hold_commands_final (TempRamp [25; 450; 100] [10; 0] [5; 5]) 10 3);
    reflexivity.
Defined.

(** *** Fewer than two temperatures *)

(** X5. With no temperature [ramp_points] raises; with one there is no control
    point and [numpy.argmax] of the empty array raises. *)
Theorem no_leg_no_setpoint (r : TempRamp.t) (elapsed : Q) :
  (length (temps r) <= 1)%nat -> current_setpoint r elapsed = None.
Proof.
  intros Hl. unfold current_setpoint, control_points, ramp_points, legs, zip4.
  destruct (temps r) as [|T0 [|T1 rest]]; [| |simpl in Hl; lia].
  - reflexivity.
  - cbn [tl]. now rewrite combine_nil.
Qed.

Definition lone_temperature : TempRamp.t := TempRamp [300] [60] [5].

Lemma no_leg_no_setpoint_witness :
  (length (temps lone_temperature) <= 1)%nat /\
  current_setpoint lone_temperature 0 = None.
Proof.
  split; [simpl; lia|]. apply (no_leg_no_setpoint lone_temperature 0).
  simpl; lia.
Defined.

(** *** A rising ramp against the ideal line *)





(** *** A falling ramp against the ideal line *)









(** A falling leg of 0.25 deg C at 1 deg C/min: shortly before 0.2 minutes
    the setpoint still is 0.2 deg C, 0.149 above the ideal ramp. *)
Lemma falling_ramp_late_step :
  exists T,
    current_setpoint (TempRamp [1 # 4; 0] [0] [1]) (199 # 1000) = Some T /\
    T == 2 # 10 /\
    (1 # 4) - 1 * (199 # 1000) + MAX_ERROR_DURING_RAMP < T.
Proof. vm_compute. eexists. split; [reflexivity|]. split; reflexivity. Qed.

End ScheduleFacts.

(** ** Facts on the Bronkhorst controller *)

Module MFCFacts.
Import Py Propar Binary32Facts ProparFacts MFC TempRampFacts.
Local Open Scope Z_scope.

(** *** Replies that are no data *)


(** What a read of an integer parameter can give. *)
Definition reading (value : pyvalue) : Prop :=
  value = VNone \/ value = VTrue \/ exists n, 0 <= n /\ value = VInt n.








(** *** The integer of a flow setpoint *)







(** *** Links *)

(** A half-duplex line that hands every request back to the sender. *)
Definition echo (request : list byte) : result (list byte) := Ok request.

(** A device that answers every request with the same line. *)
Definition answering (response : list byte) (request : list byte) : result (list byte) :=
  Ok response.

Lemma read_request node process fbnr param_type str_len message :
  0 <= node <= 255 ->
  build_propar_message node 4 process fbnr param_type VNone str_len = Ok message ->
  parse_propar_response message param_type = Ok VNone.
Proof.
  intros Hn. unfold build_propar_message. cbn [to_byte Z.ltb Z.compare Z.to_N bind Z.eqb].
  change (Byte.of_N 4) with (Some x04). cbn [bind Pos.eqb].
  destruct (PARAM_TYPE_MAP param_type) as [bits|]; [|easy]. cbn [bind].
  destruct (match param_type with TStr => _ | _ => _ end) as [requested|] eqn:E; [|easy].
  cbn [bind]. intros [= <-]. rewrite parse_frame; [reflexivity | easy |].
  assert (length requested <= 1)%nat.
  { destruct param_type; try (injection E as <-; simpl; lia).
    destruct (to_byte str_len); [injection E as <-; simpl; lia | easy]. }
  cbn [app length]. lia.
Qed.

Lemma write_request_int node process fbnr n message :
  0 <= node <= 255 ->
  build_propar_message node 1 process fbnr TInt (VInt n) 0 = Ok message ->
  parse_propar_response message TStatus = Ok VNone.
Proof.
  intros Hn. unfold build_propar_message. cbn [to_byte Z.ltb Z.compare Z.to_N bind Z.eqb].
  change (Byte.of_N 1) with (Some x01). cbn [bind Pos.eqb PARAM_TYPE_MAP encode_value].
  unfold int_to_bytes2. destruct (_ && _); [|easy]. cbn [bind]. intros [= <-].
  rewrite parse_frame; [reflexivity | easy | simpl; lia].
Qed.

(** X11. On a line that echoes the request, no read returns a value and no flow
    setpoint is reported as written: a request is never taken for a reply. *)
Theorem echoed_request_is_no_reply (node : Z) (cap : Q) :
  0 <= node <= 255 ->
  (forall param_name, read_parameter (Controller echo node cap) param_name = VNone) /\
  (forall flow, set_flow_rate (Controller echo node cap) flow = false).
Proof.
  intros Hn. split.
  - intros param_name. unfold read_parameter.
    destruct (PARAM_DEFINITIONS param_name) as [p|]; [|reflexivity]. cbn [node_address ser].
    destruct (build_propar_message _ _ _ _ _ _ _) as [message|] eqn:E; [|reflexivity].
    cbn [bind echo]. now rewrite (read_request _ _ _ _ _ _ Hn E).
  - intros flow. unfold set_flow_rate. destruct (Qle_bool _ _); [reflexivity|].
    unfold write_parameter. cbn [PARAM_DEFINITIONS String.eqb Ascii.eqb Bool.eqb].
    cbn [node_address ser process fbnr type].
    destruct (build_propar_message _ _ _ _ _ _ _) as [message|] eqn:E; [|reflexivity].
    cbn [bind echo]. now rewrite (write_request_int _ _ _ _ _ Hn E).
Qed.

Lemma echoed_request_is_no_reply_witness :
  0 <= 3 <= 255 /\
  read_parameter (Controller echo 3 200) "measure" = VNone /\
  set_flow_rate (Controller echo 3 200) 50 = false.
Proof.
  split; [lia|]. split.
  - apply (echoed_request_is_no_reply 3 200); lia.
  - apply (echoed_request_is_no_reply 3 200); lia.
Defined.

Lemma read_answer self param_name p response :
  PARAM_DEFINITIONS param_name = Some p ->
  (forall request, ser self request = Ok response) ->
  read_parameter self param_name =
  match parse_propar_response response (type p) with
  | Ok value => value
  | Raise _ => VNone
  end.
Proof.
  intros Hp Hser. unfold read_parameter. rewrite Hp.
  destruct (build_propar_message _ _ _ _ _ _ _) as [message|] eqn:E.
  - cbn [bind]. now rewrite Hser.
  - exfalso. revert E. unfold PARAM_DEFINITIONS in Hp.
    repeat match type of Hp with
           | (if ?c then _ else _) = _ => destruct c
           end; try easy; injection Hp as <-; cbn; easy.
Qed.

Lemma write_answer_int self response n :
  0 <= n < 65536 ->
  (forall request, ser self request = Ok response) ->
  write_parameter self "setpoint" (VInt n) =
  match parse_propar_response response TStatus with
  | Ok VTrue => true
  | _ => false
  end.
Proof.
  intros Hn Hser. unfold write_parameter.
  cbn [PARAM_DEFINITIONS String.eqb Ascii.eqb Bool.eqb process fbnr type].
  unfold build_propar_message. cbn [to_byte Z.ltb Z.compare Z.to_N bind Z.eqb].
  change (Byte.of_N 1) with (Some x01). cbn [bind Pos.eqb PARAM_TYPE_MAP encode_value].
  unfold int_to_bytes2.
  assert ((0 <=? n) && (n <? 65536) = true) as -> by lia.
  cbn [bind]. now rewrite Hser.
Qed.

(** *** Whose reply it is *)

(** X12. A read takes the value of any well-framed data reply: the node the
    reply names, and the process and parameter bytes in it, are not compared
    with those of the request. *)
Theorem reply_origin_not_checked (self : controller) (reply_node n : Z)
  (process_byte param_byte : byte) :
  0 <= reply_node <= 255 -> 0 <= n < 65536 ->
  (forall request,
     ser self request =
     Ok (frame reply_node
           [x02; process_byte; param_byte; byte_of (n / 256); byte_of (n mod 256)])) ->
  read_parameter self "measure" = VInt n /\ read_parameter self "setpoint" = VInt n.
Proof.
  intros Hr Hn Hser.
  split.
  - rewrite (read_answer self "measure" (ParamDef 1 0 TInt None) _ eq_refl Hser).
    rewrite parse_frame by (auto; simpl; lia). cbn [type].
    rewrite interpret_reply. now rewrite int_from_bytes2.
  - rewrite (read_answer self "setpoint" (ParamDef 1 1 TInt None) _ eq_refl Hser).
    rewrite parse_frame by (auto; simpl; lia). cbn [type].
    rewrite interpret_reply. now rewrite int_from_bytes2.
Qed.

Lemma reply_origin_not_checked_witness :
  0 <= 6 <= 255 /\ 0 <= 16000 < 65536 /\
  read_parameter
    (Controller (answering (frame 6 [x02; x01; x21; byte_of 62; byte_of 128])) 3 200)
    "measure" = VInt 16000.
Proof.
  split; [lia|]. split; [lia|].
  apply (reply_origin_not_checked
           (Controller (answering (frame 6 [x02; x01; x21; byte_of 62; byte_of 128])) 3 200)
           6 16000 x01 x21); [lia | lia | reflexivity].
Defined.

(** *** Status replies *)

Lemma status_frame reply_node code expected_type :
  0 <= reply_node <= 255 ->
  parse_propar_response (frame reply_node [x00; code]) expected_type =
  Ok (if Byte.eqb code x00 then VTrue else VNone).
Proof.
  intros Hr. rewrite parse_frame by (auto; simpl; lia).
  unfold interpret. change (Byte.eqb x00 x00) with true. cbn.
  now destruct (Byte.eqb code x00).
Qed.

(** X13. A write of the setpoint is reported as done exactly when the device
    answers with a status reply of code 0. *)
Theorem write_acknowledged_by_status_zero (self : controller) (reply_node n : Z)
  (code : byte) :
  0 <= reply_node <= 255 -> 0 <= n < 65536 ->
  (forall request, ser self request = Ok (frame reply_node [x00; code])) ->
  write_parameter self "setpoint" (VInt n) = Byte.eqb code x00.
Proof.
  intros Hr Hn Hser. rewrite (write_answer_int self _ n Hn Hser).
  rewrite status_frame by easy. now destruct (Byte.eqb code x00).
Qed.

Lemma write_acknowledged_by_status_zero_witness :
  0 <= 3 <= 255 /\ 0 <= 8000 < 65536 /\
  write_parameter (Controller (answering (frame 3 [x00; x00])) 3 200) "setpoint" (VInt 8000)
  = true /\
  write_parameter (Controller (answering (frame 3 [x00; x04])) 3 200) "setpoint" (VInt 8000)
  = false.
Proof.
  split; [lia|]. split; [lia|]. split.
  - apply (write_acknowledged_by_status_zero
             (Controller (answering (frame 3 [x00; x00])) 3 200) 3 8000 x00);
      [lia | lia | reflexivity].
  - apply (write_acknowledged_by_status_zero
             (Controller (answering (frame 3 [x00; x04])) 3 200) 3 8000 x04);
      [lia | lia | reflexivity].
Defined.

(** X14. A status reply of code 0 to a read comes back from the parser as
    [True], which the flow conversion takes for the integer 1: the flow read
    is capacity/32000. Any other status code reads as no value, hence 0. *)
Theorem status_reply_read_as_flow (self : controller) (reply_node : Z) (code : byte) :
  0 <= reply_node <= 255 ->
  (forall request, ser self request = Ok (frame reply_node [x00; code])) ->
  exists flow,
    get_current_flow self = Ok flow /\
    (flow == if Byte.eqb code x00 then capacity self / 32000 else 0)%Q.
Proof.
  intros Hr Hser. unfold get_current_flow.
  rewrite (read_answer self "measure" (ParamDef 1 0 TInt None) _ eq_refl Hser).
  rewrite status_frame by easy. destruct (Byte.eqb code x00).
  - cbn [number bind]. eexists. split; [reflexivity|]. field.
  - eexists. split; [reflexivity|]. reflexivity.
Qed.

Lemma status_reply_read_as_flow_witness :
  0 <= 3 <= 255 /\
  exists flow,
    get_current_flow (Controller (answering (frame 3 [x00; x00])) 3 200) = Ok flow /\
    (flow == 200 / 32000)%Q.
Proof.
  split; [lia|].
  apply (status_reply_read_as_flow (Controller (answering (frame 3 [x00; x00])) 3 200)
           3 x00); [lia | reflexivity].
Defined.

(** *** The capacity *)



(** *** The percentages of the status *)



(** *** Reading a setpoint back *)




End MFCFacts.

(** ** Facts on the status line of the Alicat controller *)

Module StatusLineFacts.
Import Py Alicat.

(** *** Words of a line *)

Lemma split_from_app word a sp b :
  is_space sp = true ->
  split_from word (a ++ sp :: b) = split_from word a ++ split b.
Proof.
  intros Hsp. revert word. induction a as [|c a IH]; intros word.
  - cbn [app split_from]. rewrite Hsp. now destruct word.
  - cbn [app split_from]. destruct (is_space c).
    + destruct word; now rewrite IH.
    + apply IH.
Qed.

Lemma split_app a sp b :
  is_space sp = true -> split (a ++ sp :: b) = split a ++ split b.
Proof. apply split_from_app. Qed.

Lemma split_from_word word w :
  forallb (fun c => negb (is_space c)) w = true ->
  split_from word w = match rev word ++ w with [] => [] | _ => [rev word ++ w] end.
Proof.
  revert word. induction w as [|c w IH]; intros word Hw.
  - cbn [split_from]. rewrite app_nil_r. destruct word as [|x word]; [reflexivity|].
    cbn [rev]. now destruct (rev word).
  - cbn [forallb] in Hw. apply andb_prop in Hw as [Hc Hw].
    cbn [split_from]. apply negb_true_iff in Hc. rewrite Hc, IH by easy.
    cbn [rev]. now rewrite <- app_assoc.
Qed.

Lemma split_word w :
  w <> [] -> forallb (fun c => negb (is_space c)) w = true -> split w = [w].
Proof.
  intros Hne Hw. unfold split. rewrite split_from_word by easy. now destruct w.
Qed.

Lemma split_lstrip s : split (lstrip is_space s) = split s.
Proof.
  induction s as [|c s IH]; [reflexivity|]. cbn [lstrip].
  destruct (is_space c) eqn:E; [|reflexivity].
  rewrite IH. unfold split. cbn [split_from]. now rewrite E.
Qed.

Lemma split_rstrip s : split (rev (lstrip is_space (rev s))) = split s.
Proof.
  induction s as [|c s IH] using rev_ind; [reflexivity|].
  rewrite rev_app_distr. cbn [rev app lstrip]. destruct (is_space c) eqn:E.
  - rewrite IH, split_app by easy. now rewrite app_nil_r.
  - cbn [rev]. now rewrite rev_involutive.
Qed.

Lemma split_strip s : split (strip is_space s) = split s.
Proof. unfold strip. now rewrite split_rstrip, split_lstrip. Qed.

Section Library.
Variable float_of_bytes : list byte -> option Q.
Variable decode_utf8 : list byte -> option (list byte).

Local Abbreviation parse := (parse_raw_response float_of_bytes decode_utf8).

(** The columns that [parse_raw_response] counts and converts. *)
Definition columns (response : list byte) : list (list byte) :=
  filter (fun elem => negb (contains MOV elem)) (split response).

Lemma parse_columns a b : columns a = columns b -> parse a = parse b.
Proof.
  unfold columns, parse_raw_response. rewrite !split_strip. now intros ->.
Qed.

(** X17. A word that holds [MOV], such as the flag a moving valve adds to the
    status line, is left out wherever it stands: the line parses as the
    line without the word. Whitespace around the line, and between the
    words, does not matter either. *)
Theorem moving_flag_ignored (before word after : list byte) (sp sp' : byte) :
  is_space sp = true -> is_space sp' = true ->
  forallb (fun c => negb (is_space c)) word = true ->
  contains MOV word = true ->
  parse (before ++ sp :: word ++ sp' :: after) = parse (before ++ sp :: after) /\
  parse (before ++ sp :: sp' :: after) = parse (before ++ sp :: after) /\
  parse (sp :: before ++ [sp']) = parse before.
Proof.
  intros Hsp Hsp' Hw Hmov. split; [|split]; apply parse_columns; unfold columns.
  - rewrite !split_app by easy.
    assert (word <> []) as Hne by (intros ->; vm_compute in Hmov; discriminate).
    rewrite (split_word word) by easy.
    rewrite !filter_app. rewrite filter_cons_False by (rewrite Hmov; intros []).
    now rewrite filter_nil.
  - change (sp :: sp' :: after) with (sp :: [] ++ sp' :: after).
    rewrite !split_app by easy. reflexivity.
  - change (sp :: before ++ [sp']) with ([] ++ sp :: before ++ sp' :: []).
    rewrite !split_app by easy. cbn [app]. unfold split at 1 3. cbn [split_from app].
    now rewrite app_nil_r.
Qed.

(** X18. A line is accepted only with seven words without [MOV]: one more word,
    such as another status flag of the device, and the line is refused as
    malformed, with the eight columns counted. *)
Theorem extra_word_refused (line word : list byte) (sp : byte) (status : MFCStatus) :
  is_space sp = true ->
  word <> [] -> forallb (fun c => negb (is_space c)) word = true ->
  contains MOV word = false ->
  parse line = Return status ->
  length (columns line) = 7%nat /\
  parse (line ++ sp :: word) = Throw (InvalidFormat 8).
Proof.
  intros Hsp Hne Hw Hmov Hparse.
  assert (length (columns line) = 7%nat) as Hlen.
  { revert Hparse. unfold parse_raw_response. rewrite split_strip. fold (columns line).
    destruct (columns line) as [|c0 [|c1 [|c2 [|c3 [|c4 [|c5 [|c6 [|c7 rest]]]]]]]];
      try discriminate. reflexivity. }
  split; [exact Hlen|].
  unfold parse_raw_response. rewrite split_strip, split_app by easy.
  rewrite (split_word word) by easy. rewrite filter_app.
  rewrite filter_cons_True by (rewrite Hmov; exact I). rewrite filter_nil.
  fold (columns line).
  destruct (columns line) as [|c0 [|c1 [|c2 [|c3 [|c4 [|c5 [|c6 [|c7 rest]]]]]]]];
    try discriminate. reflexivity.
Qed.

End Library.

(** The line of the examples with the flag of a moving valve after the gas,
    and with the flag of a closed hold. *)
Lemma moving_flag_ignored_witness :
  parse_raw_response decimal ascii_text
    (list_byte_of_string "A +014.70 +025.00 +005.00 +005.00 005.00 MOV N2")
  = parse_raw_response decimal ascii_text
      (list_byte_of_string "A +014.70 +025.00 +005.00 +005.00 005.00 N2").
Proof.
  apply (moving_flag_ignored decimal ascii_text
           (list_byte_of_string "A +014.70 +025.00 +005.00 +005.00 005.00")
           (list_byte_of_string "MOV") (list_byte_of_string "N2") " "%byte " "%byte);
    reflexivity.
Defined.

Lemma extra_word_refused_witness :
  exists status,
    parse_raw_response decimal ascii_text AlicatFacts.line_5 = Return status /\
    parse_raw_response decimal ascii_text
      (AlicatFacts.line_5 ++ " "%byte :: list_byte_of_string "HLD")
    = Throw (InvalidFormat 8).
Proof.
  destruct (parse_raw_response decimal ascii_text AlicatFacts.line_5) as [status|] eqn:E;
    [|vm_compute in E; discriminate].
  exists status. split; [reflexivity|].
  apply (extra_word_refused decimal ascii_text AlicatFacts.line_5
           (list_byte_of_string "HLD") " "%byte status);
    [reflexivity | discriminate | reflexivity | reflexivity | exact E].
Defined.

End StatusLineFacts.

(** ** Facts on the monitoring loops and the emergency stop *)

Module SupervisorFacts.
Import Py Panel PanelFacts Supervisor.
Local Open Scope Q_scope.

Definition hot (reading : Q * Q * Q) : bool :=
  let '(internal_temp, external_temp, setpoint) := reading in
  Qle_bool 750 internal_temp || Qle_bool 750 external_temp || Qle_bool 750 setpoint.

Lemma check_idle self internal_temp external_temp setpoint :
  safety_state self <> Active ->
  check_safety_conditions self internal_temp external_temp setpoint = (self, []).
Proof.
  intros Hs. unfold check_safety_conditions.
  destruct (safety_state_cases self) as [(H & _)|[(_ & Hm & Ht)|(_ & Hm)]];
    [congruence | rewrite Hm, Ht | rewrite Hm]; reflexivity.
Qed.

Lemma check_hot self internal_temp external_temp setpoint :
  safety_state self = Active ->
  hot (internal_temp, external_temp, setpoint) = true ->
  check_safety_conditions self internal_temp external_temp setpoint
  = (set_safety_triggered true self,
     shutdown_actions self (TemperatureExceeded internal_temp external_temp setpoint)) /\
  safety_state (set_safety_triggered true self) = Triggered.
Proof.
  intros Hs Hhot. destruct (safety_state_cases self) as [(_ & Hm & Ht)|[(H & _)|(H & _)]];
    try congruence.
  unfold check_safety_conditions. rewrite Hm, Ht. cbn [orb]. unfold hot in Hhot.
  rewrite Hhot. split; [reflexivity|]. unfold safety_state.
  cbn [maintenance_mode safety_triggered set_safety_triggered]. now rewrite Hm.
Qed.

Lemma evaluations_idle self readings :
  safety_state self <> Active -> evaluations self readings = (self, []).
Proof.
  intros Hs. induction readings as [|[[i e] s] readings IH]; [reflexivity|].
  cbn [evaluations]. rewrite (check_idle self i e s Hs), IH. reflexivity.
Qed.

(** *** One shutdown for a series of readings *)

(** X19. Over any series of readings the supervisor shuts down at most once: from
    [Active], for the first reading with a value of 750 deg C or more, and
    the readings after it do nothing; with no such reading, or in another
    state, nothing happens at all. *)
Theorem one_shutdown_per_series (self : Panel.t) (readings : list (Q * Q * Q)) :
  (safety_state self = Active ->
   forall cool internal_temp external_temp setpoint later,
     readings = cool ++ (internal_temp, external_temp, setpoint) :: later ->
     forallb (fun r => negb (hot r)) cool = true ->
     hot (internal_temp, external_temp, setpoint) = true ->
     exists self',
       evaluations self readings
       = (self', shutdown_actions self
                   (TemperatureExceeded internal_temp external_temp setpoint)) /\
       safety_state self' = Triggered) /\
  (safety_state self <> Active \/ forallb (fun r => negb (hot r)) readings = true ->
   evaluations self readings = (self, [])).
Proof.
  split.
  - intros Hs cool i e s later -> Hcool Hhot.
    induction cool as [|[[i' e'] s'] cool IH].
    + cbn [app evaluations]. destruct (check_hot self i e s Hs Hhot) as (-> & Hst).
      rewrite evaluations_idle by (rewrite Hst; discriminate).
      exists (set_safety_triggered true self). now rewrite app_nil_r.
    + cbn [forallb] in Hcool. apply andb_prop in Hcool as [Hc Hcool].
      destruct (IH Hcool) as (self' & E & Hst). exists self'. split; [|exact Hst].
      cbn [app evaluations]. unfold check_safety_conditions at 1.
      destruct (safety_state_cases self) as [(_ & Hm & Ht)|[(H & _)|(H & _)]];
        try congruence.
      rewrite Hm, Ht. cbn [orb]. unfold hot in Hc. apply negb_true_iff in Hc. rewrite Hc.
      now rewrite E.
  - intros [Hs | Hcool]; [now apply evaluations_idle|].
    destruct (safety_state_cases self) as [(_ & Hm & Ht)|[(H & _)|(H & _)]];
      [|apply evaluations_idle; congruence | apply evaluations_idle; congruence].
    induction readings as [|[[i e] s] readings IH]; [reflexivity|].
    cbn [forallb] in Hcool. apply andb_prop in Hcool as [Hc Hcool].
    cbn [evaluations]. unfold check_safety_conditions.
    rewrite Hm, Ht. cbn [orb]. unfold hot in Hc. apply negb_true_iff in Hc. rewrite Hc.
    now rewrite (IH Hcool).
Qed.

Lemma one_shutdown_per_series_witness :
  safety_state bench = Active /\
  exists self',
    evaluations bench [(400, 380, 400); (760, 400, 500); (780, 400, 500)]
    = (self', shutdown_actions bench (TemperatureExceeded 760 400 500)) /\
    safety_state self' = Triggered.
Proof.
  split; [reflexivity|].
  destruct (one_shutdown_per_series bench [(400, 380, 400); (760, 400, 500); (780, 400, 500)])
    as (H & _).
  apply (H eq_refl [(400, 380, 400)] 760 400 500 [(780, 400, 500)]); reflexivity.
Defined.

(** *** Arming the supervisor again *)

(** X20. After a shutdown the supervisor stays [Triggered]; leaving maintenance
    mode, and starting a temperature control outside maintenance mode, make
    it [Active] again whatever happened before, so that the next hot
    reading shuts down again. Entering maintenance mode keeps the trigger
    flag and disables the supervisor. *)
Theorem supervisor_armed_again (self : Panel.t) (internal_temp external_temp setpoint : Q) :
  750 <= internal_temp \/ 750 <= external_temp \/ 750 <= setpoint ->
  let why := TemperatureExceeded internal_temp external_temp setpoint in
  safety_state (toggle_maintenance_mode self false) = Active /\
  snd (check_safety_conditions (toggle_maintenance_mode self false)
         internal_temp external_temp setpoint)
  = shutdown_actions self why /\
  (maintenance_mode self = false ->
   safety_state (reset_before_start self) = Active /\
   snd (check_safety_conditions (reset_before_start self)
          internal_temp external_temp setpoint)
   = shutdown_actions self why) /\
  safety_state (toggle_maintenance_mode self true) = MaintenanceDisabled /\
  safety_triggered (toggle_maintenance_mode self true) = safety_triggered self /\
  safety_state (reset_before_start (toggle_maintenance_mode self true)) = MaintenanceDisabled.
Proof.
  intros Hhot why. apply exceeds_iff in Hhot.
  split; [reflexivity|]. split.
  { unfold check_safety_conditions, toggle_maintenance_mode.
    cbn [maintenance_mode safety_triggered set_safety_triggered set_maintenance_mode orb].
    rewrite Hhot. reflexivity. }
  split.
  { intros Hm. unfold reset_before_start, safety_state, check_safety_conditions.
    destruct (safety_triggered self) eqn:Ht;
      cbn [maintenance_mode safety_triggered set_safety_triggered];
      rewrite Hm, ?Ht; cbn [orb]; rewrite Hhot; split; reflexivity. }
  split; [reflexivity|]. split; [reflexivity|].
  unfold reset_before_start, toggle_maintenance_mode.
  cbn [safety_triggered set_maintenance_mode].
  now destruct (safety_triggered self).
Qed.

Lemma supervisor_armed_again_witness :
  (750 <= 760 \/ 750 <= 400 \/ 750 <= 500) /\
  safety_state (toggle_maintenance_mode (set_safety_triggered true bench) false) = Active /\
  snd (check_safety_conditions (toggle_maintenance_mode (set_safety_triggered true bench) false)
         760 400 500)
  = shutdown_actions (set_safety_triggered true bench) (TemperatureExceeded 760 400 500).
Proof.
  split; [left; discriminate|].
  destruct (supervisor_armed_again (set_safety_triggered true bench) 760 400 500)
    as (H1 & H2 & _); [left; discriminate|].
  split; [exact H1 | exact H2].
Defined.

(** *** The emergency stop *)


End SupervisorFacts.

(** ** Facts on the temperature readings *)

Module ThermometryFacts.
Import Py Thermometry.
Local Open Scope Z_scope.

(** The cached readings are coherent when they are the empty ones of the
    start or hold three values and their time. *)
Definition coherent (last : cached) : Prop :=
  last = no_readings \/
  exists i e s t, last = Cached (Some i) (Some e) (Some s) (Some t).

Lemma get_temp_readings_step temp_controllers last now r1 r2 r3 values last' :
  get_temp_readings_threadsafe temp_controllers last now r1 r2 r3 = (values, last') ->
  coherent last ->
  coherent last' /\
  (values = (None, None, None) /\ last' = last \/
   (exists i e s,
      values = (Some i, Some e, Some s) /\ r1 = Ok i /\ r2 = Ok e /\ r3 = Ok s /\
      last' = Cached (Some i) (Some e) (Some s) (Some now)) \/
   (exists i e s t,
      values = (Some i, Some e, Some s) /\ last' = last /\
      last = Cached (Some i) (Some e) (Some s) (Some t) /\ now - t < ten_seconds)).
Proof.
  unfold get_temp_readings_threadsafe. intros H Hw.
  destruct (_ || _).
  { injection H as <- <-. split; [easy|]. now left. }
  destruct r1 as [i|x1]; cbn [bind] in H.
  2:{ destruct Hw as [-> | (i0 & e0 & s0 & t & ->)]; cbn [last_update] in H.
      - injection H as <- <-. split; [now left|]. now left.
      - destruct (now - t <? ten_seconds) eqn:E; injection H as <- <-.
        + split; [right; eauto|]. right; right. exists i0, e0, s0, t. repeat split. lia.
        + split; [right; eauto|]. now left. }
  destruct r2 as [e|x2]; cbn [bind] in H.
  2:{ destruct Hw as [-> | (i0 & e0 & s0 & t & ->)]; cbn [last_update] in H.
      - injection H as <- <-. split; [now left|]. now left.
      - destruct (now - t <? ten_seconds) eqn:E; injection H as <- <-.
        + split; [right; eauto|]. right; right. exists i0, e0, s0, t. repeat split. lia.
        + split; [right; eauto|]. now left. }
  destruct r3 as [s|x3]; cbn [bind] in H.
  2:{ destruct Hw as [-> | (i0 & e0 & s0 & t & ->)]; cbn [last_update] in H.
      - injection H as <- <-. split; [now left|]. now left.
      - destruct (now - t <? ten_seconds) eqn:E; injection H as <- <-.
        + split; [right; eauto|]. right; right. exists i0, e0, s0, t. repeat split. lia.
        + split; [right; eauto|]. now left. }
  injection H as <- <-. split; [right; eauto|]. right; left. exists i, e, s. repeat split.
Qed.

(** Where the values of a call come from: nowhere, or a call, this one or
    an earlier one, whose three reads gave them less than ten seconds
    before. *)
Definition sourced (calls : list (Z * result Q * result Q * result Q)) (k : nat)
  (now : Z) (values : readings) : Prop :=
  values = (None, None, None) \/
  exists i e s j t,
    values = (Some i, Some e, Some s) /\ (j <= k)%nat /\
    calls !! j = Some (t, Ok i, Ok e, Ok s) /\ now - t < ten_seconds.

Lemma polls_sourced temp_controllers calls : forall last results final,
  polls temp_controllers last calls = (results, final) ->
  coherent last ->
  length results = length calls /\
  forall k now r1 r2 r3 values,
    calls !! k = Some (now, r1, r2, r3) -> results !! k = Some values ->
    sourced calls k now values \/
    exists i e s t,
      values = (Some i, Some e, Some s) /\
      last = Cached (Some i) (Some e) (Some s) (Some t) /\ now - t < ten_seconds.
Proof.
  induction calls as [|[[[now0 r1] r2] r3] calls IH]; intros last results final H Hw.
  { injection H as <- <-. split; [reflexivity|]. intros k ? ? ? ? ? Hk. now destruct k. }
  cbn [polls] in H.
  destruct (get_temp_readings_threadsafe _ _ _ _ _ _) as [values0 last0] eqn:E0.
  destruct (polls _ last0 calls) as [rest final0] eqn:E1. injection H as <- <-.
  destruct (get_temp_readings_step _ _ _ _ _ _ _ _ E0 Hw) as (Hw0 & Hstep).
  destruct (IH _ _ _ E1 Hw0) as (Hlen & Hrest).
  split; [simpl; now rewrite Hlen|].
  intros [|k] now r1' r2' r3' values Hk Hv.
  - cbn in Hk, Hv. injection Hk as <- <- <- <-. injection Hv as <-.
    destruct Hstep as [[-> _] | [(i & e & s & -> & -> & -> & -> & _) | (i & e & s & t & -> & _ & -> & Ht)]].
    + left. now left.
    + left. right. exists i, e, s, 0%nat, now0. repeat split; [lia | unfold ten_seconds; lia].
    + right. exists i, e, s, t. easy.
  - cbn in Hk, Hv. destruct (Hrest k now r1' r2' r3' values Hk Hv) as [Hs | Hc].
    + left. destruct Hs as [-> | (i & e & s & j & t & -> & Hj & Hcj & Ht)]; [now left|].
      right. exists i, e, s, (S j), t. repeat split; [lia | exact Hcj | exact Ht].
    + destruct Hc as (i & e & s & t & -> & El & Ht).
      destruct Hstep as [[_ ->] | [(i' & e' & s' & _ & -> & -> & -> & ->) | (i' & e' & s' & t' & _ & -> & _ & _)]].
      * right. exists i, e, s, t. easy.
      * injection El as <- <- <- <-. left. right. exists i', e', s', 0%nat, now0.
        repeat split; [lia | exact Ht].
      * right. exists i, e, s, t. easy.
Qed.

(** X22. Every call returns three values or three [None], and values are never
    older than ten seconds: they were read by this call, or by an earlier
    one that began less than ten seconds before. *)
Theorem readings_fresh (temp_controllers : list string)
  (calls : list (Z * result Q * result Q * result Q)) :
  length (fst (polls temp_controllers no_readings calls)) = length calls /\
  forall k now r1 r2 r3 values,
    calls !! k = Some (now, r1, r2, r3) ->
    fst (polls temp_controllers no_readings calls) !! k = Some values ->
    values = (None, None, None) \/
    exists i e s j t,
      values = (Some i, Some e, Some s) /\ (j <= k)%nat /\
      calls !! j = Some (t, Ok i, Ok e, Ok s) /\ now - t < ten_seconds.
Proof.
  destruct (polls temp_controllers no_readings calls) as [results final] eqn:E.
  destruct (polls_sourced _ _ _ _ _ E) as (Hlen & H); [now left|].
  split; [exact Hlen|]. intros k now r1 r2 r3 values Hk Hv.
  destruct (H k now r1 r2 r3 values Hk Hv) as [Hs | (i & e & s & t & _ & Hc & _)];
    [exact Hs | discriminate Hc].
Qed.

(** A read that succeeds, then the controllers fail: five seconds later the
    cached values are returned, twelve seconds later nothing. *)
Definition failing_reads : list (Z * result Q * result Q * result Q) :=
  [(0, Ok 400%Q, Ok 380%Q, Ok 400%Q);
   (5000000, Raise ValueError, Ok 380%Q, Ok 400%Q);
   (12000000, Ok 400%Q, Raise SerialException, Ok 400%Q)].

Lemma readings_fresh_witness :
  fst (polls ["1"; "2"]%string no_readings failing_reads)
  = [(Some 400%Q, Some 380%Q, Some 400%Q); (Some 400%Q, Some 380%Q, Some 400%Q);
     (None, None, None)] /\
  ((Some 400%Q, Some 380%Q, Some 400%Q) = (None, None, None) \/
   exists i e s j t,
     (Some 400%Q, Some 380%Q, Some 400%Q) = (Some i, Some e, Some s) /\ (j <= 1)%nat /\
     failing_reads !! j = Some (t, Ok i, Ok e, Ok s) /\ 5000000 - t < ten_seconds).
Proof.
  split; [reflexivity|].
  destruct (readings_fresh ["1"; "2"]%string failing_reads) as [_ H].
  apply (H 1%nat 5000000 (Raise ValueError) (Ok 380%Q) (Ok 400%Q)); reflexivity.
Defined.

End ThermometryFacts.

(** ** Facts on the samples of the temperature plot *)

Module PlotDataFacts.
Import Py PlotData.
Local Open Scope Z_scope.

(** The four lists hold one value per sample. *)
Definition aligned (data : t) : Prop :=
  length (setpoint data) = length (time data) /\
  length (internal_temp data) = length (time data) /\
  length (external_temp data) = length (time data).

(** The samples of the data, each with its time. *)
Definition samples (data : t) : list (Z * Q * Q * Q) :=
  zip4 (time data) (setpoint data) (internal_temp data) (external_temp data).

Lemma remove_old_spec cutoff : forall ts ss ns es,
  length ss = length ts -> length ns = length ts -> length es = length ts ->
  adjacent Z.le ts ->
  exists kept,
    remove_old cutoff ts ss ns es = Some kept /\ aligned kept /\
    Forall (fun t => cutoff <= t) (time kept) /\
    exists old,
      zip4 ts ss ns es = old ++ samples kept /\
      Forall (fun sample => fst (fst (fst sample)) < cutoff) old.
Proof.
  induction ts as [|t ts IH]; intros ss ns es Hs Hi He Hadj.
  - destruct ss, ns, es; try discriminate. eexists. split; [reflexivity|].
    split; [easy|]. split; [constructor|]. exists []. split; [reflexivity | constructor].
  - destruct ss as [|s ss], ns as [|i ns], es as [|e es]; try discriminate.
    cbn [remove_old]. destruct (t <? cutoff) eqn:E.
    + apply adjacent_cons in Hadj as [_ Hadj].
      destruct (IH ss ns es) as (kept & Ek & Ha & Hf & old & Eo & Ho); auto.
      exists kept. split; [exact Ek|]. split; [exact Ha|]. split; [exact Hf|].
      exists ((t, s, i, e) :: old). split.
      * cbn. unfold zip4 in Eo. now rewrite Eo.
      * constructor; [cbn; lia | exact Ho].
    + eexists. split; [reflexivity|]. split; [split; [|split]; cbn in *; lia|]. split.
      * cbn [time]. apply List.Forall_forall. intros x Hx.
        assert (t <= x); [|lia]. clear - Hadj Hx. revert t Hadj Hx.
        induction ts as [|t' ts IH]; intros t Hadj [-> | Hx]; try lia; try easy.
        apply adjacent_cons in Hadj as [H1 H2]. specialize (H1 t' eq_refl).
        specialize (IH t' H2 Hx). lia.
      * exists []. split; [reflexivity | constructor].
Qed.

Lemma combine_snoc {A B} (a : list A) (b : list B) x y :
  length a = length b -> combine (a ++ [x]) (b ++ [y]) = combine a b ++ [(x, y)].
Proof.
  revert b. induction a as [|a0 a IH]; intros [|b0 b] H; try discriminate; [reflexivity|].
  cbn. f_equal. apply IH. now injection H.
Qed.

Lemma adjacent_snoc (ts : list Z) now :
  adjacent Z.le ts -> (forall t, last ts = Some t -> t <= now) ->
  adjacent Z.le (ts ++ [now]).
Proof.
  intros Hadj Hlast. apply adjacent_app. split; [exact Hadj|]. split; [simpl; tauto|].
  intros a b Ha [= <-]. now apply Hlast.
Qed.

(** X23. In the control loop the four lists stay aligned and no [pop] fails; with
    a clock that does not go back, the samples kept are exactly those of
    the last hour, the new one among them, each with its own values. *)
Theorem control_loop_keeps_last_hour (data : t) (current_time : Z)
  (set_temp internal external : Q) :
  aligned data -> adjacent Z.le (time data) ->
  (forall latest, last (time data) = Some latest -> latest <= current_time) ->
  exists kept,
    control_loop_sample data current_time set_temp internal external = Some kept /\
    aligned kept /\ adjacent Z.le (time kept) /\
    Forall (fun t => current_time - one_hour <= t <= current_time) (time kept) /\
    last (samples kept) = Some (current_time, set_temp, internal, external) /\
    exists old,
      samples data ++ [(current_time, set_temp, internal, external)] = old ++ samples kept /\
      Forall (fun sample => fst (fst (fst sample)) < current_time - one_hour) old.
Proof.
  intros (Hs & Hi & He) Hadj Hlast. unfold control_loop_sample. cbv zeta. cbn [append time setpoint internal_temp external_temp].
  pose proof (adjacent_snoc _ _ Hadj Hlast) as Hadj'.
  destruct (remove_old_spec (current_time - one_hour) (time data ++ [current_time])
              (setpoint data ++ [set_temp]) (internal_temp data ++ [internal])
              (external_temp data ++ [external]))
    as (kept & Ek & Ha & Hf & old & Eo & Ho);
    rewrite ?length_app; cbn [length]; try lia; [exact Hadj'|].
  assert (zip4 (time data ++ [current_time]) (setpoint data ++ [set_temp])
            (internal_temp data ++ [internal]) (external_temp data ++ [external])
          = samples data ++ [(current_time, set_temp, internal, external)]) as Ez.
  { unfold samples, zip4.
    rewrite !combine_snoc; rewrite ?length_combine; try lia. reflexivity. }
  rewrite Ez in Eo.
  assert (time kept = map (fun sample => fst (fst (fst sample))) (samples kept)) as Et.
  { destruct Ha as (H1 & H2 & H3). unfold samples, zip4.
    destruct kept as [ts ss ns es]. cbn [time setpoint internal_temp external_temp] in *.
    clear - H1 H2 H3. revert ss ns es H1 H2 H3.
    induction ts as [|t ts IH]; intros [|s ss] [|i ns] [|e es] H1 H2 H3;
      try discriminate; [reflexivity|]. cbn. f_equal. apply IH; cbn in *; lia. }
  assert (samples kept <> []) as Hne.
  { intros En. rewrite En, app_nil_r in Eo.
    assert (In (current_time, set_temp, internal, external) old) as Hin.
    { rewrite <- Eo. apply in_or_app. right. now left. }
    rewrite List.Forall_forall in Ho. apply Ho in Hin. cbn in Hin. unfold one_hour in Hin.
    lia. }
  assert (last (samples kept) = Some (current_time, set_temp, internal, external)) as Hl.
  { assert (last (old ++ samples kept)
            = Some (current_time, set_temp, internal, external)) as H
      by (rewrite <- Eo; apply last_snoc).
    destruct (samples kept) as [|x l] using rev_ind; [easy|].
    rewrite app_assoc, last_snoc in H. now rewrite last_snoc. }
  assert (exists front, time data ++ [current_time] = front ++ time kept) as (front & Ef).
  { exists (map (fun sample => fst (fst (fst sample))) old). rewrite Et, <- map_app, <- Eo.
    rewrite map_app. cbn [map fst]. f_equal.
    unfold samples, zip4.
    destruct data as [ts ss ns es]. cbn [time setpoint internal_temp external_temp] in *.
    clear - Hs Hi He. revert ss ns es Hs Hi He.
    induction ts as [|t ts IH]; intros [|s ss] [|i ns] [|e es] H1 H2 H3;
      try discriminate; [reflexivity|]. cbn. f_equal. apply IH; cbn in *; lia. }
  exists kept. split; [exact Ek|]. split; [exact Ha|]. split; [|split; [|split]].
  - rewrite Ef in Hadj'. now apply adjacent_app in Hadj' as (_ & H & _).
  - apply List.Forall_forall. intros x Hx. split.
    + rewrite List.Forall_forall in Hf. now apply Hf.
    + assert (In x (time data ++ [current_time])) as Hin
        by (rewrite Ef; apply in_or_app; now right).
      clear - Hin Hadj'. 
      assert (forall l (y : Z), adjacent Z.le (l ++ [y]) -> forall x, In x (l ++ [y]) -> x <= y)
        as H.
      { induction l as [|a l IH]; intros y Ha z Hz.
        - destruct Hz as [<- | []]. lia.
        - destruct Hz as [<- | Hz].
          + change ((a :: l) ++ [y]) with (a :: (l ++ [y])) in Ha.
            apply adjacent_cons in Ha as [H1 H2].
            destruct l as [|b l]; cbn in H1.
            * specialize (H1 y eq_refl). lia.
            * specialize (H1 b eq_refl). specialize (IH y H2 b (or_introl eq_refl)). lia.
          + change ((a :: l) ++ [y]) with (a :: (l ++ [y])) in Ha.
            apply adjacent_cons in Ha as [_ H2]. now apply IH. }
      now apply (H (time data)).
  - exact Hl.
  - exists old. split; [exact Eo | exact Ho].
Qed.

(** Two samples, the first of them more than an hour before the third. *)
Definition two_samples : t :=
  Data [0; 1800000000] [400%Q; 450%Q] [398%Q; 449%Q] [380%Q; 430%Q].

Lemma control_loop_keeps_last_hour_witness :
  aligned two_samples /\ adjacent Z.le (time two_samples) /\
  exists kept,
    control_loop_sample two_samples 3700000000 450 450 431 = Some kept /\
    aligned kept /\ adjacent Z.le (time kept) /\
    Forall (fun t => 3700000000 - one_hour <= t <= 3700000000) (time kept) /\
    last (samples kept) = Some (3700000000, 450%Q, 450%Q, 431%Q) /\
    exists old,
      samples two_samples ++ [(3700000000, 450%Q, 450%Q, 431%Q)] = old ++ samples kept /\
      Forall (fun sample => fst (fst (fst sample)) < 3700000000 - one_hour) old.
Proof.
  assert (aligned two_samples) as Ha by (repeat split).
  assert (adjacent Z.le (time two_samples)) as Hs by (cbn; lia).
  split; [exact Ha|]. split; [exact Hs|].
  apply (control_loop_keeps_last_hour two_samples 3700000000 450 450 431 Ha Hs).
  intros latest [= <-]. lia.
Defined.

(** *** The limit on the number of points *)

Lemma skipn_combine {A B} n (a : list A) (b : list B) :
  skipn n (combine a b) = combine (skipn n a) (skipn n b).
Proof.
  revert a b. induction n as [|n IH]; intros [|x a] [|y b]; cbn; try reflexivity.
  - now destruct (skipn n a).
  - apply IH.
Qed.

Lemma limit_aligned {A B} (a : list A) (b : list B) :
  length a = length b ->
  limit a = skipn (length a - Z.to_nat max_data_points) a /\
  limit b = skipn (length a - Z.to_nat max_data_points) b.
Proof.
  intros H. unfold limit. rewrite <- H.
  destruct (max_data_points <? Z.of_nat (length a)) eqn:E.
  - replace (Z.to_nat (Z.of_nat (length a) - max_data_points))
      with (length a - Z.to_nat max_data_points)%nat by (unfold max_data_points in *; lia).
    split; reflexivity.
  - replace (length a - Z.to_nat max_data_points)%nat with 0%nat
      by (unfold max_data_points in *; lia).
    split; reflexivity.
Qed.

(** X24. In the monitoring loop the four lists stay aligned; the samples kept
    are the latest ones, the new one among them, each with its own values,
    and at most [max_data_points] of them when there were no more before. *)
Theorem monitor_keeps_latest_points (data : t) (current_time : Z)
  (set_temp internal external : Q) :
  aligned data ->
  let kept := monitor_sample data current_time set_temp internal external in
  aligned kept /\
  Z.of_nat (length (time kept))
  = Z.min (Z.of_nat (length (time data)) + 1) max_data_points /\
  last (samples kept) = Some (current_time, set_temp, internal, external) /\
  exists old,
    samples data ++ [(current_time, set_temp, internal, external)] = old ++ samples kept.
Proof.
  intros (Hs & Hi & He) kept.
  set (n := (length (time data ++ [current_time]) - Z.to_nat max_data_points)%nat).
  assert (length (time data ++ [current_time]) = S (length (time data))) as Hlen
    by (rewrite length_app; cbn; lia).
  assert (time kept = skipn n (time data ++ [current_time]) /\
          setpoint kept = skipn n (setpoint data ++ [set_temp]) /\
          internal_temp kept = skipn n (internal_temp data ++ [internal]) /\
          external_temp kept = skipn n (external_temp data ++ [external]))
    as (Et & Esp & Ei & Ee).
  { unfold kept, monitor_sample, append. cbv zeta.
    cbn [time setpoint internal_temp external_temp].
    destruct (limit_aligned (time data ++ [current_time]) (setpoint data ++ [set_temp]))
      as [-> ->]; [rewrite !length_app; cbn; lia|].
    destruct (limit_aligned (time data ++ [current_time]) (internal_temp data ++ [internal]))
      as [_ ->]; [rewrite !length_app; cbn; lia|].
    destruct (limit_aligned (time data ++ [current_time]) (external_temp data ++ [external]))
      as [_ ->]; [rewrite !length_app; cbn; lia|].
    easy. }
  assert (samples kept
          = skipn n (samples data ++ [(current_time, set_temp, internal, external)])) as Ek.
  { unfold samples, zip4. rewrite Et, Esp, Ei, Ee, <- !skipn_combine.
    rewrite !combine_snoc; rewrite ?length_combine; try lia. reflexivity. }
  assert (n <= length (time data))%nat as Hn.
  { unfold n. rewrite Hlen. unfold max_data_points. lia. }
  split; [|split; [|split]].
  - unfold aligned. rewrite Et, Esp, Ei, Ee, !length_skipn, !length_app. cbn. lia.
  - rewrite Et, length_skipn, Hlen. unfold n. rewrite Hlen. unfold max_data_points. lia.
  - rewrite Ek.
    assert (length (samples data) = length (time data)) as Hl.
    { unfold samples, zip4. rewrite !length_combine. lia. }
    rewrite skipn_app.
    replace (n - length (samples data))%nat with 0%nat by lia.
    cbn [skipn]. apply last_snoc.
  - exists (firstn n (samples data ++ [(current_time, set_temp, internal, external)])).
    rewrite Ek. symmetry. apply firstn_skipn.
Qed.

Lemma monitor_keeps_latest_points_witness :
  aligned two_samples /\
  let kept := monitor_sample two_samples 3700000000 450 450 431 in
  aligned kept /\
  Z.of_nat (length (time kept))
  = Z.min (Z.of_nat (length (time two_samples)) + 1) max_data_points /\
  last (samples kept) = Some (3700000000, 450%Q, 450%Q, 431%Q) /\
  exists old,
    samples two_samples ++ [(3700000000, 450%Q, 450%Q, 431%Q)] = old ++ samples kept.
Proof.
  assert (aligned two_samples) as Ha by (repeat split).
  split; [exact Ha|].
  apply (monitor_keeps_latest_points two_samples 3700000000 450 450 431 Ha).
Defined.

End PlotDataFacts.

(** ** Facts on the reader of a growing log file *)

Module LivingLogFacts.
Import Py LivingLog.

(** A text of whole lines: empty, or ending with a line feed. *)
Definition whole (s : list byte) : Prop := s = [] \/ exists body, s = body ++ [x0a].

(** The lines of a text of whole lines. *)
Definition lines (s : list byte) : list (list byte) := removelast (split s).

Lemma split_from_nonempty word s : split_from word s <> [].
Proof.
  revert word. induction s as [|c s IH]; intros word; cbn; [easy|].
  destruct (Byte.eqb c x0a); [easy | apply IH].
Qed.

Lemma removelast_cons {A} (x : A) l : l <> [] -> removelast (x :: l) = x :: removelast l.
Proof. now destruct l. Qed.

Lemma removelast_app' {A} (l1 l2 : list A) :
  l2 <> [] -> removelast (l1 ++ l2) = l1 ++ removelast l2.
Proof.
  intros H. induction l1 as [|x l1 IH]; [reflexivity|]. cbn [app].
  rewrite removelast_cons, IH; [reflexivity|]. now destruct l1, l2.
Qed.

Lemma split_from_line word body rest :
  split_from word (body ++ x0a :: rest)
  = removelast (split_from word (body ++ [x0a])) ++ split_from [] rest.
Proof.
  revert word. induction body as [|c body IH]; intros word.
  - cbn. reflexivity.
  - cbn [app split_from]. destruct (Byte.eqb c x0a).
    + rewrite removelast_cons by apply split_from_nonempty. now rewrite IH.
    + apply IH.
Qed.

Lemma lines_app a b : whole a -> lines (a ++ b) = lines a ++ lines b.
Proof.
  intros [-> | (body & ->)]; [reflexivity|]. unfold lines, split.
  rewrite <- app_assoc. cbn [app]. rewrite split_from_line.
  now rewrite removelast_app' by apply split_from_nonempty.
Qed.

(** The files that an append-only log shows over time: each one begins
    with the one before. *)
Definition append_only (files : list (list byte)) : Prop :=
  adjacent (fun before after => exists added, after = before ++ added) files.

Lemma updates_spec files : forall self file0,
  (cursor self <= length file0)%nat ->
  whole (firstn (cursor self) file0) ->
  append_only (file0 :: files) ->
  exists entries final file,
    updates self files = (Some entries, final) /\
    last (file0 :: files) = Some file /\
    (cursor final <= length file)%nat /\
    whole (firstn (cursor final) file) /\
    lines (firstn (cursor final) file) = lines (firstn (cursor self) file0) ++ entries /\
    (files <> [] -> whole file -> cursor final = length file).
Proof.
  induction files as [|file files IH]; intros self file0 Hc Hw Ha.
  - exists [], self, file0. cbn [updates]. rewrite app_nil_r.
    split; [reflexivity|]. split; [reflexivity|]. split; [exact Hc|]. split; [exact Hw|].
    split; [reflexivity|]. easy.
  - apply adjacent_cons in Ha as [Hstep Ha]. destruct (Hstep file eq_refl) as (added & ->).
    assert (firstn (cursor self) (file0 ++ added) = firstn (cursor self) file0) as Ep.
    { rewrite firstn_app. replace (cursor self - length file0)%nat with 0%nat by lia.
      cbn [firstn]. now rewrite app_nil_r. }
    assert (exists lines0 self',
               new_entries (file0 ++ added) self = (Some lines0, self') /\
               (cursor self' <= length (file0 ++ added))%nat /\
               whole (firstn (cursor self') (file0 ++ added)) /\
               lines (firstn (cursor self') (file0 ++ added))
               = lines (firstn (cursor self) file0) ++ lines0 /\
               (whole (file0 ++ added) -> cursor self' = length (file0 ++ added)))
      as (lines0 & self' & En & Hc' & Hw' & El & Hend).
    { unfold new_entries.
      assert ((length (file0 ++ added) <? cursor self)%nat = false) as ->
        by (apply Nat.ltb_ge; rewrite length_app; lia).
      destruct (length (file0 ++ added) =? cursor self)%nat eqn:Eq.
      { apply Nat.eqb_eq in Eq. exists [], self. rewrite app_nil_r, Ep.
        split; [reflexivity|]. split; [lia|]. split; [exact Hw|].
        split; [reflexivity|]. intros _. lia. }
      apply Nat.eqb_neq in Eq.
      set (rest := skipn (cursor self) (file0 ++ added)).
      assert (file0 ++ added = firstn (cursor self) file0 ++ rest) as Ef.
      { unfold rest. rewrite <- Ep. symmetry. apply firstn_skipn. }
      assert (rest <> []) as Hne.
      { intros Hr. apply (f_equal (@length byte)) in Ef. rewrite Hr, app_nil_r in Ef.
        rewrite length_firstn in Ef. lia. }
      destruct rest as [|r rest'] using rev_ind; [easy|]. rewrite last_snoc.
      destruct (Byte.eqb r x0a) eqn:Er; cbn [negb].
      - apply Byte.byte_dec_bl in Er. subst r.
        exists (removelast (split (rest' ++ [x0a]))), (Log (length (file0 ++ added))).
        cbn [cursor]. rewrite firstn_all. split; [reflexivity|]. split; [lia|].
        split; [right; rewrite Ef, app_assoc; eauto|]. split; [|easy].
        rewrite Ef at 1. now apply lines_app.
      - exists [], self. rewrite app_nil_r, Ep.
        split; [reflexivity|]. split; [rewrite length_app; lia|]. split; [exact Hw|].
        split; [reflexivity|].
        intros [Hnil | (body & Hb)].
        + rewrite Hnil in Ef. apply (f_equal (@length byte)) in Ef.
          rewrite !length_app in Ef. cbn in Ef. lia.
        + rewrite Ef, app_assoc in Hb. apply app_inj_tail in Hb as [_ ->].
          now destruct x0a. }
    destruct (IH self' (file0 ++ added) Hc' Hw' Ha)
      as (entries & final & file & Eu & Hlast & Hcf & Hwf & Elf & Hendf).
    exists (lines0 ++ entries), final, file. cbn [updates]. rewrite En, Eu.
    split; [reflexivity|]. split; [exact Hlast|]. split; [exact Hcf|]. split; [exact Hwf|].
    split; [now rewrite Elf, El, app_assoc|].
    intros _ Hwhole. destruct files as [|f files].
    + injection Eu as <- <-. injection Hlast as <-. now apply Hend.
    + now apply Hendf.
Qed.

(** X25. Over the successive states of an append-only log, starting at its
    beginning, the entries returned are the lines of the file up to the
    cursor, each one once and in order: none is lost and none comes twice.
    The cursor never passes an unfinished line, and stands at the end of
    the file whenever the file ends with a line feed. *)
Theorem no_line_lost_or_repeated (first : list byte) (files : list (list byte)) :
  append_only (first :: files) ->
  exists entries final file,
    updates (Log 0) (first :: files) = (Some entries, final) /\
    last (first :: files) = Some file /\
    (cursor final <= length file)%nat /\
    whole (firstn (cursor final) file) /\
    entries = lines (firstn (cursor final) file) /\
    (whole file -> cursor final = length file).
Proof.
  intros Ha.
  destruct (updates_spec (first :: files) (Log 0) [])
    as (entries & final & file & Eu & Hlast & Hc & Hw & El & Hend).
  - cbn. lia.
  - now left.
  - apply adjacent_cons. split; [|exact Ha]. intros b [= <-]. now exists first.
  - exists entries, final, file. split; [exact Eu|].
    split; [now rewrite last_cons_cons in Hlast|]. split; [exact Hc|]. split; [exact Hw|].
    split; [now rewrite El|]. intros Hwhole. now apply Hend.
Qed.

(** A log read three times: after a first line, in the middle of the
    second, and after the third. *)
Definition line (text : string) : list byte := list_byte_of_string text ++ [x0a].

Definition growing : list (list byte) :=
  [line "a,1";
   line "a,1" ++ list_byte_of_string "b,";
   line "a,1" ++ line "b,2" ++ line "c,3"].

Lemma no_line_lost_or_repeated_witness :
  append_only growing /\
  updates (Log 0) growing
  = (Some [list_byte_of_string "a,1"; list_byte_of_string "b,2"; list_byte_of_string "c,3"],
     Log 12) /\
  exists entries final file,
    updates (Log 0) growing = (Some entries, final) /\
    last growing = Some file /\
    (cursor final <= length file)%nat /\
    whole (firstn (cursor final) file) /\
    entries = lines (firstn (cursor final) file) /\
    (whole file -> cursor final = length file).
Proof.
  assert (append_only growing) as Ha.
  { split; [now exists (list_byte_of_string "b,")|].
    split; [|easy]. now exists (list_byte_of_string "2" ++ [x0a] ++ line "c,3"). }
  split; [exact Ha|]. split; [reflexivity|].
  apply (no_line_lost_or_repeated (line "a,1") (tl growing) Ha).
Defined.

End LivingLogFacts.

(** ** Facts on the packets of the node scan *)

Module FlowBusFacts.
Import Py FlowBus.
Local Open Scope Z_scope.

Definition is_byte (n : Z) : Prop := 0 <= n < 256.

Lemma log2_byte a : is_byte a -> Z.log2 a < 8.
Proof.
  unfold is_byte. intros Ha. destruct (Z.eq_dec a 0) as [-> | Hne]; [reflexivity|].
  apply Z.log2_lt_pow2; lia.
Qed.

Lemma lxor_byte a b : is_byte a -> is_byte b -> is_byte (Z.lxor a b).
Proof.
  intros Ha Hb. pose proof (log2_byte a Ha). pose proof (log2_byte b Hb).
  unfold is_byte in *.
  assert (0 <= Z.lxor a b) as Hn by (apply Z.lxor_nonneg; lia).
  split; [exact Hn|].
  destruct (Z.eq_dec (Z.lxor a b) 0) as [-> | Hne]; [lia|].
  change 256 with (2 ^ 8). apply Z.log2_lt_pow2; [lia|].
  pose proof (Z.log2_lxor a b). lia.
Qed.

Lemma fold_lxor_byte l : forall acc,
  is_byte acc -> Forall is_byte l -> is_byte (fold_left Z.lxor l acc).
Proof.
  induction l as [|x l IH]; intros acc Ha Hl; [exact Ha|]. cbn [fold_left].
  inversion Hl; subst. apply IH; [now apply lxor_byte | easy].
Qed.

Lemma bytes_Ok l : Forall is_byte l -> exists bs, bytes l = Ok bs /\ length bs = length l.
Proof.
  induction l as [|x l IH]; intros Hl; [now exists []|]. inversion Hl as [|? ? Hx Hl']; subst.
  destruct (IH Hl') as (bs & E & Hlen). cbn [bytes]. unfold to_byte.
  assert ((x <? 0) = false) as -> by (unfold is_byte in Hx; lia).
  destruct (Byte.of_N (Z.to_N x)) as [b|] eqn:Eb.
  - cbn [bind]. rewrite E. cbn [bind]. exists (b :: bs). split; [reflexivity|]. cbn. lia.
  - apply Byte.of_N_None_iff in Eb. unfold is_byte in Hx. lia.
Qed.

(** X26. The checksum closes the packet: the exclusive or of all that follows
    STX, checksum included, is 0. With an address, a command and data that
    are bytes the packet is sent as its [length data + 6] bytes. *)
Theorem packet_checksum_closes (address command : Z) (data : list Z) :
  xor_all (tl (packet address command data)) = 0 /\
  (is_byte address -> is_byte command -> Forall is_byte data ->
   (length data <= 252)%nat ->
   exists sent,
     bytes (packet address command data) = Ok sent /\
     length sent = (length data + 6)%nat).
Proof.
  split.
  - set (body := Z.of_nat (length data) + 3 :: address :: command :: data ++ [3]).
    change (tl (packet address command data)) with (body ++ [xor_all body]).
    unfold xor_all. rewrite fold_left_app. cbn [fold_left]. apply Z.lxor_nilpotent.
  - intros Ha Hc Hd Hlen.
    set (body := Z.of_nat (length data) + 3 :: address :: command :: data ++ [3]).
    assert (Forall is_byte body) as Hb.
    { subst body. constructor; [unfold is_byte; lia|]. constructor; [exact Ha|].
      constructor; [exact Hc|]. apply List.Forall_app. split; [exact Hd|].
      constructor; [unfold is_byte; lia | constructor]. }
    change (packet address command data) with (2 :: body ++ [xor_all body]).
    destruct (bytes_Ok (2 :: body ++ [xor_all body])) as (sent & E & Hl).
    + constructor; [unfold is_byte; lia|]. apply List.Forall_app. split; [exact Hb|].
      constructor; [|constructor]. apply fold_lxor_byte; [unfold is_byte; lia | exact Hb].
    + exists sent. split; [exact E|]. rewrite Hl. subst body. cbn [length].
      rewrite !length_app. cbn [length]. rewrite length_app. cbn [length]. lia.
Qed.

Lemma packet_checksum_closes_witness :
  xor_all (tl (packet 3 1 [0; 1])) = 0 /\
  exists sent, bytes (packet 3 1 [0; 1]) = Ok sent /\ length sent = 8%nat.
Proof.
  destruct (packet_checksum_closes 3 1 [0; 1]) as [H1 H2].
  split; [exact H1|]. apply H2; unfold is_byte; try lia; [|simpl; lia].
  repeat constructor; lia.
Defined.

End FlowBusFacts.
